(** * CrisisMap AI: the retrieval-augmented response pipeline

    A shallow embedding of the response pipeline of CrisisMap AI
    (crisismap_ai/models/llm_response.py, crisismap_ai/api/app.py and
    crisismap_ai/database/db_operations.py) together with the properties
    stated about it, and of the code around it: the web scraper
    (crisismap_ai/web_scraper.py), the summarizer
    (crisismap_ai/models/summarization.py) and the cleaning of loaded
    events (crisismap_ai/data_ingestion/data_processor.py).

    Python [str] values are modelled as lists of characters whose code
    points are below 256 ([pystr]); dictionaries are finite maps from
    field names to values; collaborators (web search, embedding model,
    vector store, summarization model, the loading of the models and the
    database connection of the endpoint) are oracles that either return a
    value or raise. *)

From Stdlib Require Import Ascii String Lia ZArith DecimalString.
From stdpp Require Import base list strings gmap.

Set Default Proof Using "Type".

(** ** Characters *)

Definition pystr := list ascii.

(** A literal of the source, character by character. *)
Definition txt (s : string) : pystr := list_ascii_of_string s.

Definition NL : ascii := ascii_of_nat 10.
Definition SP : ascii := ascii_of_nat 32.
Definition DQUOTE : ascii := ascii_of_nat 34.
Definition SQUOTE : ascii := ascii_of_nat 39.

Definition code (c : ascii) : nat := nat_of_ascii c.

Definition in_range (lo hi : nat) (c : ascii) : bool :=
  (lo <=? code c) && (code c <=? hi).

(** [str.isspace] on one character, which is also the class [\s] of the
    [re] module on [str] patterns: TAB..CR, FS..US, SPACE, NEL, NBSP. *)
Definition is_space (c : ascii) : bool :=
  in_range 9 13 c || in_range 28 32 c || (code c =? 133) || (code c =? 160).

(** The regular-expression classes [a-z] and [A-Za-z]. *)
Definition is_lower_az (c : ascii) : bool := in_range 97 122 c.
Definition is_upper_az (c : ascii) : bool := in_range 65 90 c.
Definition is_letter_az (c : ascii) : bool := is_lower_az c || is_upper_az c.

(** The class [.!?] that ends a sentence. *)
Definition is_terminator (c : ascii) : bool :=
  (code c =? 46) || (code c =? 33) || (code c =? 63).

(** [c.upper()] for the characters the formatter applies it to: a letter
    of [a-z], or a whitespace character (left as it is). *)
Definition char_upper (c : ascii) : ascii :=
  if is_lower_az c then ascii_of_nat (code c - 32) else c.

(** [c.lower()]: [A-Z] and the upper-case letters of Latin-1. *)
Definition char_lower (c : ascii) : ascii :=
  if is_upper_az c || in_range 192 214 c || in_range 216 222 c
  then ascii_of_nat (code c + 32) else c.

(** [str.isalnum] on one character below 256. *)
Definition is_alnum (c : ascii) : bool :=
  in_range 48 57 c || is_letter_az c
  || (code c =? 170) || (code c =? 178) || (code c =? 179) || (code c =? 181)
  || (code c =? 185) || (code c =? 186) || in_range 188 190 c
  || in_range 192 214 c || in_range 216 246 c || in_range 248 255 c.

(** ** Python string primitives *)

Module PyStr.

Definition eqb (a b : pystr) : bool := bool_decide (a = b).

Definition is_empty (s : pystr) : bool :=
  match s with [] => true | _ => false end.

(** [s.startswith(p)] *)
Fixpoint startswith (p s : pystr) : bool :=
  match p, s with
  | [], _ => true
  | _ :: _, [] => false
  | a :: p', b :: s' => bool_decide (a = b) && startswith p' s'
  end.

(** [s.endswith(p)] *)
Definition endswith (p s : pystr) : bool := startswith (reverse p) (reverse s).

(** First occurrence of [sep] in [s]: the text before it and the text
    after it ([s.partition(sep)] when it is found). *)
Fixpoint find (sep s : pystr) : option (pystr * pystr) :=
  if startswith sep s then Some ([], drop (length sep) s)
  else match s with
       | [] => None
       | c :: s' =>
           match find sep s' with
           | Some (a, b) => Some (c :: a, b)
           | None => None
           end
       end.

(** [sub in s] *)
Definition contains (sub s : pystr) : bool :=
  match find sub s with Some _ => true | None => false end.

(** [s.split(sep)] for a non-empty [sep]; every cut consumes at least one
    character, so [length s] rounds are enough. *)
Fixpoint split_fuel (n : nat) (sep s : pystr) : list pystr :=
  match n with
  | O => [s]
  | S n' =>
      match find sep s with
      | None => [s]
      | Some (a, b) => a :: split_fuel n' sep b
      end
  end.

Definition split (sep s : pystr) : list pystr := split_fuel (length s) sep s.

(** [s.split(sep, 1)] *)
Definition split1 (sep s : pystr) : list pystr :=
  match find sep s with
  | None => [s]
  | Some (a, b) => [a; b]
  end.

(** [s.rsplit(sep, 1)]: the cut is at the last occurrence. *)
Definition rsplit1 (sep s : pystr) : list pystr :=
  match find (reverse sep) (reverse s) with
  | None => [s]
  | Some (a, b) => [reverse b; reverse a]
  end.

(** [sep.join(parts)] *)
Fixpoint join (sep : pystr) (parts : list pystr) : pystr :=
  match parts with
  | [] => []
  | [p] => p
  | p :: rest => p ++ sep ++ join sep rest
  end.

Fixpoint lstrip (s : pystr) : pystr :=
  match s with
  | c :: s' => if is_space c then lstrip s' else s
  | [] => []
  end.

Definition rstrip (s : pystr) : pystr := reverse (lstrip (reverse s)).

(** [s.strip()] *)
Definition strip (s : pystr) : pystr := rstrip (lstrip s).

(** [s.lower()] *)
Definition lower (s : pystr) : pystr := map char_lower s.

(** [s[0].upper() + s[1:]] on a non-empty string. *)
Definition upper_first (s : pystr) : pystr :=
  match s with
  | c :: s' => char_upper c :: s'
  | [] => []
  end.

(** [s.split()]: the maximal runs of non-whitespace characters. *)
Fixpoint words_go (cur : pystr) (s : pystr) : list pystr :=
  match s with
  | [] => if is_empty cur then [] else [reverse cur]
  | c :: s' =>
      if is_space c
      then (if is_empty cur then [] else [reverse cur]) ++ words_go [] s'
      else words_go (c :: cur) s'
  end.

Definition words (s : pystr) : list pystr := words_go [] s.

End PyStr.


(** ** Regular expressions

    The patterns of the formatter are written as anchored matchers: given
    the character before the position (for look-behind) and the text from
    the position on, a matcher returns the matched text and what follows
    it.  [search], [split] and [sub] are the scanning loops of [re]:
    leftmost match first, the scan resuming after the match. *)

Module Re.

Definition matcher := option ascii -> pystr -> option (pystr * pystr).

(** The longest prefix made of characters of a class, and the rest. *)
Fixpoint span (cls : ascii -> bool) (s : pystr) : pystr * pystr :=
  match s with
  | c :: s' =>
      if cls c then let '(a, b) := span cls s' in (c :: a, b) else ([], s)
  | [] => ([], [])
  end.

(** The character before the position that follows [x] read after
    [prev]. *)
Definition last_char (prev : option ascii) (x : pystr) : option ascii :=
  match reverse x with
  | c :: _ => Some c
  | [] => prev
  end.

(** [re.search]: text before the leftmost match, the match, text after. *)
Fixpoint search (m : matcher) (prev : option ascii) (s : pystr)
  : option (pystr * pystr * pystr) :=
  match m prev s with
  | Some (x, r) => Some ([], x, r)
  | None =>
      match s with
      | [] => None
      | c :: s' =>
          match search m (Some c) s' with
          | Some (b, x, r) => Some (c :: b, x, r)
          | None => None
          end
      end
  end.

(** [re.match(p, s)] as a truth value. *)
Definition matches (m : matcher) (s : pystr) : bool :=
  match m None s with Some _ => true | None => false end.

(** [re.split] for a pattern that is one capturing group and never matches
    the empty string: texts and delimiters alternate. *)
Fixpoint split_fuel (n : nat) (m : matcher) (prev : option ascii) (s : pystr)
  : list pystr :=
  match n with
  | O => [s]
  | S n' =>
      match search m prev s with
      | None => [s]
      | Some (b, x, r) => b :: x :: split_fuel n' m (last_char prev (b ++ x)) r
      end
  end.

Definition split (m : matcher) (s : pystr) : list pystr :=
  split_fuel (length s) m None s.

(** [re.sub] with a constant replacement, for a pattern that never matches
    the empty string. *)
Fixpoint sub_fuel (n : nat) (m : matcher) (repl : pystr)
    (prev : option ascii) (s : pystr) : pystr :=
  match n with
  | O => s
  | S n' =>
      match search m prev s with
      | None => s
      | Some (b, x, r) =>
          b ++ repl ++ sub_fuel n' m repl (last_char prev (b ++ x)) r
      end
  end.

Definition sub (m : matcher) (repl s : pystr) : pystr :=
  sub_fuel (length s) m repl None s.

(** [[.!?]C+] for a character class [C]: a terminator and the longest
    non-empty run of [C] after it. *)
Definition terminator_then (cls : ascii -> bool) : matcher :=
  fun _ s =>
    match s with
    | c :: s' =>
        if is_terminator c
        then match span cls s' with
             | ([], _) => None
             | (w, r) => Some (c :: w, r)
             end
        else None
    | [] => None
    end.

(** [[.!?][\s\n]+], the pattern of the first pass. *)
Definition sentence_end_nl : matcher :=
  terminator_then (fun c => is_space c || bool_decide (c = NL)).

(** [[.!?][\s]+], the pattern of the paragraph pass. *)
Definition sentence_end : matcher := terminator_then is_space.

(** [^[a-z]] *)
Definition lower_start : matcher :=
  fun _ s =>
    match s with
    | c :: r => if is_lower_az c then Some ([c], r) else None
    | [] => None
    end.

(** [\s*\n\s*]: both stars are greedy and a newline is itself whitespace,
    so a match is a maximal whitespace run from the position on, and there
    is one exactly when that run holds a newline. *)
Definition newline_run : matcher :=
  fun _ s =>
    let '(w, r) := span is_space s in
    if bool_decide (NL ∈ w) then Some (w, r) else None.

Definition not_letter (o : option ascii) : bool :=
  match o with
  | Some c => negb (is_letter_az c)
  | None => true
  end.

(** [(?<![A-Za-z])word(?![A-Za-z])] *)
Definition whole_word (word : pystr) : matcher :=
  fun prev s =>
    if not_letter prev && PyStr.startswith word s
       && not_letter (head (drop (length word) s))
    then Some (word, drop (length word) s)
    else None.

(** [(?<![A-Za-z])word's] *)
Definition possessive (word : pystr) : matcher :=
  fun prev s =>
    let w := word ++ [SQUOTE; "s"%char] in
    if not_letter prev && PyStr.startswith w s
    then Some (w, drop (length w) s)
    else None.

End Re.

(** ** The text normalizer: [LLMResponseGenerator._format_response_text] *)

Definition BLANK : pystr := [NL; NL].

(** The marker of the citation block, as the extractor looks for it. *)
Definition SOURCES_MARKER : pystr := txt "**Sources:**".

(** ["\n\n**Sources:**\n"], as the composer writes it. *)
Definition SOURCES_HEADER : pystr := BLANK ++ SOURCES_MARKER ++ [NL].

(** [noun.capitalize()] *)
Definition capitalize (s : pystr) : pystr :=
  match s with
  | c :: r => char_upper c :: PyStr.lower r
  | [] => []
  end.

Definition PROPER_NOUNS : list pystr :=
  map txt ["israel"; "iran"; "israeli"; "iranian"; "monday"; "tuesday";
           "wednesday"; "thursday"; "friday"; "saturday"; "sunday"].

Definition POSSESSIVE_NOUNS : list pystr :=
  map txt ["israel"; "iran"; "israeli"; "iranian"].

Definition starts_with_quote (s : pystr) : bool :=
  PyStr.startswith [SQUOTE] s || PyStr.startswith [DQUOTE] s.

(** The body of the first [while] loop for a sentence with its
    punctuation. *)
Definition capitalize_sentence (sentence : pystr) : pystr :=
  if negb (PyStr.is_empty sentence)
     && negb (starts_with_quote (PyStr.strip sentence))
     && (0 <? length (PyStr.strip sentence))
  then if Re.matches Re.lower_start (PyStr.strip sentence)
       then PyStr.upper_first sentence
       else sentence
  else sentence.

(** The [else] branch of the first loop: a part that is not followed by a
    delimiter. *)
Definition standalone_part (part : pystr) : list pystr :=
  if negb (PyStr.is_empty (PyStr.strip part))
  then [if Re.matches Re.lower_start (PyStr.strip part)
        then PyStr.upper_first part else part]
  else [].

(** The first [while] loop over the parts of the split. *)
Fixpoint format_sentences (parts : list pystr) : list pystr :=
  match parts with
  | [] => []
  | part :: tl =>
      match tl with
      | delim :: rest =>
          if Re.matches Re.sentence_end_nl delim
          then capitalize_sentence (part ++ delim) :: format_sentences rest
          else standalone_part part ++ format_sentences tl
      | [] => standalone_part part
      end
  end.

(** The [while] loop of one paragraph; [first] is [i == 0]. *)
Fixpoint format_paragraph_parts (first : bool) (parts : list pystr)
  : list pystr :=
  match parts with
  | [] => []
  | part :: tl =>
      let standalone :=
        if negb (PyStr.is_empty (PyStr.strip part))
        then [if first && Re.matches Re.lower_start part
              then PyStr.upper_first part else part]
        else [] in
      match tl with
      | delim :: rest =>
          if Re.matches Re.sentence_end delim
          then (let sentence := part ++ delim in
                if first && negb (PyStr.is_empty sentence)
                   && (0 <? length sentence)
                   && Re.matches Re.lower_start sentence
                then PyStr.upper_first sentence else sentence)
               :: format_paragraph_parts false rest
          else standalone ++ format_paragraph_parts false tl
      | [] => standalone
      end
  end.

(** The body of the loop over paragraphs, for a paragraph that is not
    blank. *)
Definition format_paragraph (paragraph : pystr) : pystr :=
  let clean := Re.sub Re.newline_run [SP] (PyStr.strip paragraph) in
  let para_sentences := Re.split Re.sentence_end clean in
  let clean' := concat (format_paragraph_parts true para_sentences) in
  if negb (PyStr.is_empty clean') && Re.matches Re.lower_start clean'
  then PyStr.upper_first clean' else clean'.

Definition format_paragraphs (paragraphs : list pystr) : list pystr :=
  map format_paragraph
      (filter (fun p => PyStr.strip p <> []) paragraphs).

(** The two proper-noun loops. *)
Definition fix_proper_nouns (s : pystr) : pystr :=
  let s1 := fold_left
              (fun acc noun => Re.sub (Re.whole_word noun) (capitalize noun) acc)
              PROPER_NOUNS s in
  fold_left
    (fun acc noun =>
       Re.sub (Re.possessive noun) (capitalize noun ++ [SQUOTE; "s"%char]) acc)
    POSSESSIVE_NOUNS s1.

(** The header split: [(header, content)]. *)
Definition split_header (text : pystr) : pystr * pystr :=
  if PyStr.startswith (txt "**") text && PyStr.contains BLANK text
  then match PyStr.split1 BLANK text with
       | [p0; p1] => (p0 ++ BLANK, p1)
       | _ => ([], text)
       end
  else ([], text).

(** The citation-block split: [(processed_content, sources_section)]. *)
Definition split_sources (content : pystr) : pystr * pystr :=
  if PyStr.contains SOURCES_HEADER content
  then match PyStr.split1 SOURCES_HEADER content with
       | p0 :: p1 :: _ => (p0, SOURCES_HEADER ++ p1)
       | [p0] => (p0, [])
       | [] => (content, [])
       end
  else (content, []).

(** Sentences, paragraphs and proper nouns of the body. *)
Definition format_body (processed_content : pystr) : pystr :=
  let sentences := Re.split Re.sentence_end_nl processed_content in
  let formatted_content := concat (format_sentences sentences) in
  let paragraphs := PyStr.split BLANK formatted_content in
  let final_content := PyStr.join BLANK (format_paragraphs paragraphs) in
  fix_proper_nouns final_content.

Definition format_response_text (text : pystr) : pystr :=
  if PyStr.is_empty text then text
  else
    let '(header, content) := split_header text in
    let '(processed_content, sources_section) := split_sources content in
    header ++ format_body processed_content ++ sources_section.


(** ** Values, records and failure *)

(** The values that evidence records hold: [None], a [str], or the
    [ObjectId] of a stored document (its hexadecimal text). *)
Inductive pyval :=
  | PyNone
  | PyStr (s : pystr)
  | PyOid (hex : pystr).

Global Instance pyval_eq_dec : EqDecision pyval.
Proof. solve_decision. Defined.

(** A Python [dict] with [str] keys. *)
Abbreviation dict := (gmap string pyval).

(** Truth value of a value in a condition. *)
Definition truthy (v : pyval) : bool :=
  match v with
  | PyNone => false
  | PyStr s => negb (PyStr.is_empty s)
  | PyOid _ => true
  end.

(** [str(v)], which is also how an f-string renders [v]. *)
Definition render (v : pyval) : pystr :=
  match v with
  | PyNone => txt "None"
  | PyStr s => s
  | PyOid hex => hex
  end.

(** [k in d] *)
Definition has_key (d : dict) (k : string) : bool :=
  bool_decide (is_Some (d !! k)).

(** [k in d and d[k]] *)
Definition has_value (d : dict) (k : string) : bool :=
  match d !! k with
  | Some v => truthy v
  | None => false
  end.

(** [d.get(k, default)] rendered in an f-string. *)
Definition get_text (d : dict) (k : string) (default : pystr) : pystr :=
  match d !! k with
  | Some v => render v
  | None => default
  end.

(** The outcome of a computation that may raise; the exception object
    itself is never inspected by the pipeline. *)
Inductive result (A : Type) :=
  | Ok (a : A)
  | Raise.
Arguments Ok {A} a.
Arguments Raise {A}.

Definition result_bind {A B} (r : result A) (f : A -> result B) : result B :=
  match r with
  | Ok a => f a
  | Raise => Raise
  end.

Notation "x <- c ;; k" := (result_bind c (fun x => k))
  (at level 100, c at next level, right associativity).

(** A [for] loop whose body may raise. *)
Fixpoint for_each {A S} (body : S -> A -> result S) (items : list A) (acc : S)
  : result S :=
  match items with
  | [] => Ok acc
  | x :: rest => acc' <- body acc x ;; for_each body rest acc'
  end.

(** [d[k] + suffix]: concatenation is defined on [str] only. *)
Definition str_plus (d : dict) (k : string) (suffix : pystr) : result pystr :=
  match d !! k with
  | Some (PyStr s) => Ok (s ++ suffix)
  | _ => Raise
  end.

(** [i] in decimal, as an f-string renders an [int]. *)
Definition nat_to_str (i : nat) : pystr :=
  txt (NilZero.string_of_uint (Nat.to_uint i)).

(** ** The document store: [CrisisEventOperations]

    A float of an embedding is kept as an opaque payload ([Z], [0] for
    [0.0]); the pipeline never computes on it. *)

Definition vec := list Z.

Definition VECTOR_DIMENSION : nat := 384.

Record store := {
  (** [self.db_conn.is_connected()], on the connection object that the
      store operations hold: the ping succeeds *)
  connected : bool;
  (** [self.collection], [None] when the connection failed at start-up *)
  collection : option (list dict);
  (** whether reading a cursor of [collection.find()] succeeds *)
  cursor_ok : bool;
  (** [collection.aggregate] on the [$search]/[knnBeta] pipeline with the
      given vector and [k] *)
  knn : vec -> nat -> result (list dict)
}.

Definition is_db_available (db : store) : bool :=
  connected db && bool_decide (is_Some (collection db)).

(** The documents a cursor with [limit(limit)] yields: the first [limit]
    in natural order; for MongoDB a limit of [0] is no limit. *)
Definition limit_docs (limit : nat) (docs : list dict) : list dict :=
  if limit =? 0 then docs else take limit docs.

(** [list(self.collection.find().limit(limit))] *)
Definition find_limit (db : store) (limit : nat) : result (list dict) :=
  match collection db with
  | Some docs =>
      if cursor_ok db
      then Ok (limit_docs limit docs)
      else Raise
  | None => Raise
  end.

(** The resizing of the query vector. *)
Definition resize_vector (query_vector : vec) : vec :=
  if bool_decide (length query_vector ≠ VECTOR_DIMENSION)
  then if VECTOR_DIMENSION <? length query_vector
       then take VECTOR_DIMENSION query_vector
       else query_vector ++ replicate (VECTOR_DIMENSION - length query_vector) 0%Z
  else query_vector.

(** [result['_id'] = str(result['_id'])] *)
Definition stringify_id (doc : dict) : result dict :=
  match doc !! "_id" with
  | Some v => Ok (<["_id" := PyStr (render v)]> doc)
  | None => Raise
  end.

Fixpoint stringify_ids (docs : list dict) : result (list dict) :=
  match docs with
  | [] => Ok []
  | d :: rest =>
      d' <- stringify_id d ;;
      rest' <- stringify_ids rest ;;
      Ok (d' :: rest')
  end.

(** The inner [try] of [search_by_vector]: the index search, and the plain
    [find] when it matches nothing or raises. *)
Definition vector_or_find (db : store) (query_vector : vec) (limit : nat)
  : result (list dict) :=
  match (results <- knn db query_vector limit ;;
         if bool_decide (results = []) then find_limit db limit
         else Ok results) with
  | Ok results => Ok results
  | Raise => find_limit db limit
  end.

(** The body of the outer [try] of [search_by_vector]. *)
Definition vector_search_body (db : store) (query_vector : vec) (limit : nat)
  : result (list dict) :=
  results <- vector_or_find db (resize_vector query_vector) limit ;;
  stringify_ids results.

Definition search_by_vector (db : store) (query_vector : vec) (limit : nat)
  : list dict :=
  if negb (is_db_available db) then []
  else
    match vector_search_body db query_vector limit with
    | Ok results => results
    | Raise => []
    end.

(** [embed] is [self.embedding_generator.generate_embedding]. *)
Definition search_by_text (embed : pystr -> result vec) (db : store)
    (query : pystr) (limit : nat) : list dict :=
  if negb (is_db_available db) then []
  else
    match (v <- embed query ;; Ok (search_by_vector db v limit)) with
    | Ok results => results
    | Raise => []
    end.

(** What the specification says of the text search: the vector search on
    the embedding of the query. *)
Definition text_search_spec (embed : pystr -> result vec) (db : store)
    (query : pystr) (limit : nat) : result (list dict) :=
  v <- embed query ;; Ok (search_by_vector db v limit).

(** ** Collaborators, state and effects *)

(** What the pipeline asks of its collaborators.  [CallGenerate prompt]
    is the generator being handed a prompt: its tokenizer is called on
    it. *)
Inductive event :=
  | CallWebSearch (query : pystr) (max_results : nat)
  | CallEmbedding (query : pystr)
  | CallVectorSearch (query_vector : vec) (limit : nat)
  | CallTextSearch (query : pystr) (limit : nat)
  | CallGenerate (prompt : pystr)
  | CallSummarize (text : pystr).

(** [not l] for a list. *)
Definition is_nil {A} (l : list A) : bool :=
  match l with [] => true | _ => false end.

(** The collaborators, each of which may raise. *)
Record world := {
  (** [get_web_scraper().search_disaster_info(query, max_results)] *)
  web_search : pystr -> nat -> result (list dict);
  (** [get_embedding_generator().generate_embedding(query)] *)
  embedding : pystr -> result vec;
  (** whether [_load_model] of the response generator succeeds *)
  llm_loads : bool;
  (** whether [_load_summarizer] succeeds *)
  summarizer_loads : bool;
  (** whether the model of the summarizer is loaded or loads *)
  t5_loads : bool;
  (** the summarization model on a text with [max_length], [min_length] *)
  t5_generate : pystr -> nat -> nat -> result pystr;
  (** [db_conn.is_connected()] on the connection object of the handler
      of the llm-response endpoint *)
  is_connected : bool;
  (** [db_conn.connect()] on that object: what it answers, unless it
      raises *)
  connect : result bool
}.

(** The mutable state a request reads and writes: the flags of the
    generator singleton, the store, and the calls made so far. *)
Record gen_state := {
  model_loaded : bool;
  summarizer_loaded : bool;
  db : store;
  trace : list event
}.

Definition M (A : Type) : Type := gen_state -> result A * gen_state.

Definition ret {A} (a : A) : M A := fun s => (Ok a, s).

Definition raise {A} : M A := fun s => (Raise, s).

Definition bind {A B} (m : M A) (f : A -> M B) : M B :=
  fun s =>
    match m s with
    | (Ok a, s') => f a s'
    | (Raise, s') => (Raise, s')
    end.

(** [try: m except Exception: handler] *)
Definition try_catch {A} (m : M A) (handler : M A) : M A :=
  fun s =>
    match m s with
    | (Ok a, s') => (Ok a, s')
    | (Raise, s') => handler s'
    end.

Definition lift {A} (r : result A) : M A := fun s => (r, s).

Definition get_state : M gen_state := fun s => (Ok s, s).

Definition emit (e : event) : M unit :=
  fun s => (Ok tt, {| model_loaded := model_loaded s;
                      summarizer_loaded := summarizer_loaded s;
                      db := db s;
                      trace := trace s ++ [e] |}).

Definition set_model_loaded : M unit :=
  fun s => (Ok tt, {| model_loaded := true;
                      summarizer_loaded := summarizer_loaded s;
                      db := db s;
                      trace := trace s |}).

Definition set_summarizer_loaded : M unit :=
  fun s => (Ok tt, {| model_loaded := model_loaded s;
                      summarizer_loaded := true;
                      db := db s;
                      trace := trace s |}).

Notation "x <~ c ;; k" := (bind c (fun x => k))
  (at level 100, c at next level, right associativity).

Definition call_web_search (w : world) (query : pystr) (max_results : nat)
  : M (list dict) :=
  _ <~ emit (CallWebSearch query max_results) ;;
  lift (web_search w query max_results).

Definition call_embedding (w : world) (query : pystr) : M vec :=
  _ <~ emit (CallEmbedding query) ;;
  lift (embedding w query).

Definition call_search_by_vector (query_vector : vec) (limit : nat)
  : M (list dict) :=
  _ <~ emit (CallVectorSearch query_vector limit) ;;
  s <~ get_state ;;
  ret (search_by_vector (db s) query_vector limit).

Definition call_search_by_text (w : world) (query : pystr) (limit : nat)
  : M (list dict) :=
  _ <~ emit (CallTextSearch query limit) ;;
  s <~ get_state ;;
  ret (search_by_text (embedding w) (db s) query limit).

(** The vector search of a caller and its fall-back on an empty result:
    [results = search_by_vector(...)], then
    [if not results: results = search_by_text(...)]. *)
Definition search_with_fallback (w : world) (query : pystr)
    (query_embedding : vec) (limit : nat) : M (list dict) :=
  results <~ call_search_by_vector query_embedding limit ;;
  if is_nil results then call_search_by_text w query limit
  else ret results.

(** The generation block of the two response paths, from the tokenizer
    on.  The block rebuilds [inputs] as a plain [dict]
    ([inputs = {k: v.to(...) for k, v in inputs.items()}]) and then reads
    [inputs.input_ids], an attribute that a [dict] does not have: whatever
    the tokenizer returned, the block raises before [model.generate] is
    called, and what follows it in the [try] is never run. *)
Definition call_generate (prompt : pystr) : M pystr :=
  _ <~ emit (CallGenerate prompt) ;;
  raise.

(** [Summarizer.summarize(text, max_length, min_length)], reached through
    [self.summarizer], an attribute that exists once the summarizer has
    been loaded. *)
Definition call_summarize (w : world) (text : pystr)
    (max_length min_length : nat) : M pystr :=
  s <~ get_state ;;
  if negb (summarizer_loaded s) then raise
  else
    _ <~ emit (CallSummarize text) ;;
    if negb (t5_loads w) then raise
    else if length (PyStr.words text) <? min_length then ret text
    else lift (t5_generate w text max_length min_length).

(** [self._load_model()] *)
Definition load_model (w : world) : M bool :=
  if llm_loads w then (_ <~ set_model_loaded ;; ret true) else ret false.

(** [self._load_summarizer()] *)
Definition load_summarizer (w : world) : M bool :=
  if summarizer_loads w then (_ <~ set_summarizer_loaded ;; ret true)
  else ret false.

(** ** The response composer: [LLMResponseGenerator] *)

(** The body of the loop over [web_data]; the accumulator is
    [(all_content, sources)]. *)
Definition add_web_item (acc : pystr * list pystr) (data : dict)
  : result (pystr * list pystr) :=
  all_content <-
    (if has_value data "content"
     then piece <- str_plus data "content" (SP :: BLANK) ;; Ok (acc.1 ++ piece)
     else Ok acc.1) ;;
  Ok (all_content,
      if has_key data "title" && has_key data "source"
      then acc.2 ++ [txt "- " ++ get_text data "title" (txt "Unknown")
                     ++ txt " (" ++ get_text data "source" (txt "Web")
                     ++ txt ")"]
      else acc.2).

(** The body of the loop over [context_data[:3]]. *)
Definition add_db_item (acc : pystr * list pystr) (ev : dict)
  : result (pystr * list pystr) :=
  all_content <-
    (if has_value ev "text"
     then piece <- str_plus ev "text" (SP :: BLANK) ;; Ok (acc.1 ++ piece)
     else if has_value ev "summary"
     then piece <- str_plus ev "summary" (SP :: BLANK) ;; Ok (acc.1 ++ piece)
     else Ok acc.1) ;;
  Ok (all_content,
      if has_key ev "title"
      then acc.2 ++ [txt "- " ++ get_text ev "title" (txt "Database record")]
      else acc.2).

(** The context and the citation lines of the web-based response. *)
Definition gather_evidence (web_data context_data : list dict)
  : result (pystr * list pystr) :=
  acc <- for_each add_web_item web_data ([], []) ;;
  if negb (bool_decide (context_data = [])) && (0 <? length context_data)
  then for_each add_db_item (take 3 context_data) acc
  else Ok acc.

Definition web_prompt (user_query all_content : pystr) : pystr :=
  [NL] ++ txt "I need information about: " ++ user_query ++ BLANK
  ++ txt "Please provide a clear, comprehensive answer based only on the following information:"
  ++ BLANK ++ all_content ++ BLANK
  ++ txt "Summarize the most important points and focus specifically on answering the query. Make your response well-structured, factual, and concise. Use proper capitalization for sentences and ensure the text is professionally formatted."
  ++ [NL].

(** The removal of an echoed prompt. *)
Definition strip_echo (prompt response_text : pystr) : pystr :=
  if PyStr.startswith prompt response_text
  then PyStr.strip (drop (length prompt) response_text)
  else response_text.

(** [if sources: text += "\n\n**Sources:**\n" + "\n".join(sources)] *)
Definition append_sources (text : pystr) (sources : list pystr) : pystr :=
  if bool_decide (sources = []) then text
  else text ++ SOURCES_HEADER ++ PyStr.join [NL] sources.

Definition information_header (user_query : pystr) : pystr :=
  txt "**Information about " ++ user_query ++ txt "**" ++ BLANK.

(** The raw content cut to 300 words, the last resort of the web path. *)
Definition truncated_content (all_content : pystr) : pystr :=
  let words := take 300 (PyStr.words all_content) in
  let truncated := PyStr.join [SP] words in
  if length words <? length (PyStr.words all_content)
  then truncated ++ txt "..." else truncated.

Definition technical_issue (user_query : pystr) : pystr :=
  txt "I encountered a technical issue while processing information about '"
  ++ user_query ++ txt "'. Please try again.".

(** The summarizer ladder of the web path, after the model was not used. *)
Definition web_fallback (w : world) (user_query all_content : pystr)
    (sources : list pystr) : M pystr :=
  try_catch
    (if 50 <? length (PyStr.words all_content)
     then summary <~ call_summarize w all_content 300 100 ;;
          ret (append_sources (information_header user_query ++ summary) sources)
     else ret (information_header user_query ++ PyStr.strip all_content))
    (ret (information_header user_query ++ truncated_content all_content)).

Definition generate_web_based_response (w : world) (user_query : pystr)
    (web_data context_data : list dict) : M pystr :=
  try_catch
    (s0 <~ get_state ;;
     _ <~ (if negb (summarizer_loaded s0) then load_summarizer w else ret true) ;;
     ev <~ lift (gather_evidence web_data context_data) ;;
     s1 <~ get_state ;;
     _ <~ (if negb (model_loaded s1) then load_model w else ret true) ;;
     s2 <~ get_state ;;
     generated <~
       (if model_loaded s2
        then try_catch
               (let prompt := web_prompt user_query ev.1 in
                response_text <~ call_generate prompt ;;
                ret (Some (append_sources (strip_echo prompt response_text) ev.2)))
               (ret None)
        else ret None) ;;
     match generated with
     | Some response_text => ret response_text
     | None => web_fallback w user_query ev.1 ev.2
     end)
    (ret (technical_issue user_query)).

(** [f"{label}: {d[k]}\n"] when [d[k]] is present and true, nothing
    otherwise. *)
Definition field_line (label : string) (d : dict) (k : string) : pystr :=
  if has_value d k then txt label ++ txt ": " ++ get_text d k [] ++ [NL]
  else [].

(** [', '.join(values)], defined on [str] items only. *)
Fixpoint join_values (sep : pystr) (values : list pyval) : result pystr :=
  match values with
  | [] => Ok []
  | [PyStr s] => Ok s
  | PyStr s :: rest => r <- join_values sep rest ;; Ok (s ++ sep ++ r)
  | _ => Raise
  end.

Definition present_values (d : dict) (keys : list string) : list pyval :=
  omap (fun k => if has_value d k then d !! k else None) keys.

(** One item of [_format_context]; the values of this model are never
    dictionaries, so the loop over [event["data"]] adds nothing. *)
Definition format_context_item (i : nat) (ev : dict) : result pystr :=
  let location_info := present_values ev ["country"; "location"] in
  location <-
    (if bool_decide (location_info = []) then Ok []
     else l <- join_values (txt ", ") location_info ;;
          Ok (txt "Location: " ++ l ++ [NL])) ;;
  Ok (txt "Event " ++ nat_to_str i ++ txt ":" ++ [NL]
      ++ field_line "Title" ev "title"
      ++ (if has_value ev "event_type" then field_line "Type" ev "event_type"
          else field_line "Type" ev "category")
      ++ location
      ++ field_line "Date" ev "date"
      ++ (if has_value ev "summary" then field_line "Summary" ev "summary"
          else field_line "Information" ev "text")
      ++ field_line "Casualties" ev "casualties"
      ++ field_line "Impacts" ev "impacts").

Fixpoint format_context_items (i : nat) (context_data : list dict)
  : result (list pystr) :=
  match context_data with
  | [] => Ok []
  | ev :: rest =>
      item <- format_context_item i ev ;;
      items <- format_context_items (S i) rest ;;
      Ok (item :: items)
  end.

Definition format_context (context_data : list dict) : result pystr :=
  items <- format_context_items 1 context_data ;;
  Ok (PyStr.join [NL] items).

Definition db_prompt (user_query formatted_context : pystr) : pystr :=
  [NL] ++ txt "I need information about: " ++ user_query ++ BLANK
  ++ txt "Based on the following crisis data, please provide a helpful, accurate, and concise answer:"
  ++ BLANK ++ formatted_context ++ BLANK
  ++ txt "Make your response well-structured, factual, and directly focused on answering the query. Ensure proper capitalization and formatting for a professional presentation."
  ++ [NL].

(** The body of the loop that builds [all_text]. *)
Definition add_db_text (all_text : pystr) (ev : dict) : result pystr :=
  if has_value ev "text"
  then piece <- str_plus ev "text" (SP :: BLANK) ;; Ok (all_text ++ piece)
  else if has_value ev "summary"
  then piece <- str_plus ev "summary" (SP :: BLANK) ;; Ok (all_text ++ piece)
  else Ok all_text.

(** One event of the structured response. *)
Definition structured_event (i : nat) (ev : dict) : result pystr :=
  info <-
    (if has_value ev "summary" then Ok (field_line "Summary" ev "summary")
     else if has_value ev "text"
     then match ev !! "text" with
          | Some (PyStr text) =>
              let text' :=
                if 100 <? length (PyStr.words text)
                then PyStr.join [SP] (take 100 (PyStr.words text)) ++ txt "..."
                else text in
              Ok (txt "Information: " ++ text' ++ [NL])
          | _ => Raise
          end
     else Ok []) ;;
  Ok (txt "**Event " ++ nat_to_str i ++ txt ": "
      ++ get_text ev "title" (txt "Unnamed event") ++ txt "**" ++ [NL]
      ++ field_line "Date" ev "date"
      ++ field_line "Location" ev "location"
      ++ info ++ [NL]).

Fixpoint structured_events (i : nat) (events : list dict) : result pystr :=
  match events with
  | [] => Ok []
  | ev :: rest =>
      item <- structured_event i ev ;;
      items <- structured_events (S i) rest ;;
      Ok (item ++ items)
  end.

(** The response of the [except] branch: numbered titles. *)
Fixpoint simple_events (i : nat) (events : list dict) : pystr :=
  match events with
  | [] => []
  | ev :: rest =>
      nat_to_str i ++ txt ". "
      ++ get_text ev "title" (txt "Event " ++ nat_to_str i)
      ++ (if has_value ev "date"
          then txt " (" ++ get_text ev "date" [] ++ txt ")" else [])
      ++ [NL] ++ simple_events (S i) rest
  end.

Definition simple_response (user_query : pystr) (context_data : list dict)
  : pystr :=
  txt "I found the following information about '" ++ user_query ++ txt "':"
  ++ BLANK ++ simple_events 1 (take 5 context_data).

Definition generate_db_based_response (w : world) (user_query : pystr)
    (context_data : list dict) : M pystr :=
  try_catch
    (formatted_context <~ lift (format_context context_data) ;;
     s1 <~ get_state ;;
     _ <~ (if negb (model_loaded s1) then load_model w else ret true) ;;
     s2 <~ get_state ;;
     generated <~
       (if model_loaded s2
        then try_catch
               (let prompt := db_prompt user_query formatted_context in
                response_text <~ call_generate prompt ;;
                ret (Some (strip_echo prompt response_text)))
               (ret None)
        else ret None) ;;
     match generated with
     | Some response_text => ret response_text
     | None =>
         all_text <~ lift (for_each add_db_text context_data []) ;;
         summarized <~
           (if negb (PyStr.is_empty all_text)
               && (30 <? length (PyStr.words all_text))
            then s3 <~ get_state ;;
                 _ <~ (if negb (summarizer_loaded s3) then load_summarizer w
                       else ret true) ;;
                 s4 <~ get_state ;;
                 if summarizer_loaded s4
                 then summary <~ call_summarize w all_text 300 100 ;;
                      ret (Some (information_header user_query ++ summary))
                 else ret None
            else ret None) ;;
         match summarized with
         | Some response => ret response
         | None =>
             events <~ lift (structured_events 1 (take 3 context_data)) ;;
             ret (information_header user_query ++ events)
         end
     end)
    (ret (simple_response user_query context_data)).

Definition no_information (user_query : pystr) : pystr :=
  txt "I couldn't find any information about '" ++ user_query
  ++ txt "'. Please try a different query or check your internet connection.".

Definition no_information_short (user_query : pystr) : pystr :=
  txt "I couldn't find any information about '" ++ user_query
  ++ txt "'. Please try a different query.".

(** [generate_response]; a [web_data] of [None] is the empty list.  The
    first component of the outcome of the opening block says whether the
    function returns there. *)
Definition generate_response (w : world) (user_query : pystr)
    (context_data web_data : list dict) : M pystr :=
  opening <~
    (if is_nil context_data && is_nil web_data
     then web_data' <~
            try_catch
              (if is_nil web_data then call_web_search w user_query 5
               else ret web_data)
              (ret web_data) ;;
          ret (is_nil context_data
               && (is_nil web_data' || (length web_data' =? 0)), web_data')
     else ret (false, web_data)) ;;
  if opening.1 then ret (no_information user_query)
  else if negb (is_nil opening.2) && (0 <? length opening.2)
  then response <~ generate_web_based_response w user_query opening.2 context_data ;;
       ret (format_response_text response)
  else if negb (is_nil context_data) && (0 <? length context_data)
  then response <~ generate_db_based_response w user_query context_data ;;
       ret (format_response_text response)
  else ret (no_information_short user_query).

Definition search_error (user_query : pystr) : pystr :=
  txt "I encountered an error while searching for information about '"
  ++ user_query ++ txt "'. Please try again with a different query.".

Definition find_and_respond (w : world) (user_query : pystr)
    (max_results : nat) : M pystr :=
  try_catch
    (web_data <~ try_catch (call_web_search w user_query 3) (ret []) ;;
     query_embedding <~ call_embedding w user_query ;;
     results <~ search_with_fallback w user_query query_embedding max_results ;;
     generate_response w user_query results web_data)
    (ret (search_error user_query)).

(** ** The source extractor and the endpoints: [api/app.py] *)

(** [{"title": ..., "source": ...}] *)
Record citation := Citation {
  c_title : pystr;
  c_source : pystr
}.

Global Instance citation_eq_dec : EqDecision citation.
Proof. solve_decision. Defined.

(** [CrisisResponse]; [sources] is optional and [None] by default. *)
Record crisis_response := CrisisResponse {
  cr_response : pystr;
  cr_sources : option (list citation)
}.

(** The body of the loop over [source_lines]. *)
Definition parse_source_line (sources : list citation) (line : pystr)
  : result (list citation) :=
  if PyStr.startswith (txt "-") line
  then
    let source_text := PyStr.strip (drop 1 line) in
    if PyStr.contains (txt "(") source_text
       && PyStr.endswith (txt ")") source_text
    then match PyStr.rsplit1 (txt "(") source_text with
         | [title_part; source_part] =>
             Ok (sources ++ [Citation (PyStr.strip title_part)
                               (PyStr.strip (removelast source_part))])
         | _ => Raise
         end
    else Ok (sources ++ [Citation source_text (txt "Unknown")])
  else Ok sources.

(** The extraction of [crisis_query], from the response text on. *)
Definition extract_sources (response : pystr) : result crisis_response :=
  if PyStr.contains SOURCES_MARKER response
  then
    let response_parts := PyStr.split SOURCES_MARKER response in
    let main_response := PyStr.strip (default [] (head response_parts)) in
    sources <-
      (match response_parts with
       | _ :: after :: _ =>
           for_each parse_source_line
                    (PyStr.split [NL] (PyStr.strip after)) []
       | _ => Ok []
       end) ;;
    Ok (CrisisResponse main_response (Some sources))
  else Ok (CrisisResponse response None).

(** [crisis_query]: raising is the [HTTPException] of the handler. *)
Definition crisis_query (w : world) (query : pystr) (max_results : nat)
  : M crisis_response :=
  try_catch
    (response <~ find_and_respond w query max_results ;;
     lift (extract_sources response))
    raise.

(** The query pattern that is given its own policy. *)
Definition is_california_wildfire (query : pystr) : bool :=
  PyStr.contains (txt "california") (PyStr.lower query)
  && (PyStr.contains (txt "wildfire") (PyStr.lower query)
      || PyStr.contains (txt "fire") (PyStr.lower query)).

(** [{"title": ..., "source": ..., "url": ...}] *)
Record web_source := WebSource {
  ws_title : pyval;
  ws_source : pyval;
  ws_url : pyval
}.

Definition collect_web_sources (web_data : list dict) : list web_source :=
  omap (fun data =>
          if has_key data "title" && has_key data "source" && has_key data "url"
          then Some (WebSource (default (PyStr []) (data !! "title"))
                               (default (PyStr []) (data !! "source"))
                               (default (PyStr []) (data !! "url")))
          else None)
       web_data.

(** The body of the endpoint's answer. *)
Record llm_answer := LLMAnswer {
  la_query : pystr;
  la_response : pystr;
  la_sources : list web_source
}.

Definition NOTHING_FOUND : pystr :=
  txt "I couldn't find any information about your query. Please try a different question or check your internet connection.".

Definition REQUEST_ERROR : pystr :=
  txt "I'm sorry, I encountered an error while processing your request. Please try again or rephrase your question.".

(** The web step of the endpoint: [(web_data, web_sources)]. *)
Definition fetch_web (w : world) (query : pystr) (is_cw : bool)
  : M (list dict * list web_source) :=
  try_catch
    (let max_results := if is_cw then 5 else 3 in
     web_data <~ call_web_search w query max_results ;;
     ret (web_data, collect_web_sources web_data))
    (ret ([], [])).

(** The database step of the endpoint, inside its [try].  The handler
    takes its connection object from [crisismap_ai.database.db_connection],
    the store operations take theirs from [database.db_connection]: two
    modules, each with a connection object of its own.  The check and the
    reconnection are made on the first and leave the second, which the
    searches read, as it is. *)
Definition fetch_database (w : world) (query : pystr) : M (list dict) :=
  try_catch
    (_ <~ (if negb (is_connected w) then lift (connect w) else ret true) ;;
     query_embedding <~ call_embedding w query ;;
     search_with_fallback w query query_embedding 5)
    (ret []).

(** The evidence steps of the endpoint:
    [((web_data, web_sources), database_results)]. *)
Definition gather (w : world) (query : pystr)
  : M ((list dict * list web_source) * list dict) :=
  let is_cw := is_california_wildfire query in
  web <~ fetch_web w query is_cw ;;
  database_results <~
    (if negb is_cw || (length web.1 <? 2) then fetch_database w query
     else ret []) ;;
  ret (web, database_results).

(** The handler of [/api/llm-response]. *)
Definition llm_response (w : world) (query : pystr) : M llm_answer :=
  try_catch
    (evidence <~ gather w query ;;
     let web_data := evidence.1.1 in
     let database_results := evidence.2 in
     response_text <~
       (if negb (is_nil web_data) || negb (is_nil database_results)
        then generate_response w query database_results web_data
        else ret NOTHING_FOUND) ;;
     ret (LLMAnswer query response_text evidence.1.2))
    (ret (LLMAnswer query REQUEST_ERROR [])).

(** The documents of a [find] with their identifiers as text. *)
Definition with_string_ids (docs : list dict) : list dict :=
  map (fun d => <["_id" := PyStr (render (default PyNone (d !! "_id")))]> d)
      docs.

(** ** Word tokens, for the statement of losslessness *)

(** The maximal runs of alphanumeric characters of a text. *)
Fixpoint tokens_go (cur : pystr) (s : pystr) : list pystr :=
  match s with
  | [] => if PyStr.is_empty cur then [] else [reverse cur]
  | c :: s' =>
      if is_alnum c then tokens_go (c :: cur) s'
      else (if PyStr.is_empty cur then [] else [reverse cur]) ++ tokens_go [] s'
  end.

(** The word tokens of a text, letter case folded. *)
Definition word_tokens (s : pystr) : list pystr :=
  tokens_go [] (PyStr.lower s).

(** ** Content strings, for the statement of evidence priority *)

(** A value that is a [str] or [None]. *)
Definition is_text (v : pyval) : Prop :=
  match v with
  | PyOid _ => False
  | _ => True
  end.

(** The fields the composer concatenates hold text. *)
Definition text_fields (d : dict) : Prop :=
  forall k v, k ∈ ["content"; "text"; "summary"] -> d !! k = Some v -> is_text v.

Definition nonempty_text (o : option pyval) : option pystr :=
  match o with
  | Some (PyStr s) => if PyStr.is_empty s then None else Some s
  | _ => None
  end.

(** The content string of a web item: its [content]. *)
Definition web_content (data : dict) : option pystr :=
  nonempty_text (data !! "content").

(** The content string of a database item: [text] if present, else
    [summary]. *)
Definition db_content (ev : dict) : option pystr :=
  match nonempty_text (ev !! "text") with
  | Some s => Some s
  | None => nonempty_text (ev !! "summary")
  end.

(** A content string as it enters the context, followed by [" \n\n"]. *)
Definition context_piece (content : pystr) : pystr := content ++ SP :: BLANK.

(** A computation only adds to the trace. *)
Definition grows {A} (m : M A) : Prop :=
  forall s, exists evs, trace (m s).2 = trace s ++ evs.

(** ** Citations, for the statements about the source extractor *)

(** A text without whitespace at either end. *)
Definition trimmed (t : pystr) : Prop :=
  (forall c, head t = Some c -> is_space c = false)
  /\ (forall c, last t = Some c -> is_space c = false).

(** The citation of one line: the remainder after the dash, split at its
    last ["("] when it ends with [")"], and otherwise the whole remainder
    with the source ["Unknown"]. *)
Definition citation_of_line (line : pystr) : citation :=
  let remainder := PyStr.strip (drop 1 line) in
  match PyStr.rsplit1 (txt "(") remainder with
  | [title_part; source_part] =>
      if PyStr.endswith (txt ")") remainder
      then Citation (PyStr.strip title_part)
                    (PyStr.strip (removelast source_part))
      else Citation remainder (txt "Unknown")
  | _ => Citation remainder (txt "Unknown")
  end.

(** The text that follows a marker, up to the next marker if there is
    one. *)
Definition first_segment (tail : pystr) : pystr :=
  match PyStr.find SOURCES_MARKER tail with
  | Some (segment, _) => segment
  | None => tail
  end.









(** ** The evidence policy of the endpoint, for its statement *)

(** What the web step keeps of the web source: its items, or nothing when
    it raises. *)
Definition web_result (w : world) (query : pystr) (k : nat) : list dict :=
  match web_search w query k with
  | Ok items => items
  | Raise => []
  end.

(** The delimiters among the parts of a split: every second part. *)
Fixpoint delimiters (parts : list pystr) : list pystr :=
  match parts with
  | _ :: tl =>
      match tl with
      | d :: rest => d :: delimiters rest
      | [] => []
      end
  | [] => []
  end.

(** ** Sample data *)

Definition web_item (title source content : string) : dict :=
  <["title" := PyStr (txt title)]>
    (<["source" := PyStr (txt source)]>
       (<["url" := PyStr (txt "https://example.org")]>
          (<["content" := PyStr (txt content)]> ∅))).

Definition db_item (id title text : string) : dict :=
  <["_id" := PyOid (txt id)]>
    (<["title" := PyStr (txt title)]>
       (<["text" := PyStr (txt text)]> ∅)).

Definition sample_web : list dict :=
  [web_item "Quake report" "Wikipedia" "w1 text";
   web_item "Relief update" "Web Search Result" "w2 text"].

Definition sample_db : list dict :=
  [db_item "65a1" "Tohoku earthquake" "d1 text";
   db_item "65a2" "Kobe earthquake" "d2 text";
   db_item "65a3" "Noto earthquake" "d3 text";
   db_item "65a4" "Kumamoto earthquake" "d4 text"].



(** A connected store whose index search finds nothing. *)
Definition sample_store : store :=
  {| connected := true;
     collection := Some sample_db;
     cursor_ok := true;
     knn := fun _ _ => Ok [] |}.

(** A connected store whose index search returns its first document. *)
Definition indexed_store : store :=
  {| connected := true;
     collection := Some sample_db;
     cursor_ok := true;
     knn := fun _ _ => Ok (take 1 sample_db) |}.

(** A world in which the web source returns the sample items, the models
    load, the summarization model returns its input, and the connection
    of the handler is up. *)
Definition sample_world : world :=
  {| web_search := fun _ k => Ok (take k sample_web);
     embedding := fun _ => Ok [1%Z; 2%Z];
     llm_loads := true;
     summarizer_loads := true;
     t5_loads := true;
     t5_generate := fun text _ _ => Ok text;
     is_connected := true;
     connect := Ok true |}.

(** A world whose web source has results for 5 but not for 3, and whose
    generator does not load. *)
Definition late_web_world : world :=
  {| web_search := fun _ k => if k =? 5 then Ok (take 1 sample_web) else Ok [];
     embedding := fun _ => Ok [1%Z; 2%Z];
     llm_loads := false;
     summarizer_loads := true;
     t5_loads := true;
     t5_generate := fun text _ _ => Ok text;
     is_connected := true;
     connect := Ok true |}.

(** A world in which the connection of the handler is down and cannot
    be made again. *)
Definition disconnected_world : world :=
  {| web_search := fun _ k => Ok (take k sample_web);
     embedding := fun _ => Ok [1%Z; 2%Z];
     llm_loads := true;
     summarizer_loads := true;
     t5_loads := true;
     t5_generate := fun text _ _ => Ok text;
     is_connected := false;
     connect := Raise |}.


(** A world without any evidence. *)
Definition silent_world : world :=
  {| web_search := fun _ _ => Ok [];
     embedding := fun _ => Ok [1%Z; 2%Z];
     llm_loads := false;
     summarizer_loads := true;
     t5_loads := true;
     t5_generate := fun text _ _ => Ok text;
     is_connected := true;
     connect := Ok true |}.

Definition initial_state (d : store) : gen_state :=
  {| model_loaded := false; summarizer_loaded := false; db := d; trace := [] |}.


(** A query that holds the marker itself. *)
Definition marker_query : pystr :=
  txt "floods **Sources:**" ++ [NL] ++ txt "- x".

(** A text with two markers. *)
Definition two_markers : pystr :=
  txt "A" ++ [NL] ++ txt "**Sources:**" ++ [NL] ++ txt "- x (y)" ++ [NL]
  ++ txt "**Sources:**" ++ [NL] ++ txt "- z (w)".

(** ** Responses, for the statement on failures *)

(** A text with at least one word. *)
Definition wordy (t : pystr) : Prop := word_tokens t <> [].

(** From any state, a value the computation returns satisfies [P]. *)
Definition returns {A} (m : M A) (P : A -> Prop) : Prop :=
  forall s a, (m s).1 = Ok a -> P a.

(** Whitespace-only texts. *)
Definition blank (w : pystr) : Prop := Forall (fun c => is_space c = true) w.

(** A matcher is sound when what it returns splits the text it read. *)
Definition sound (m : Re.matcher) : Prop :=
  forall prev s x r, m prev s = Some (x, r) -> s = x ++ r.

(** ** The web scraper: [web_scraper.py] *)

(** The class [\d] on characters below 256. *)
Definition is_digit (c : ascii) : bool := in_range 48 57 c.

(** [20\d\d] *)
Definition year_pattern : Re.matcher :=
  fun _ s =>
    match s with
    | a :: b :: c :: d :: r =>
        if bool_decide (a = "2"%char) && bool_decide (b = "0"%char)
           && is_digit c && is_digit d
        then Some ([a; b; c; d], r)
        else None
    | _ => None
    end.

(** [\[\d+\]], the pattern of [self.reference_pattern]. *)
Definition reference_pattern : Re.matcher :=
  fun _ s =>
    match s with
    | c :: s' =>
        if bool_decide (c = "["%char)
        then match Re.span is_digit s' with
             | ([], _) => None
             | (ds, c' :: r) =>
                 if bool_decide (c' = "]"%char)
                 then Some (c :: ds ++ [c'], r)
                 else None
             | (_, []) => None
             end
        else None
    | [] => None
    end.

(** [\s+], the pattern of [self.whitespace_pattern]. *)
Definition whitespace_pattern : Re.matcher :=
  fun _ s =>
    match Re.span is_space s with
    | ([], _) => None
    | (w, r) => Some (w, r)
    end.

(** [\n{3,}] *)
Definition newlines_pattern : Re.matcher :=
  fun _ s =>
    let '(w, r) := Re.span (fun c => bool_decide (c = NL)) s in
    if 3 <=? length w then Some (w, r) else None.

(** [url\?q=([^&]+)], the pattern of [self.url_pattern]; the match is the
    literal followed by group 1. *)
Definition URL_Q : pystr := txt "url?q=".

Definition url_pattern : Re.matcher :=
  fun _ s =>
    if PyStr.startswith URL_Q s
    then match Re.span (fun c => negb (bool_decide (c = "&"%char)))
                 (drop (length URL_Q) s) with
         | ([], _) => None
         | (g, r) => Some (URL_Q ++ g, r)
         end
    else None.

(** [WebScraper._clean_content] *)
Definition clean_content (text : pystr) : pystr :=
  if PyStr.is_empty text then []
  else
    let text1 := Re.sub reference_pattern [] text in
    let text2 := Re.sub whitespace_pattern [SP] text1 in
    let text3 := Re.sub newlines_pattern BLANK text2 in
    PyStr.strip text3.

(** [any(term in query for term in terms)] *)
Definition any_in (terms : list pystr) (query : pystr) : bool :=
  existsb (fun term => PyStr.contains term query) terms.

(** [re.search(r'20\d\d', query)] and [group(0)] of the match. *)
Definition find_year (query : pystr) : option pystr :=
  match Re.search year_pattern None query with
  | Some (_, year, _) => Some year
  | None => None
  end.

(** The test of the scraper for its special case, on the lower-cased
    query. *)
Definition mentions_california_fire (query_lower : pystr) : bool :=
  PyStr.contains (txt "california") query_lower
  && (PyStr.contains (txt "wildfire") query_lower
      || PyStr.contains (txt "fire") query_lower).

(** [WebScraper._prepare_search_terms] *)
Definition prepare_search_terms (query : pystr) : pystr :=
  let query := PyStr.lower query in
  if mentions_california_fire query
  then
    let year := default (txt "2020") (find_year query) in
    txt "california wildfires " ++ year ++ txt " casualties deaths statistics"
  else if any_in (map txt ["volcano"; "eruption"; "volcanic"]) query
  then query ++ txt " volcanic eruption disaster information casualties deaths"
  else if any_in (map txt ["earthquake"; "seismic"]) query
  then query ++ txt " earthquake magnitude disaster information casualties deaths"
  else if any_in (map txt ["tsunami"; "tidal wave"]) query
  then query ++ txt " tsunami disaster information casualties deaths"
  else if any_in (map txt ["hurricane"; "cyclone"; "typhoon"]) query
  then query ++ txt " hurricane cyclone disaster information casualties deaths"
  else if any_in (map txt ["flood"; "flooding"]) query
  then query ++ txt " flood disaster information casualties deaths"
  else if PyStr.contains (txt "wildfire") query
          || PyStr.contains (txt "fire") query
  then query ++ txt " wildfire disaster information casualties deaths"
  else query ++ txt " natural disaster information casualties deaths".

(** The address [_search_cal_fire] asks for:
    [f"https://www.fire.ca.gov/incidents/20{year[2:]}/"]. *)
Definition cal_fire_url (year : pystr) : pystr :=
  txt "https://www.fire.ca.gov/incidents/20" ++ drop 2 year ++ txt "/".

(** The sources of the scraper, each of which fetches and reads pages:
    [_search_cal_fire], [_search_wikipedia] and [_general_search].  In
    the source each of them catches what it raises; here they may also
    raise, which [search_disaster_info] catches. *)
Record scraper := {
  search_cal_fire : pystr -> result (option dict);
  search_wikipedia : pystr -> result (option dict);
  general_search : pystr -> Z -> result (list dict)
}.

(** Truth value of an optional dictionary: [None] and [{}] are false. *)
Definition some_items (o : option dict) : list dict :=
  match o with
  | Some d => if bool_decide (d = ∅) then [] else [d]
  | None => []
  end.

(** [WebScraper._search_specific_disaster] *)
Definition search_specific_disaster (sc : scraper) (query : pystr)
  : result (list dict) :=
  let query_lower := PyStr.lower query in
  if mentions_california_fire query_lower
  then match find_year query with
       | Some year =>
           if negb (PyStr.is_empty year)
           then cal_fire_data <- search_cal_fire sc year ;;
                Ok (some_items cal_fire_data)
           else Ok []
       | None => Ok []
       end
  else Ok [].

(** [l[:n]] for an integer [n], which counts from the end when
    negative. *)
Definition slice_to {A} (n : Z) (l : list A) : list A :=
  if (n <? 0)%Z then take (length l - Z.to_nat (- n)) l
  else take (Z.to_nat n) l.

(** The body of the [try] of [search_disaster_info]. *)
Definition search_disaster_body (sc : scraper) (query : pystr)
    (max_results : Z) : result (list dict) :=
  let search_terms := prepare_search_terms query in
  specific_results <- search_specific_disaster sc query ;;
  let results := specific_results in
  results <-
    (if (Z.of_nat (length results) <? max_results)%Z
     then wiki_data <- search_wikipedia sc search_terms ;;
          Ok (results ++ some_items wiki_data)
     else Ok results) ;;
  results <-
    (if (Z.of_nat (length results) <? max_results)%Z
     then general_results <-
            general_search sc search_terms
                           (max_results - Z.of_nat (length results)) ;;
          Ok (results ++ general_results)
     else Ok results) ;;
  Ok (slice_to max_results results).

(** [WebScraper.search_disaster_info] *)
Definition search_disaster_info (sc : scraper) (query : pystr)
    (max_results : Z) : list dict :=
  match search_disaster_body sc query max_results with
  | Ok results => results
  | Raise => []
  end.

(** The address of a Google result in [_google_search]: a redirect is
    unwrapped; [None] is the [continue] of the loop. *)
Definition google_result_url (url : pystr) : option pystr :=
  if PyStr.startswith (txt "/url?") url
  then match Re.search url_pattern None url with
       | Some (_, x, _) => Some (drop (length URL_Q) x)
       | None => None
       end
  else Some url.

(** ** The summarizer: [models/summarization.py] *)

(** [Summarizer.summarize]: the model is loaded first, then a text of
    fewer than [min_length] words is returned as it is; a value that is
    not a [str] has no [split]. *)
Definition summarize (w : world) (text : pyval) (max_length min_length : nat)
  : result pystr :=
  if negb (t5_loads w) then Raise
  else match text with
       | PyStr s =>
           if length (PyStr.words s) <? min_length then Ok s
           else t5_generate w s max_length min_length
       | _ => Raise
       end.

(** The loop of [summarize_batch]. *)
Fixpoint summarize_each (w : world) (texts : list pyval)
    (max_length min_length : nat) : result (list pystr) :=
  match texts with
  | [] => Ok []
  | text :: rest =>
      summary <-
        (match text with
         | PyStr s =>
             if length (PyStr.words s) <? min_length then Ok s
             else t5_generate w s max_length min_length
         | _ => Raise
         end) ;;
      summaries <- summarize_each w rest max_length min_length ;;
      Ok (summary :: summaries)
  end.

(** [Summarizer.summarize_batch] *)
Definition summarize_batch (w : world) (texts : list pyval)
    (max_length min_length : nat) : result (list pystr) :=
  if negb (t5_loads w) then Raise
  else summarize_each w texts max_length min_length.

(** [d[k]] under the test [k in d and d[k]]. *)
Definition truthy_value (d : dict) (k : string) : option pyval :=
  match d !! k with
  | Some v => if truthy v then Some v else None
  | None => None
  end.

(** [Summarizer.summarize_crisis_data] *)
Definition summarize_crisis_data (w : world) (crisis_data : dict)
  : result dict :=
  match truthy_value crisis_data "text" with
  | Some text =>
      summary <- summarize w text 150 40 ;;
      Ok (<["summary" := PyStr summary]> crisis_data)
  | None => Ok crisis_data
  end.

(** The first loop of [summarize_crisis_data_batch], from index [i] on:
    [(texts, valid_indices)]. *)
Fixpoint collect_texts (i : nat) (crisis_data_list : list dict)
  : list pyval * list nat :=
  match crisis_data_list with
  | [] => ([], [])
  | crisis_data :: rest =>
      let acc := collect_texts (S i) rest in
      match truthy_value crisis_data "text" with
      | Some text => (text :: acc.1, i :: acc.2)
      | None => acc
      end
  end.

(** The second loop: [crisis_data_list[summary_idx]['summary'] =
    summaries[i]]; an index out of range raises. *)
Fixpoint assign_summaries (i : nat) (valid_indices : list nat)
    (summaries : list pystr) (crisis_data_list : list dict)
  : result (list dict) :=
  match valid_indices with
  | [] => Ok crisis_data_list
  | summary_idx :: rest =>
      match crisis_data_list !! summary_idx, summaries !! i with
      | Some crisis_data, Some summary =>
          assign_summaries (S i) rest summaries
            (<[summary_idx := <["summary" := PyStr summary]> crisis_data]>
               crisis_data_list)
      | _, _ => Raise
      end
  end.

(** [Summarizer.summarize_crisis_data_batch] *)
Definition summarize_crisis_data_batch (w : world)
    (crisis_data_list : list dict) : result (list dict) :=
  let collected := collect_texts 0 crisis_data_list in
  if negb (is_nil collected.1)
  then summaries <- summarize_batch w collected.1 150 40 ;;
       assign_summaries 0 collected.2 summaries crisis_data_list
  else Ok crisis_data_list.

(** One event after the other, the first failure ending the run. *)
Fixpoint map_result {A B} (f : A -> result B) (l : list A) : result (list B) :=
  match l with
  | [] => Ok []
  | x :: rest =>
      y <- f x ;;
      ys <- map_result f rest ;;
      Ok (y :: ys)
  end.

(** ** Cleaning of loaded events: [data_ingestion/data_processor.py] *)

(** The body of the loop of [clean_crisis_data]; [None] is [continue],
    [today] is [datetime.now().strftime('%Y-%m-%d')]. *)
Definition clean_event (today : pystr) (event : dict) : option dict :=
  if negb (has_value event "title") then None
  else
    let summarized :=
      if negb (has_value event "summary")
      then match truthy_value event "text" with
           | Some text => Some (<["summary" := text]> event)
           | None => None
           end
      else Some event in
    match summarized with
    | None => None
    | Some event =>
        Some (if negb (has_value event "date")
              then <["date" := PyStr today]> event
              else event)
    end.

(** [clean_crisis_data] *)
Definition clean_crisis_data (today : pystr) (crisis_data : list dict)
  : list dict :=
  omap (clean_event today) crisis_data.

(** ** Listing of stored events: [get_all_crisis_events] *)

(** [list(self.collection.find().skip(skip).limit(limit))] *)
Definition find_skip_limit (db : store) (skip limit : nat)
  : result (list dict) :=
  match collection db with
  | Some docs =>
      if cursor_ok db
      then Ok (limit_docs limit (drop skip docs))
      else Raise
  | None => Raise
  end.

(** [CrisisEventOperations.get_all_crisis_events], for a [limit] and a
    [skip] that are not negative. *)
Definition get_all_crisis_events (db : store) (limit skip : nat) : list dict :=
  if negb (is_db_available db) then []
  else
    match (events <- find_skip_limit db skip limit ;; stringify_ids events) with
    | Ok events => events
    | Raise => []
    end.

(** ** The search endpoints: [/search] and [/search/text] *)

(** [{"results": ..., "count": ..., "query": ...}] *)
Record search_response := SearchResponse {
  sr_results : list dict;
  sr_count : nat;
  sr_query : pystr
}.

(** The handler of [/search]; raising is its [HTTPException]. *)
Definition search (w : world) (query : pystr) (limit : nat)
  : M search_response :=
  try_catch
    (query_embedding <~ call_embedding w query ;;
     results <~ call_search_by_vector query_embedding limit ;;
     ret (SearchResponse results (length results) query))
    raise.

(** The handler of [/search/text]. *)
Definition text_search (w : world) (query : pystr) (limit : nat)
  : M search_response :=
  try_catch
    (results <~ call_search_by_text w query limit ;;
     ret (SearchResponse results (length results) query))
    raise.

(** ** Words, for the statements on cleaning and truncation *)

(** A word: not empty and without whitespace. *)
Definition proper_word (word : pystr) : Prop :=
  word <> [] /\ Forall (fun c => is_space c = false) word.

(** An event whose [country] or [location] is present, true and not a
    [str]. *)
Definition odd_location (ev : dict) : Prop :=
  exists k v,
    k ∈ ["country"; "location"] /\ ev !! k = Some v
    /\ truthy v = true /\ ~ is_text v.

(** An event that [clean_crisis_data] accepts as it is. *)
Definition complete_event (event : dict) : Prop :=
  has_value event "title" = true
  /\ has_value event "summary" = true
  /\ has_value event "date" = true.

(** ** Sample data for the scraper, the cleaning and the endpoints *)

(** A scraper whose Cal Fire source has a page for every year, whose
    Wikipedia search finds one page and whose general search finds
    nothing. *)
Definition sample_scraper : scraper :=
  {| search_cal_fire := fun _ =>
       Ok (Some (web_item "California Wildfires" "Cal Fire" "c1 text"));
     search_wikipedia := fun _ =>
       Ok (Some (web_item "Quake report" "Wikipedia" "w1 text"));
     general_search := fun _ _ => Ok [] |}.

Definition fire_query : pystr := txt "California wildfire 2018 damage".

(** Scraped text with a reference number, spaces and line breaks. *)
Definition scraped_text : pystr :=
  txt "Fires[12] burned" ++ [NL; NL; NL] ++ txt "  in 2018. ".

(** Loaded events: one with a text only, one without title, one that is
    complete. *)
Definition raw_events : list dict :=
  [<["title" := PyStr (txt "Flood")]> (<["text" := PyStr (txt "Rain.")]> ∅);
   <["text" := PyStr (txt "No title.")]> ∅;
   <["title" := PyStr (txt "Quake")]>
     (<["summary" := PyStr (txt "Shaking.")]>
        (<["date" := PyStr (txt "2011-03-11")]> ∅))].

(** A stored record whose location is not text. *)
Definition located_record : dict :=
  <["title" := PyStr (txt "Etna")]> (<["location" := PyOid (txt "65c1")]> ∅).

(** A world whose embedding model fails. *)
Definition unembedded_world : world :=
  {| web_search := fun _ k => Ok (take k sample_web);
     embedding := fun _ => Raise;
     llm_loads := true;
     summarizer_loads := true;
     t5_loads := true;
     t5_generate := fun text _ _ => Ok text;
     is_connected := true;
     connect := Ok true |}.

(** * Properties *)

(** ** Characters *)

Ltac by_cases_on_char c :=
  destruct c as [[] [] [] [] [] [] [] []]; vm_compute; try reflexivity;
  try discriminate; try (intros; discriminate); auto.

Lemma space_not_alnum c : is_space c = true -> is_alnum (char_lower c) = false.
Proof. by_cases_on_char c. Qed.

Lemma space_lower c : is_space c = true -> char_lower c = c.
Proof. by_cases_on_char c. Qed.

Lemma lower_upper c : char_lower (char_upper c) = char_lower c.
Proof. by_cases_on_char c. Qed.

Lemma lower_lower c : char_lower (char_lower c) = char_lower c.
Proof. by_cases_on_char c. Qed.

Lemma upper_space c : is_space c = true -> char_upper c = c.
Proof. by_cases_on_char c. Qed.

Lemma terminator_not_space c : is_terminator c = true -> is_space c = false.
Proof. by_cases_on_char c. Qed.

Lemma space_or_nl c : is_space c || bool_decide (c = NL) = is_space c.
Proof.
  destruct (is_space c) eqn:E; [done|].
  simpl. case_bool_decide; [|done]. subst c. discriminate.
Qed.

(** ** Python string primitives *)

Lemma startswith_app p r : PyStr.startswith p (p ++ r) = true.
Proof.
  induction p as [|a p IH]; simpl; [done|].
  rewrite bool_decide_eq_true_2 by done. exact IH.
Qed.

Lemma startswith_inv p s :
  PyStr.startswith p s = true -> s = p ++ drop (length p) s.
Proof.
  revert s. induction p as [|a p IH]; intros s H; simpl in *.
  - by rewrite drop_0.
  - destruct s as [|b s]; [done|].
    apply andb_true_iff in H as [H1 H2].
    apply bool_decide_eq_true_1 in H1. subst b.
    simpl. f_equal. by apply IH.
Qed.

Lemma startswith_nil_r p : p <> [] -> PyStr.startswith p [] = false.
Proof. by destruct p. Qed.

Lemma find_sound sep s a b :
  PyStr.find sep s = Some (a, b) -> s = a ++ sep ++ b.
Proof.
  revert a b. induction s as [|c s IH]; intros a b H.
  - simpl in H. destruct (PyStr.startswith sep []) eqn:E; [|done].
    injection H as <- <-. by apply startswith_inv in E.
  - cbn [PyStr.find] in H.
    destruct (PyStr.startswith sep (c :: s)) eqn:E.
    + injection H as <- <-. by apply startswith_inv in E.
    + destruct (PyStr.find sep s) as [[a' b']|] eqn:F; [|done].
      injection H as <- <-. simpl. f_equal. by apply IH.
Qed.


Lemma join_cons sep p rest :
  rest <> [] -> PyStr.join sep (p :: rest) = p ++ sep ++ PyStr.join sep rest.
Proof. by destruct rest. Qed.

Lemma join_snoc sep (l : list pystr) x y :
  PyStr.join sep (l ++ [x]) ++ y = PyStr.join sep (l ++ [x ++ y]).
Proof.
  induction l as [|p l IH]; [done|].
  cbn [app]. rewrite !join_cons by by destruct l.
  by rewrite <- !app_assoc, IH.
Qed.

Lemma split_fuel_not_nil n sep s : PyStr.split_fuel n sep s <> [].
Proof. destruct n; simpl; [done|]. by destruct (PyStr.find sep s) as [[? ?]|]. Qed.

(** Joining the pieces of a split gives the text back. *)
Lemma join_split_fuel n sep s :
  PyStr.join sep (PyStr.split_fuel n sep s) = s.
Proof.
  revert s. induction n as [|n IH]; intros s; simpl; [done|].
  destruct (PyStr.find sep s) as [[a b]|] eqn:F; [|done].
  rewrite join_cons by apply split_fuel_not_nil.
  rewrite IH. symmetry. by apply find_sound.
Qed.

Lemma join_split sep s : PyStr.join sep (PyStr.split sep s) = s.
Proof. apply join_split_fuel. Qed.

Lemma lstrip_decomp s : exists w, blank w /\ s = w ++ PyStr.lstrip s.
Proof.
  induction s as [|c s [w [Hw IH]]]; simpl.
  - exists []. split; [constructor|done].
  - destruct (is_space c) eqn:E.
    + exists (c :: w). split; [by constructor|]. simpl. by f_equal.
    + exists []. split; [constructor|done].
Qed.

Lemma blank_reverse w : blank w -> blank (reverse w).
Proof. unfold blank. by rewrite Forall_reverse. Qed.

Lemma rstrip_decomp s : exists w, blank w /\ s = PyStr.rstrip s ++ w.
Proof.
  unfold PyStr.rstrip.
  destruct (lstrip_decomp (reverse s)) as [w [Hw E]].
  exists (reverse w). split; [by apply blank_reverse|].
  rewrite <- reverse_app, <- E. by rewrite reverse_involutive.
Qed.

Lemma strip_decomp s :
  exists w1 w2, blank w1 /\ blank w2 /\ s = w1 ++ PyStr.strip s ++ w2.
Proof.
  destruct (lstrip_decomp s) as [w1 [H1 E1]].
  destruct (rstrip_decomp (PyStr.lstrip s)) as [w2 [H2 E2]].
  exists w1, w2. repeat split; try done.
  unfold PyStr.strip. by rewrite <- E2.
Qed.

Lemma strip_nil_blank s : PyStr.strip s = [] -> blank s.
Proof.
  intros H. destruct (strip_decomp s) as (w1 & w2 & H1 & H2 & E).
  rewrite H in E. simpl in E. subst s. by apply Forall_app.
Qed.

Lemma lower_app a b : PyStr.lower (a ++ b) = PyStr.lower a ++ PyStr.lower b.
Proof. apply map_app. Qed.

Lemma lower_upper_first s : PyStr.lower (PyStr.upper_first s) = PyStr.lower s.
Proof. destruct s; simpl; [done|]. by rewrite lower_upper. Qed.

Lemma lower_idemp s : PyStr.lower (PyStr.lower s) = PyStr.lower s.
Proof. induction s; simpl; [done|]. by rewrite lower_lower, IHs. Qed.

Lemma lower_blank w : blank w -> PyStr.lower w = w.
Proof.
  induction 1 as [|c w Hc _ IH]; simpl; [done|].
  by rewrite space_lower, IH.
Qed.

(** ** Word tokens *)

Lemma tokens_go_cut cur a c b :
  is_alnum c = false ->
  tokens_go cur (a ++ c :: b) = tokens_go cur a ++ tokens_go [] b.
Proof.
  intros Hc. revert cur. induction a as [|x a IH]; intros cur; simpl.
  - by rewrite Hc.
  - destruct (is_alnum x); [apply IH|].
    rewrite IH. by rewrite app_assoc.
Qed.

Lemma tokens_sep a c b :
  is_alnum (char_lower c) = false ->
  word_tokens (a ++ c :: b) = word_tokens a ++ word_tokens b.
Proof.
  intros Hc. unfold word_tokens. rewrite lower_app. simpl.
  by apply tokens_go_cut.
Qed.

Lemma tokens_blank_l w a : blank w -> word_tokens (w ++ a) = word_tokens a.
Proof.
  induction 1 as [|c w Hc _ IH]; simpl; [done|].
  pose proof (tokens_sep [] c (w ++ a) (space_not_alnum c Hc)) as E.
  simpl in E. by rewrite E.
Qed.

Lemma tokens_blank w : blank w -> word_tokens w = [].
Proof.
  intros H. rewrite <- (app_nil_r w). by rewrite tokens_blank_l.
Qed.

Lemma tokens_blank_r w a : blank w -> word_tokens (a ++ w) = word_tokens a.
Proof.
  intros H. destruct H as [|c w Hc Hw]; [by rewrite app_nil_r|].
  rewrite tokens_sep by by apply space_not_alnum.
  rewrite (tokens_blank w) by done. by rewrite app_nil_r.
Qed.

Lemma tokens_blank_mid w a b :
  blank w -> w <> [] ->
  word_tokens (a ++ w ++ b) = word_tokens a ++ word_tokens b.
Proof.
  intros H Hne. destruct H as [|c w Hc Hw]; [done|]. simpl.
  rewrite tokens_sep by by apply space_not_alnum.
  by rewrite tokens_blank_l.
Qed.

Lemma tokens_lower a b :
  PyStr.lower a = PyStr.lower b -> word_tokens a = word_tokens b.
Proof. unfold word_tokens. by intros ->. Qed.

Lemma tokens_strip s : word_tokens (PyStr.strip s) = word_tokens s.
Proof.
  destruct (strip_decomp s) as (w1 & w2 & H1 & H2 & E).
  rewrite E at 2. by rewrite tokens_blank_l, tokens_blank_r.
Qed.

Lemma blank_BLANK : blank BLANK.
Proof. by repeat constructor. Qed.

Lemma tokens_join_blank ps :
  word_tokens (PyStr.join BLANK ps) = concat (map word_tokens ps).
Proof.
  induction ps as [|p rest IH]; [done|].
  destruct rest as [|q rest].
  - simpl. by rewrite app_nil_r.
  - rewrite join_cons by done.
    rewrite tokens_blank_mid by (apply blank_BLANK || done).
    rewrite IH. done.
Qed.

(** ** Regular expressions *)

Lemma span_spec cls s a b :
  Re.span cls s = (a, b) -> s = a ++ b /\ Forall (fun c => cls c = true) a.
Proof.
  revert a b. induction s as [|c s IH]; intros a b H; simpl in H.
  - by injection H as <- <-.
  - destruct (cls c) eqn:E.
    + destruct (Re.span cls s) as [a' b'] eqn:F.
      injection H as <- <-. destruct (IH a' b' eq_refl) as [-> Ha].
      split; [done|]. by constructor.
    + by injection H as <- <-.
Qed.

Lemma span_all cls w :
  Forall (fun c => cls c = true) w -> Re.span cls w = (w, []).
Proof.
  induction 1 as [|c w Hc _ IH]; simpl; [done|]. by rewrite Hc, IH.
Qed.

Lemma search_sound m prev s b x r :
  sound m -> Re.search m prev s = Some (b, x, r) ->
  s = b ++ x ++ r /\ exists prev', m prev' (x ++ r) = Some (x, r).
Proof.
  intros Hm. revert prev b. induction s as [|c s IH]; intros prev b H.
  - simpl in H. destruct (m prev []) as [[x' r']|] eqn:E; [|done].
    injection H as <- <- <-. pose proof (Hm _ _ _ _ E) as E'.
    split; [done|]. exists prev. by rewrite <- E'.
  - cbn [Re.search] in H.
    destruct (m prev (c :: s)) as [[x' r']|] eqn:E.
    + injection H as <- <- <-. pose proof (Hm _ _ _ _ E) as E'.
      split; [done|]. exists prev. by rewrite <- E'.
    + destruct (Re.search m (Some c) s) as [[[b' x'] r']|] eqn:F; [|done].
      injection H as <- <- <-.
      destruct (IH _ _ F) as [-> Hx]. done.
Qed.

Lemma terminator_then_inv cls prev s x r :
  Re.terminator_then cls prev s = Some (x, r) ->
  s = x ++ r /\
  exists c w, x = c :: w /\ is_terminator c = true /\ w <> []
              /\ Forall (fun c => cls c = true) w.
Proof.
  unfold Re.terminator_then. destruct s as [|c s]; [done|].
  destruct (is_terminator c) eqn:Ht; [|done].
  destruct (Re.span cls s) as [w r'] eqn:Hs.
  destruct (span_spec _ _ _ _ Hs) as [-> Hw].
  destruct w as [|d w]; [done|].
  intros [= <- <-]. split; [done|]. by exists c, (d :: w).
Qed.

Lemma terminator_then_sound cls : sound (Re.terminator_then cls).
Proof. intros prev s x r H. by apply terminator_then_inv in H as [? _]. Qed.

Lemma terminator_then_matches cls c w :
  is_terminator c = true -> w <> [] -> Forall (fun c => cls c = true) w ->
  Re.matches (Re.terminator_then cls) (c :: w) = true.
Proof.
  intros Ht Hne Hw. unfold Re.matches, Re.terminator_then.
  rewrite Ht, (span_all _ _ Hw). by destruct w.
Qed.

(** What a search for the end of a sentence finds: a delimiter that the
    loops recognise again, made of a terminator and whitespace. *)
Lemma search_sentence_end cls prev s b x r :
  (forall c, cls c = is_space c) ->
  Re.search (Re.terminator_then cls) prev s = Some (b, x, r) ->
  s = b ++ x ++ r /\ Re.matches (Re.terminator_then cls) x = true
  /\ exists c w, x = c :: w /\ is_terminator c = true /\ w <> [] /\ blank w.
Proof.
  intros Hcls H.
  destruct (search_sound _ _ _ _ _ _ (terminator_then_sound cls) H)
    as [E [prev' Hm]].
  apply terminator_then_inv in Hm as [_ (c & w & -> & Ht & Hne & Hw)].
  split; [done|]. split; [by apply terminator_then_matches|].
  exists c, w. repeat split; try done.
  eapply Forall_impl; [exact Hw|]. intros d Hd. by rewrite <- Hcls.
Qed.

(** ** The text normalizer keeps every word *)

Lemma lower_capitalize_sentence s :
  PyStr.lower (capitalize_sentence s) = PyStr.lower s.
Proof.
  unfold capitalize_sentence.
  repeat match goal with |- context [if ?b then _ else _] => destruct b end;
    by rewrite ?lower_upper_first.
Qed.

Lemma standalone_part_spec part :
  exists w, blank w /\
    PyStr.lower (concat (standalone_part part) ++ w) = PyStr.lower part.
Proof.
  unfold standalone_part.
  destruct (PyStr.strip part) as [|c t] eqn:E; simpl.
  - exists part. split; [by apply strip_nil_blank|done].
  - exists []. split; [constructor|]. rewrite !app_nil_r.
    by destruct (Re.matches _ _); rewrite ?lower_upper_first.
Qed.

Lemma format_sentences_delim part delim rest :
  Re.matches Re.sentence_end_nl delim = true ->
  format_sentences (part :: delim :: rest)
  = capitalize_sentence (part ++ delim) :: format_sentences rest.
Proof. intros H. simpl. by rewrite H. Qed.

(** The first pass changes letter case only, and may drop whitespace at
    the very end. *)
Lemma format_sentences_split n prev s :
  exists w, blank w /\
    PyStr.lower
      (concat (format_sentences (Re.split_fuel n Re.sentence_end_nl prev s)) ++ w)
    = PyStr.lower s.
Proof.
  revert prev s. induction n as [|n IH]; intros prev s.
  - apply standalone_part_spec.
  - cbn [Re.split_fuel].
    destruct (Re.search Re.sentence_end_nl prev s) as [[[b x] r]|] eqn:F.
    + apply search_sentence_end in F as (-> & Hx & _); [|apply space_or_nl].
      rewrite format_sentences_delim by done.
      destruct (IH (Re.last_char prev (b ++ x)) r) as (w & Hw & E).
      exists w. split; [done|]. cbn [concat].
      rewrite <- (app_assoc (capitalize_sentence (b ++ x))).
      rewrite lower_app, E, lower_capitalize_sentence.
      by rewrite ?lower_app, <- ?app_assoc.
    + apply standalone_part_spec.
Qed.

Lemma format_paragraph_parts_last first part :
  exists w, blank w /\
    PyStr.lower (concat (format_paragraph_parts first [part]) ++ w)
    = PyStr.lower part.
Proof.
  simpl. destruct (PyStr.strip part) as [|c t] eqn:E; simpl.
  - exists part. split; [by apply strip_nil_blank|done].
  - exists []. split; [constructor|]. rewrite !app_nil_r.
    by destruct (first && _); rewrite ?lower_upper_first.
Qed.

Lemma format_paragraph_parts_delim first part delim rest :
  Re.matches Re.sentence_end delim = true ->
  exists sentence,
    format_paragraph_parts first (part :: delim :: rest)
    = sentence :: format_paragraph_parts false rest
    /\ PyStr.lower sentence = PyStr.lower (part ++ delim).
Proof.
  intros H. cbn [format_paragraph_parts]. rewrite H.
  eexists. split; [reflexivity|].
  by destruct (first && _ && _ && _); rewrite ?lower_upper_first.
Qed.

Lemma format_paragraph_parts_split n first prev s :
  exists w, blank w /\
    PyStr.lower
      (concat (format_paragraph_parts first
                 (Re.split_fuel n Re.sentence_end prev s)) ++ w)
    = PyStr.lower s.
Proof.
  revert first prev s. induction n as [|n IH]; intros first prev s.
  - apply format_paragraph_parts_last.
  - cbn [Re.split_fuel].
    destruct (Re.search Re.sentence_end prev s) as [[[b x] r]|] eqn:F.
    + apply search_sentence_end in F as (-> & Hx & _); [|done].
      destruct (format_paragraph_parts_delim first b x
                  (Re.split_fuel n Re.sentence_end
                     (Re.last_char prev (b ++ x)) r) Hx)
        as (sentence & -> & Hs).
      destruct (IH false (Re.last_char prev (b ++ x)) r) as (w & Hw & E).
      exists w. split; [done|]. cbn [concat].
      rewrite <- (app_assoc sentence).
      rewrite lower_app, E, Hs.
      by rewrite ?lower_app, <- ?app_assoc.
    + apply format_paragraph_parts_last.
Qed.

Lemma newline_run_inv prev s x r :
  Re.newline_run prev s = Some (x, r) -> s = x ++ r /\ blank x /\ x <> [].
Proof.
  unfold Re.newline_run. destruct (Re.span is_space s) as [w r'] eqn:E.
  case_bool_decide as Hin; [|done]. intros [= <- <-].
  apply span_spec in E as [-> Hw]. repeat split; [done|].
  intros ->. by apply elem_of_nil in Hin.
Qed.

Lemma newline_run_sound : sound Re.newline_run.
Proof. intros prev s x r H. by apply newline_run_inv in H as [? _]. Qed.

Lemma tokens_sub_newline n prev s :
  word_tokens (Re.sub_fuel n Re.newline_run [SP] prev s) = word_tokens s.
Proof.
  revert prev s. induction n as [|n IH]; intros prev s; [done|].
  cbn [Re.sub_fuel].
  destruct (Re.search Re.newline_run prev s) as [[[b x] r]|] eqn:F; [|done].
  destruct (search_sound _ _ _ _ _ _ newline_run_sound F) as [-> [prev' Hm]].
  apply newline_run_inv in Hm as (_ & Hx & Hne).
  rewrite !tokens_blank_mid; try done.
  - by rewrite IH.
  - by repeat constructor.
Qed.

Lemma tokens_format_paragraph p :
  word_tokens (format_paragraph p) = word_tokens p.
Proof.
  unfold format_paragraph.
  set (clean := Re.sub Re.newline_run [SP] (PyStr.strip p)).
  assert (Hclean : word_tokens clean = word_tokens p).
  { unfold clean, Re.sub. by rewrite tokens_sub_newline, tokens_strip. }
  destruct (format_paragraph_parts_split (length clean) true None clean)
    as (w & Hw & E).
  fold (Re.split Re.sentence_end clean) in E.
  set (clean' := concat _) in *.
  transitivity (word_tokens clean').
  - apply tokens_lower.
    by destruct (negb _ && _); rewrite ?lower_upper_first.
  - rewrite <- Hclean, <- (tokens_blank_r w clean') by done.
    by apply tokens_lower.
Qed.

Lemma tokens_format_paragraphs ps :
  concat (map word_tokens (format_paragraphs ps)) = concat (map word_tokens ps).
Proof.
  unfold format_paragraphs. induction ps as [|p ps IH]; [done|].
  destruct (decide (PyStr.strip p <> [])) as [Hp|Hp].
  - rewrite filter_cons_True by done.
    cbn [map concat]. by rewrite tokens_format_paragraph, IH.
  - rewrite filter_cons_False by done.
    cbn [map concat]. rewrite IH.
    rewrite (tokens_blank p); [done|].
    apply strip_nil_blank. destruct (PyStr.strip p); [done|].
    exfalso. by apply Hp.
Qed.

Lemma lower_capitalize s : PyStr.lower (capitalize s) = PyStr.lower s.
Proof.
  destruct s as [|c r]; [done|]. simpl.
  by rewrite lower_upper, lower_idemp.
Qed.

(** A substitution whose replacement is its match in another letter case
    changes letter case only. *)
Lemma lower_sub_fuel n m repl prev s :
  (forall prev s x r,
     m prev s = Some (x, r) -> s = x ++ r /\ PyStr.lower x = PyStr.lower repl) ->
  PyStr.lower (Re.sub_fuel n m repl prev s) = PyStr.lower s.
Proof.
  intros Hm. assert (Hs : sound m) by (intros ? ? ? ? H; by apply Hm in H as [? _]).
  revert prev s. induction n as [|n IH]; intros prev s; [done|].
  cbn [Re.sub_fuel].
  destruct (Re.search m prev s) as [[[b x] r]|] eqn:F; [|done].
  destruct (search_sound _ _ _ _ _ _ Hs F) as [-> [prev' Hx]].
  apply Hm in Hx as [_ Hx].
  by rewrite !lower_app, IH, Hx.
Qed.

Lemma whole_word_inv word prev s x r :
  Re.whole_word word prev s = Some (x, r) -> s = x ++ r /\ x = word.
Proof.
  unfold Re.whole_word.
  destruct (Re.not_letter prev); [|done]. simpl.
  destruct (PyStr.startswith word s) eqn:E; [|done]. simpl.
  destruct (Re.not_letter _); [|done].
  intros [= <- <-]. split; [by apply startswith_inv|done].
Qed.

Lemma possessive_inv word prev s x r :
  Re.possessive word prev s = Some (x, r) ->
  s = x ++ r /\ x = word ++ [SQUOTE; "s"%char].
Proof.
  unfold Re.possessive.
  destruct (Re.not_letter prev); [|done]. simpl.
  destruct (PyStr.startswith _ s) eqn:E; [|done].
  intros [= <- <-]. split; [by apply startswith_inv|done].
Qed.

Lemma lower_fix_proper_nouns s :
  PyStr.lower (fix_proper_nouns s) = PyStr.lower s.
Proof.
  unfold fix_proper_nouns.
  assert (H1 : forall nouns t,
    PyStr.lower (fold_left
      (fun acc noun => Re.sub (Re.whole_word noun) (capitalize noun) acc)
      nouns t) = PyStr.lower t).
  { induction nouns as [|noun nouns IH]; intros t; [done|].
    cbn [fold_left]. rewrite IH. apply lower_sub_fuel.
    intros prev u x r H. apply whole_word_inv in H as [-> ->].
    split; [done|]. by rewrite lower_capitalize. }
  assert (H2 : forall nouns t,
    PyStr.lower (fold_left
      (fun acc noun => Re.sub (Re.possessive noun)
                         (capitalize noun ++ [SQUOTE; "s"%char]) acc)
      nouns t) = PyStr.lower t).
  { induction nouns as [|noun nouns IH]; intros t; [done|].
    cbn [fold_left]. rewrite IH. apply lower_sub_fuel.
    intros prev u x r H. apply possessive_inv in H as [-> ->].
    split; [done|]. by rewrite !lower_app, lower_capitalize. }
  by rewrite H2, H1.
Qed.

Lemma tokens_format_body p : word_tokens (format_body p) = word_tokens p.
Proof.
  unfold format_body.
  rewrite (tokens_lower _ _ (lower_fix_proper_nouns _)).
  rewrite tokens_join_blank, tokens_format_paragraphs, <- tokens_join_blank.
  rewrite join_split.
  destruct (format_sentences_split (length p) None p) as (w & Hw & E).
  rewrite <- (tokens_blank_r w) by done. by apply tokens_lower.
Qed.

Lemma split_header_spec text header content :
  split_header text = (header, content) ->
  text = header ++ content
  /\ (header = [] \/ exists h, header = h ++ [NL]).
Proof.
  unfold split_header.
  destruct (PyStr.startswith _ text && PyStr.contains BLANK text).
  - unfold PyStr.split1.
    destruct (PyStr.find BLANK text) as [[a b]|] eqn:F.
    + intros [= <- <-]. apply find_sound in F.
      split; [by rewrite <- app_assoc|].
      right. exists (a ++ [NL]). by rewrite <- app_assoc.
    + intros [= <- <-]. split; [done|by left].
  - intros [= <- <-]. split; [done|by left].
Qed.

Lemma split_sources_spec content processed sources_section :
  split_sources content = (processed, sources_section) ->
  content = processed ++ sources_section
  /\ (sources_section = [] \/ exists t, sources_section = NL :: t).
Proof.
  unfold split_sources.
  destruct (PyStr.contains SOURCES_HEADER content).
  - unfold PyStr.split1.
    destruct (PyStr.find SOURCES_HEADER content) as [[a b]|] eqn:F.
    + intros [= <- <-]. apply find_sound in F.
      split; [done|]. right. by eexists.
    + intros [= <- <-]. split; [by rewrite app_nil_r|by left].
  - intros [= <- <-]. split; [by rewrite app_nil_r|by left].
Qed.

(** Tokens of a text between a header that ends a line and a citation
    block that starts one. *)
Lemma tokens_framed header body section :
  (header = [] \/ exists h, header = h ++ [NL]) ->
  (section = [] \/ exists t, section = NL :: t) ->
  word_tokens (header ++ body ++ section)
  = word_tokens header ++ word_tokens body ++ word_tokens section.
Proof.
  assert (Hnl : is_alnum (char_lower NL) = false) by done.
  intros Hh Hs.
  assert (E : word_tokens (body ++ section)
              = word_tokens body ++ word_tokens section).
  { destruct Hs as [->|[t ->]].
    - by rewrite !app_nil_r.
    - rewrite tokens_sep by done.
      pose proof (tokens_sep [] NL t Hnl) as E. simpl in E. by rewrite E. }
  destruct Hh as [->|[h ->]]; [done|].
  rewrite <- app_assoc. cbn [app].
  rewrite !tokens_sep by done. rewrite E.
  change (word_tokens []) with (@nil pystr). by rewrite app_nil_r.
Qed.

Lemma tokens_format_response_text text :
  word_tokens (format_response_text text) = word_tokens text.
Proof.
  unfold format_response_text.
  destruct (PyStr.is_empty text); [done|].
  destruct (split_header text) as [header content] eqn:Eh.
  destruct (split_sources content) as [processed section] eqn:Es.
  apply split_header_spec in Eh as [-> Hh].
  apply split_sources_spec in Es as [-> Hs].
  rewrite !tokens_framed by done.
  by rewrite tokens_format_body.
Qed.

(** C2. For every input text, the word tokens (maximal alphanumeric runs,
    letter case folded) of the normalized text are exactly those of the
    input, in the same order and with the same multiplicities: the
    normalizer changes whitespace and letter case only. *)
Theorem format_response_text_lossless text :
  word_tokens (format_response_text text) = word_tokens text
  /\ word_tokens (format_response_text text) ≡ₚ word_tokens text.
Proof.
  pose proof (tokens_format_response_text text) as H.
  split; [done|]. by rewrite H.
Qed.

(** ** The document store *)

Lemma stringify_ids_length docs docs' :
  stringify_ids docs = Ok docs' -> length docs' = length docs.
Proof.
  revert docs'. induction docs as [|d docs IH]; intros docs' H; simpl in H.
  - by injection H as <-.
  - destruct (stringify_id d) as [d'|]; [|done]. simpl in H.
    destruct (stringify_ids docs) as [rest|]; [|done]. simpl in H.
    injection H as <-. simpl. f_equal. by apply IH.
Qed.

Lemma stringify_ids_ok docs :
  Forall (fun d : dict => is_Some (d !! "_id")) docs ->
  stringify_ids docs = Ok (with_string_ids docs).
Proof.
  induction 1 as [|d docs [v Hv] _ IH]; [done|].
  simpl. unfold stringify_id. rewrite Hv. simpl. by rewrite IH.
Qed.

Lemma limit_docs_nil limit docs : limit_docs limit docs = [] -> docs = [].
Proof.
  unfold limit_docs. destruct limit as [|n]; simpl; [done|].
  by destruct docs.
Qed.

Lemma limit_docs_sublist limit docs :
  Forall (fun d : dict => is_Some (d !! "_id")) docs ->
  Forall (fun d : dict => is_Some (d !! "_id")) (limit_docs limit docs).
Proof.
  unfold limit_docs. destruct (limit =? 0); [done|]. apply Forall_take.
Qed.

(** With no match or a failure of the index search, the inner [try] is
    the plain [find]. *)
Lemma vector_or_find_fallback db v limit :
  knn db v limit = Ok [] \/ knn db v limit = Raise ->
  vector_or_find db v limit = find_limit db limit.
Proof.
  unfold vector_or_find. intros [-> | ->]; simpl; [|done].
  by destruct (find_limit db limit).
Qed.

Lemma vector_or_find_nil db v limit :
  vector_or_find db v limit = Ok [] -> find_limit db limit = Ok [].
Proof.
  unfold vector_or_find.
  destruct (knn db v limit) as [results|]; simpl; [|done].
  case_bool_decide as E.
  - by destruct (find_limit db limit).
  - intros [= ->]. done.
Qed.

(** An empty answer of [search_by_vector] has one of three causes. *)
Lemma search_by_vector_nil db v limit :
  search_by_vector db v limit = [] ->
  is_db_available db = false \/ collection db = Some []
  \/ vector_search_body db v limit = Raise.
Proof.
  unfold search_by_vector.
  destruct (is_db_available db); [|by left]. simpl.
  destruct (vector_search_body db v limit) as [results|] eqn:B;
    [|by right; right].
  intros ->. right; left. unfold vector_search_body in B.
  destruct (vector_or_find db (resize_vector v) limit) as [found|] eqn:F;
    [|done].
  simpl in B. apply stringify_ids_length in B.
  destruct found; [|done].
  apply vector_or_find_nil in F. unfold find_limit in F.
  destruct (collection db) as [docs|]; [|done].
  destruct (cursor_ok db); [|done].
  injection F as F. apply limit_docs_nil in F. by subst.
Qed.

Lemma search_with_fallback_trace w query v limit s :
  trace (search_with_fallback w query v limit s).2
  = trace s ++ [CallVectorSearch v limit]
    ++ (if is_nil (search_by_vector (db s) v limit)
        then [CallTextSearch query limit] else []).
Proof.
  unfold search_with_fallback, call_search_by_vector, call_search_by_text,
    bind, emit, get_state, ret. simpl.
  destruct (search_by_vector (db s) v limit); simpl.
  - by rewrite <- app_assoc.
  - done.
Qed.

(** C9. For every query and limit for which the embedding of the query is
    produced, [search_by_text] returns exactly what [search_by_vector]
    returns on that embedding: the text search is the semantic search, as
    the specification describes it. *)
Theorem search_by_text_is_vector_search embed db query limit v :
  embed query = Ok v ->
  search_by_text embed db query limit = search_by_vector db v limit
  /\ text_search_spec embed db query limit
     = Ok (search_by_text embed db query limit).
Proof.
  intros H. unfold search_by_text, text_search_spec. rewrite H. simpl.
  unfold search_by_vector. by destruct (is_db_available db).
Qed.

(** C10. When the index search matches nothing or raises on an available
    store, [search_by_vector] returns the documents of a plain [find] with
    the limit (the first [limit] of the collection in natural order, their
    identifiers as text), which are not empty unless the collection is;
    and an empty answer means that the store is unavailable, the
    collection is empty, or the body of the operation raised, so that a
    caller's text search runs in these cases only. *)
Theorem search_by_vector_fallback st v limit :
  is_db_available st = true ->
  knn st (resize_vector v) limit = Ok []
  \/ knn st (resize_vector v) limit = Raise ->
  (forall docs,
     collection st = Some docs -> cursor_ok st = true ->
     Forall (fun d : dict => is_Some (d !! "_id")) docs ->
     search_by_vector st v limit = with_string_ids (limit_docs limit docs)
     /\ (0 < limit ->
         search_by_vector st v limit = with_string_ids (take limit docs))
     /\ (docs <> [] -> search_by_vector st v limit <> []))
  /\ (search_by_vector st v limit = [] ->
      collection st = Some [] \/ vector_search_body st v limit = Raise)
  /\ (forall w query s,
        db s = st ->
        CallTextSearch query limit ∉ trace s ->
        CallTextSearch query limit
          ∈ trace (search_with_fallback w query v limit s).2 ->
        collection st = Some [] \/ vector_search_body st v limit = Raise).
Proof.
  intros Hav Hknn.
  assert (Hnil : search_by_vector st v limit = [] ->
                 collection st = Some [] \/ vector_search_body st v limit = Raise).
  { intros H. apply search_by_vector_nil in H as [H|H]; [congruence|done]. }
  split; [|split; [done|]].
  - intros docs Hc Hok Hid.
    assert (E : search_by_vector st v limit
                = with_string_ids (limit_docs limit docs)).
    { unfold search_by_vector, vector_search_body. rewrite Hav. simpl.
      rewrite vector_or_find_fallback by done.
      unfold find_limit. rewrite Hc, Hok. simpl.
      by rewrite stringify_ids_ok by by apply limit_docs_sublist. }
    split; [done|]. split.
    + intros Hl. rewrite E. unfold limit_docs.
      destruct limit; [lia|done].
    + intros Hne. rewrite E. unfold with_string_ids, limit_docs.
      destruct docs as [|d docs]; [done|].
      destruct limit; done.
  - intros w query s Hdb Hnot Hin. apply Hnil.
    rewrite search_with_fallback_trace, Hdb in Hin.
    destruct (search_by_vector st v limit); [done|].
    simpl in Hin. apply elem_of_app in Hin as [Hin|Hin]; [done|].
    apply list_elem_of_singleton in Hin. done.
Qed.

(** ** Traces *)

Create HintDb grows discriminated.

Lemma grows_ret {A} (a : A) : grows (ret a).
Proof. intros s. exists []. simpl. by rewrite app_nil_r. Qed.

Lemma grows_raise {A} : grows (@raise A).
Proof. intros s. exists []. simpl. by rewrite app_nil_r. Qed.

Lemma grows_lift {A} (r : result A) : grows (lift r).
Proof. intros s. exists []. simpl. by rewrite app_nil_r. Qed.

Lemma grows_get_state : grows get_state.
Proof. intros s. exists []. simpl. by rewrite app_nil_r. Qed.

Lemma grows_emit e : grows (emit e).
Proof. intros s. by exists [e]. Qed.

Lemma grows_set_model_loaded : grows set_model_loaded.
Proof. intros s. exists []. simpl. by rewrite app_nil_r. Qed.

Lemma grows_set_summarizer_loaded : grows set_summarizer_loaded.
Proof. intros s. exists []. simpl. by rewrite app_nil_r. Qed.

Lemma grows_bind {A B} (m : M A) (f : A -> M B) :
  grows m -> (forall a, grows (f a)) -> grows (bind m f).
Proof.
  intros Hm Hf s. unfold bind. destruct (Hm s) as [evs E].
  destruct (m s) as [[a|] s']; simpl in *.
  - destruct (Hf a s') as [evs' E']. exists (evs ++ evs').
    by rewrite E', E, app_assoc.
  - by exists evs.
Qed.

Lemma grows_try_catch {A} (m h : M A) :
  grows m -> grows h -> grows (try_catch m h).
Proof.
  intros Hm Hh s. unfold try_catch. destruct (Hm s) as [evs E].
  destruct (m s) as [[a|] s']; simpl in *.
  - by exists evs.
  - destruct (Hh s') as [evs' E']. exists (evs ++ evs').
    by rewrite E', E, app_assoc.
Qed.

Lemma grows_if {A} (b : bool) (m1 m2 : M A) :
  grows m1 -> grows m2 -> grows (if b then m1 else m2).
Proof. by destruct b. Qed.

Lemma grows_match_option {A B} (o : option A) (f : A -> M B) (m : M B) :
  (forall a, grows (f a)) -> grows m ->
  grows (match o with Some a => f a | None => m end).
Proof. by destruct o. Qed.

#[export] Hint Resolve grows_ret grows_raise grows_lift grows_get_state
  grows_emit grows_set_model_loaded grows_set_summarizer_loaded
  grows_bind grows_try_catch grows_if grows_match_option : grows.

Ltac solve_grows :=
  repeat first
    [ progress intros
    | apply grows_bind | apply grows_try_catch | apply grows_if
    | apply grows_match_option
    | apply grows_ret | apply grows_raise | apply grows_lift
    | apply grows_get_state | apply grows_emit | apply grows_set_model_loaded
    | apply grows_set_summarizer_loaded ].

Lemma grows_call_summarize w text max_length min_length :
  grows (call_summarize w text max_length min_length).
Proof. unfold call_summarize. solve_grows. Qed.

Lemma grows_web_fallback w user_query all_content sources :
  grows (web_fallback w user_query all_content sources).
Proof.
  unfold web_fallback. solve_grows.
Qed.

(** A [try] whose handler returns a value does not raise. *)
Lemma try_catch_total {A} (m : M A) (a : A) s :
  exists r s', try_catch m (ret a) s = (Ok r, s').
Proof.
  unfold try_catch, ret. destruct (m s) as [[r|] s']; by eexists _, _.
Qed.

Lemma grows_elem_of {A} (m : M A) s e :
  grows m -> e ∈ trace s -> e ∈ trace (m s).2.
Proof. intros Hm He. destruct (Hm s) as [evs ->]. set_solver. Qed.

(** ** Evidence priority *)

Lemma nonempty_text_value d k :
  (forall v, d !! k = Some v -> is_text v) ->
  (if has_value d k then piece <- str_plus d k (SP :: BLANK) ;; Ok (Some piece)
   else Ok None)
  = Ok (context_piece <$> nonempty_text (d !! k)).
Proof.
  intros H. unfold has_value, str_plus, nonempty_text.
  destruct (d !! k) as [v|] eqn:E; [|done].
  destruct v as [|s|hex]; simpl; [done| |by destruct (H _ eq_refl)].
  by destruct s.
Qed.

Lemma add_web_item_spec acc data :
  text_fields data ->
  exists sources,
    add_web_item acc data
    = Ok (acc.1 ++ default [] (context_piece <$> web_content data), sources).
Proof.
  intros H. unfold add_web_item, web_content.
  assert (Hc : forall v, data !! "content" = Some v -> is_text v).
  { intros v. apply H. set_solver. }
  pose proof (nonempty_text_value data "content" Hc) as E.
  destruct (has_value data "content").
  - destruct (str_plus data "content" (SP :: BLANK)) as [piece|]; [|done].
    simpl in *. injection E as <-. by eexists.
  - injection E as <-. simpl. rewrite app_nil_r. by eexists.
Qed.

Lemma add_db_item_spec acc ev :
  text_fields ev ->
  exists sources,
    add_db_item acc ev
    = Ok (acc.1 ++ default [] (context_piece <$> db_content ev), sources).
Proof.
  intros H. unfold add_db_item, db_content.
  assert (Ht : forall v, ev !! "text" = Some v -> is_text v).
  { intros v. apply H. set_solver. }
  assert (Hs : forall v, ev !! "summary" = Some v -> is_text v).
  { intros v. apply H. set_solver. }
  pose proof (nonempty_text_value ev "text" Ht) as E1.
  pose proof (nonempty_text_value ev "summary" Hs) as E2.
  destruct (has_value ev "text").
  - destruct (str_plus ev "text" (SP :: BLANK)) as [piece|]; [|done].
    simpl in *. injection E1 as E1.
    destruct (nonempty_text (ev !! "text")) as [t|]; [|done].
    injection E1 as ->. by eexists.
  - injection E1 as E1. destruct (nonempty_text (ev !! "text")); [done|].
    destruct (has_value ev "summary").
    + destruct (str_plus ev "summary" (SP :: BLANK)) as [piece|]; [|done].
      simpl in *. injection E2 as <-. by eexists.
    + injection E2 as <-. simpl. rewrite app_nil_r. by eexists.
Qed.

Lemma for_each_content {A}
    (body : pystr * list pystr -> A -> result (pystr * list pystr))
    (content : A -> option pystr) (ok : A -> Prop) items acc :
  (forall acc x, ok x ->
     exists sources,
       body acc x
       = Ok (acc.1 ++ default [] (context_piece <$> content x), sources)) ->
  Forall ok items ->
  exists sources,
    for_each body items acc
    = Ok (acc.1 ++ concat (map context_piece (omap content items)), sources).
Proof.
  intros Hbody Hok. revert acc.
  induction Hok as [|x items Hx _ IH]; intros acc.
  - simpl. rewrite app_nil_r. exists acc.2. by destruct acc.
  - cbn [for_each]. destruct (Hbody acc x Hx) as [sources ->]. simpl.
    destruct (IH (acc.1 ++ default [] (context_piece <$> content x), sources))
      as [sources' ->].
    exists sources'. simpl.
    destruct (content x); simpl; [|by rewrite app_nil_r].
    by rewrite <- app_assoc.
Qed.

Lemma gather_evidence_take web_data context_data :
  gather_evidence web_data context_data
  = gather_evidence web_data (take 3 context_data).
Proof.
  unfold gather_evidence. rewrite take_take.
  destruct context_data; done.
Qed.

(** With the model loaded, the web-based response asks the model with the
    prompt built on the gathered context. *)
Lemma web_response_prompt w user_query web_data context_data s ev :
  gather_evidence web_data context_data = Ok ev ->
  model_loaded s = true ->
  CallGenerate (web_prompt user_query ev.1)
  ∈ trace (generate_web_based_response w user_query web_data context_data s).2.
Proof.
  intros E Hm.
  unfold generate_web_based_response, try_catch, bind, get_state, lift,
    load_summarizer, load_model, call_generate, emit, set_summarizer_loaded,
    set_model_loaded, ret, bind.
  rewrite E.
  destruct (summarizer_loaded s); destruct (summarizer_loads w); simpl;
    repeat (rewrite Hm; simpl);
    match goal with |- context [web_fallback ?w ?q ?c ?l ?st] =>
      destruct (grows_web_fallback w q c l st) as [evs Hev];
      destruct (web_fallback w q c l st) as [[?|] ?]; simpl in *;
      rewrite Hev; set_solver
    end.
Qed.

(** C3. For web items and database items whose content fields hold text,
    the context of the web-based response is the content strings of all
    web items in their order, followed by those of the first three
    database items in their order ([text] if present, else [summary]),
    each followed by a blank line; items after the third database item
    have no influence; and this context is what the generation prompt
    carries. *)
Theorem evidence_priority web_data context_data :
  Forall text_fields web_data -> Forall text_fields context_data ->
  exists sources,
    gather_evidence web_data context_data
    = Ok (concat (map context_piece
                    (omap web_content web_data
                     ++ omap db_content (take 3 context_data))),
          sources)
    /\ gather_evidence web_data context_data
       = gather_evidence web_data (take 3 context_data)
    /\ forall w user_query s,
         model_loaded s = true ->
         CallGenerate
           (web_prompt user_query
              (concat (map context_piece
                         (omap web_content web_data
                          ++ omap db_content (take 3 context_data)))))
         ∈ trace (generate_web_based_response w user_query
                    web_data context_data s).2.
Proof.
  intros Hweb Hctx.
  assert (E : exists sources,
    gather_evidence web_data context_data
    = Ok (concat (map context_piece
                    (omap web_content web_data
                     ++ omap db_content (take 3 context_data))),
          sources)).
  { unfold gather_evidence.
    destruct (for_each_content add_web_item web_content text_fields
                web_data ([], []) add_web_item_spec Hweb) as [src1 ->].
    simpl. rewrite map_app, concat_app.
    destruct context_data as [|ev rest]; simpl.
    { rewrite app_nil_r. by eexists. }
    destruct (for_each_content add_db_item db_content text_fields
                (take 3 (ev :: rest))
                (concat (map context_piece (omap web_content web_data)), src1)
                add_db_item_spec (Forall_take _ _ _ Hctx)) as [src2 E2].
    simpl in E2. rewrite E2. by eexists. }
  destruct E as [sources E]. exists sources.
  split; [done|]. split; [apply gather_evidence_take|].
  intros w user_query s Hm.
  by apply (web_response_prompt w user_query web_data context_data s _ E).
Qed.

(** ** Searching for a separator *)

Lemma startswith_cut sep a c b :
  c ∉ sep -> PyStr.startswith sep (a ++ c :: b) = PyStr.startswith sep a.
Proof.
  revert a. induction sep as [|x sep IH]; intros a Hc; [by destruct a|].
  apply not_elem_of_cons in Hc as [Hx Hc].
  destruct a as [|y a]; simpl.
  - by rewrite bool_decide_eq_false_2 by done.
  - by rewrite IH.
Qed.

Lemma find_nil_r sep : sep <> [] -> PyStr.find sep [] = None.
Proof. by destruct sep. Qed.

(** A character that is not in the separator cuts the search in two. *)
Lemma find_cut sep a c b :
  sep <> [] -> c ∉ sep -> PyStr.find sep a = None ->
  PyStr.find sep (a ++ c :: b)
  = match PyStr.find sep b with
    | Some (x, y) => Some (a ++ c :: x, y)
    | None => None
    end.
Proof.
  intros Hne Hc. induction a as [|x a IH]; intros Ha.
  - cbn [app PyStr.find].
    pose proof (startswith_cut sep [] c b Hc) as E. simpl in E. rewrite E.
    rewrite startswith_nil_r by done.
    by destruct (PyStr.find sep b) as [[? ?]|].
  - cbn [PyStr.find] in Ha.
    destruct (PyStr.startswith sep (x :: a)) eqn:E; [done|].
    destruct (PyStr.find sep a) as [[? ?]|] eqn:F; [done|].
    change ((x :: a) ++ c :: b) with (x :: (a ++ c :: b)).
    cbn [PyStr.find].
    change (x :: (a ++ c :: b)) with ((x :: a) ++ c :: b).
    rewrite startswith_cut, E by done.
    rewrite IH by done.
    by destruct (PyStr.find sep b) as [[? ?]|].
Qed.


Lemma contains_cut sep a c b :
  sep <> [] -> c ∉ sep ->
  PyStr.contains sep (a ++ c :: b)
  = PyStr.contains sep a || PyStr.contains sep b.
Proof.
  intros Hne Hc. unfold PyStr.contains.
  induction a as [|x a IH].
  - rewrite find_cut by (done || by apply find_nil_r).
    rewrite find_nil_r by done.
    by destruct (PyStr.find sep b) as [[? ?]|].
  - change ((x :: a) ++ c :: b) with (x :: (a ++ c :: b)).
    cbn [PyStr.find].
    change (x :: (a ++ c :: b)) with ((x :: a) ++ c :: b).
    rewrite startswith_cut by done.
    destruct (PyStr.startswith sep (x :: a)); [done|].
    destruct (PyStr.find sep (a ++ c :: b)) as [[? ?]|];
      destruct (PyStr.find sep a) as [[? ?]|]; done.
Qed.

Lemma find_here sep b :
  PyStr.find sep (sep ++ b) = Some ([], b).
Proof.
  destruct (sep ++ b) eqn:E; cbn [PyStr.find]; rewrite <- E;
    rewrite startswith_app; by rewrite drop_app_length.
Qed.

Lemma contains_app sub a b : PyStr.contains sub (a ++ sub ++ b) = true.
Proof.
  unfold PyStr.contains. induction a as [|x a IH].
  - simpl. by rewrite find_here.
  - change ((x :: a) ++ sub ++ b) with (x :: (a ++ sub ++ b)).
    cbn [PyStr.find].
    destruct (PyStr.startswith sub (x :: a ++ sub ++ b)); [done|].
    by destruct (PyStr.find sub (a ++ sub ++ b)) as [[? ?]|].
Qed.

(** A one-character separator is found at its first occurrence. *)
Lemma find_char c a b :
  c ∉ a -> PyStr.find [c] (a ++ c :: b) = Some (a, b).
Proof.
  induction a as [|x a IH]; intros Hc.
  - simpl. by rewrite bool_decide_eq_true_2, drop_0 by done.
  - apply not_elem_of_cons in Hc as [Hx Hc].
    change ((x :: a) ++ c :: b) with (x :: (a ++ c :: b)).
    cbn [PyStr.find PyStr.startswith].
    rewrite bool_decide_eq_false_2 by done. simpl.
    by rewrite IH.
Qed.

Lemma find_char_none c s : c ∉ s -> PyStr.find [c] s = None.
Proof.
  induction s as [|x s IH]; intros Hc; [done|].
  apply not_elem_of_cons in Hc as [Hx Hc].
  cbn [PyStr.find PyStr.startswith].
  rewrite bool_decide_eq_false_2 by done. simpl. by rewrite IH.
Qed.

Lemma find_char_some c s :
  c ∈ s -> exists a b, PyStr.find [c] s = Some (a, b).
Proof.
  intros Hc. apply list_elem_of_split in Hc as (a & b & ->).
  induction a as [|x a IH].
  - exists [], b. simpl. by rewrite bool_decide_eq_true_2, drop_0 by done.
  - change ((x :: a) ++ c :: b) with (x :: (a ++ c :: b)).
    cbn [PyStr.find PyStr.startswith].
    destruct (bool_decide (c = x)); simpl; [by eexists _, _|].
    destruct IH as (a' & b' & ->). by eexists _, _.
Qed.

Lemma contains_char c s : PyStr.contains [c] s = true <-> c ∈ s.
Proof.
  unfold PyStr.contains. split.
  - intros H. destruct (decide (c ∈ s)) as [|Hn]; [done|].
    by rewrite find_char_none in H.
  - intros H. by destruct (find_char_some c s H) as (a & b & ->).
Qed.

(** [rsplit] on a one-character separator that occurs gives two parts. *)
Lemma rsplit1_char_two c s :
  c ∈ s -> exists a b, PyStr.rsplit1 [c] s = [a; b].
Proof.
  intros Hc. unfold PyStr.rsplit1.
  change (reverse [c]) with [c].
  destruct (find_char_some c (reverse s)) as (a & b & ->).
  - by apply elem_of_reverse.
  - by eexists _, _.
Qed.

(** The cut is at the last occurrence. *)
Lemma rsplit1_char_last c a b :
  c ∉ b -> PyStr.rsplit1 [c] (a ++ c :: b) = [a; b].
Proof.
  intros Hc. unfold PyStr.rsplit1.
  change (reverse [c]) with [c].
  rewrite reverse_app, reverse_cons, <- app_assoc. simpl.
  rewrite find_char by by rewrite elem_of_reverse.
  by rewrite !reverse_involutive.
Qed.

(** Enough fuel for one cut. *)
Lemma split_once sep s a b :
  s <> [] -> PyStr.find sep s = Some (a, b) -> PyStr.find sep b = None ->
  PyStr.split sep s = [a; b].
Proof.
  intros Hs Ha Hb. unfold PyStr.split.
  destruct s as [|c s]; [done|]. cbn [length PyStr.split_fuel].
  rewrite Ha. f_equal.
  destruct (length s); simpl; [done|]. by rewrite Hb.
Qed.




(** ** Trimming *)

Lemma lstrip_id t :
  (forall c, head t = Some c -> is_space c = false) -> PyStr.lstrip t = t.
Proof. destruct t as [|c t]; [done|]. intros H. simpl. by rewrite (H c). Qed.

Lemma lstrip_blank_app w t : blank w -> PyStr.lstrip (w ++ t) = PyStr.lstrip t.
Proof. induction 1 as [|c w Hc _ IH]; simpl; [done|]. by rewrite Hc. Qed.

Lemma lstrip_blank w : blank w -> PyStr.lstrip w = [].
Proof. intros H. rewrite <- (app_nil_r w). by rewrite lstrip_blank_app. Qed.

Lemma rstrip_id t :
  (forall c, last t = Some c -> is_space c = false) -> PyStr.rstrip t = t.
Proof.
  intros H. unfold PyStr.rstrip. rewrite lstrip_id.
  - apply reverse_involutive.
  - intros c. rewrite head_reverse. apply H.
Qed.

Lemma rstrip_blank_app w t : blank w -> PyStr.rstrip (t ++ w) = PyStr.rstrip t.
Proof.
  intros H. unfold PyStr.rstrip.
  by rewrite reverse_app, lstrip_blank_app by by apply blank_reverse.
Qed.

Lemma head_app_ne {A} (a b : list A) : a <> [] -> head (a ++ b) = head a.
Proof. by destruct a. Qed.

(** Whitespace around a trimmed text is what [strip] removes. *)
Lemma strip_around w1 t w2 :
  trimmed t -> blank w1 -> blank w2 -> PyStr.strip (w1 ++ t ++ w2) = t.
Proof.
  intros [Hh Hl] H1 H2. unfold PyStr.strip.
  rewrite lstrip_blank_app by done.
  destruct t as [|c t].
  - simpl. rewrite lstrip_blank by done. done.
  - rewrite lstrip_id.
    + rewrite rstrip_blank_app by done. by apply rstrip_id.
    + intros d. simpl. apply Hh.
Qed.

Lemma strip_trimmed t : trimmed t -> PyStr.strip t = t.
Proof.
  intros H. pose proof (strip_around [] t [] H) as E.
  simpl in E. rewrite app_nil_r in E. apply E; constructor.
Qed.




Lemma trimmed_app a b :
  a <> [] -> b <> [] -> trimmed a -> trimmed b -> trimmed (a ++ b).
Proof.
  intros Ha Hb [Hah _] [_ Hbl]. split; intros c.
  - rewrite head_app_ne by done. apply Hah.
  - rewrite last_app. destruct (last b) eqn:E; [apply Hbl|].
    by apply last_None in E.
Qed.

Lemma trimmed_app_l a b :
  a <> [] -> trimmed a -> (forall c, last (a ++ b) = Some c -> is_space c = false) ->
  trimmed (a ++ b).
Proof.
  intros Ha [Hah _] Hl. split; [|done].
  intros c. rewrite head_app_ne by done. apply Hah.
Qed.



Lemma endswith_snoc c s : PyStr.endswith [c] (s ++ [c]) = true.
Proof.
  unfold PyStr.endswith. rewrite reverse_app. simpl.
  by rewrite bool_decide_eq_true_2.
Qed.

(** ** The source extractor *)

Lemma parse_source_line_spec sources line :
  parse_source_line sources line
  = Ok (if PyStr.startswith (txt "-") line
        then sources ++ [citation_of_line line] else sources).
Proof.
  unfold parse_source_line, citation_of_line.
  destruct (PyStr.startswith (txt "-") line); [|done].
  set (remainder := PyStr.strip (drop 1 line)).
  destruct (PyStr.contains (txt "(") remainder) eqn:Hc; simpl.
  - apply contains_char in Hc.
    destruct (rsplit1_char_two _ _ Hc) as (a & b & E).
    change (txt "(") with ["("%char]. rewrite E.
    change (txt ")") with [")"%char].
    by destruct (PyStr.endswith _ remainder).
  - assert (Hn : "("%char ∉ remainder).
    { intros Hin. apply contains_char in Hin.
      change (txt "(") with ["("%char] in Hc. congruence. }
    unfold PyStr.rsplit1. change (txt "(") with ["("%char].
    change (reverse ["("%char]) with ["("%char].
    rewrite find_char_none; [done|]. by rewrite elem_of_reverse.
Qed.

Lemma parse_source_lines_spec lines sources :
  for_each parse_source_line lines sources
  = Ok (sources
        ++ map citation_of_line
             (filter (fun l => PyStr.startswith (txt "-") l = true) lines)).
Proof.
  revert sources. induction lines as [|l lines IH]; intros sources.
  - simpl. by rewrite app_nil_r.
  - cbn [for_each]. rewrite parse_source_line_spec. cbn [result_bind].
    rewrite IH.
    destruct (PyStr.startswith (txt "-") l) eqn:E.
    + rewrite filter_cons_True by done. cbn [map]. by rewrite <- app_assoc.
    + rewrite filter_cons_False by (by rewrite E). done.
Qed.

(** A remainder that is a title, an opening parenthesis, a source without
    one, and a closing parenthesis is read as that title and source. *)
Lemma citation_of_line_parenthesized line title source :
  PyStr.strip (drop 1 line) = title ++ txt "(" ++ source ++ txt ")" ->
  "("%char ∉ source ->
  citation_of_line line = Citation (PyStr.strip title) (PyStr.strip source).
Proof.
  intros E Hs. unfold citation_of_line. rewrite E.
  change (txt "(" ++ source ++ txt ")") with ("("%char :: (source ++ [")"%char])).
  change (txt "(") with ["("%char].
  rewrite rsplit1_char_last.
  - change (txt ")") with [")"%char].
    change (title ++ "("%char :: source ++ [")"%char])
      with (title ++ ("("%char :: source) ++ [")"%char]).
    rewrite app_assoc, endswith_snoc.
    by rewrite removelast_last.
  - rewrite not_elem_of_app. split; [done|].
    intros Hin%list_elem_of_singleton. discriminate.
Qed.

(** A remainder that does not end with a closing parenthesis, or has no
    opening one, is the title of a citation of unknown source. *)
Lemma citation_of_line_unknown line :
  PyStr.contains (txt "(") (PyStr.strip (drop 1 line))
  && PyStr.endswith (txt ")") (PyStr.strip (drop 1 line)) = false ->
  citation_of_line line
  = Citation (PyStr.strip (drop 1 line)) (txt "Unknown").
Proof.
  intros H. unfold citation_of_line.
  set (remainder := PyStr.strip (drop 1 line)) in *.
  destruct (PyStr.rsplit1 (txt "(") remainder) as [|a [|b [|? ?]]] eqn:E; try done.
  destruct (PyStr.endswith (txt ")") remainder); [|done].
  rewrite andb_true_r in H.
  unfold PyStr.rsplit1 in E. change (txt "(") with ["("%char] in *.
  change (reverse ["("%char]) with ["("%char] in E.
  rewrite find_char_none in E; [done|].
  rewrite elem_of_reverse. intros Hin. apply contains_char in Hin. congruence.
Qed.

(** The extraction as a whole. *)
Lemma extract_sources_spec response :
  (PyStr.contains SOURCES_MARKER response = false ->
   extract_sources response = Ok (CrisisResponse response None))
  /\ (PyStr.contains SOURCES_MARKER response = true ->
      exists before tail,
        PyStr.find SOURCES_MARKER response = Some (before, tail)
        /\ response = before ++ SOURCES_MARKER ++ tail
        /\ extract_sources response
           = Ok (CrisisResponse (PyStr.strip before)
                   (Some (map citation_of_line
                            (filter (fun l => PyStr.startswith (txt "-") l = true)
                               (PyStr.split [NL]
                                  (PyStr.strip (first_segment tail)))))))).
Proof.
  unfold extract_sources. split; intros H; rewrite H; [done|].
  unfold PyStr.contains in H.
  destruct (PyStr.find SOURCES_MARKER response) as [[before tail]|] eqn:F;
    [|done].
  exists before, tail. split; [done|].
  pose proof (find_sound _ _ _ _ F) as E. split; [done|].
  unfold PyStr.split.
  assert (Hlen : 2 <= length response).
  { rewrite E, !length_app. simpl. lia. }
  destruct (length response) as [|[|n]]; [lia|lia|].
  cbn [PyStr.split_fuel]. rewrite F.
  cbn [head default]. unfold first_segment.
  destruct (PyStr.find SOURCES_MARKER tail) as [[a b]|];
    by rewrite parse_source_lines_spec.
Qed.

(** C8 (as amended). Without the marker the extractor returns the whole
    text and no source list at all ([None], not an empty list).  With the
    marker it returns the trimmed text before the first marker and, for
    the text between that marker and the next one (or the end), trimmed
    and cut into lines, exactly one citation per line that starts with a
    dash, in order and without raising: a remainder made of a title, an
    opening parenthesis, a source and a closing parenthesis gives that
    title and source, and a remainder that is not of this form gives the
    whole remainder with the source ["Unknown"]. *)
Theorem source_extractor_contract response :
  (PyStr.contains SOURCES_MARKER response = false ->
   extract_sources response = Ok (CrisisResponse response None))
  /\ (PyStr.contains SOURCES_MARKER response = true ->
      exists before tail,
        PyStr.find SOURCES_MARKER response = Some (before, tail)
        /\ response = before ++ SOURCES_MARKER ++ tail
        /\ extract_sources response
           = Ok (CrisisResponse (PyStr.strip before)
                   (Some (map citation_of_line
                            (filter (fun l => PyStr.startswith (txt "-") l = true)
                               (PyStr.split [NL]
                                  (PyStr.strip (first_segment tail))))))))
  /\ (forall line title source,
        PyStr.strip (drop 1 line) = title ++ txt "(" ++ source ++ txt ")" ->
        "("%char ∉ source ->
        citation_of_line line
        = Citation (PyStr.strip title) (PyStr.strip source))
  /\ (forall line,
        PyStr.contains (txt "(") (PyStr.strip (drop 1 line))
        && PyStr.endswith (txt ")") (PyStr.strip (drop 1 line)) = false ->
        citation_of_line line
        = Citation (PyStr.strip (drop 1 line)) (txt "Unknown")).
Proof.
  destruct (extract_sources_spec response) as [H1 H2].
  split; [done|]. split; [done|]. split.
  - apply citation_of_line_parenthesized.
  - apply citation_of_line_unknown.
Qed.

(** ** The citation round trip *)





Ltac not_in_literal :=
  let H := fresh in
  intros H; vm_compute in H;
  repeat (apply elem_of_cons in H as [H|H]; [discriminate H|]);
  by apply elem_of_nil in H.

Lemma marker_not_nil : SOURCES_MARKER <> [].
Proof. done. Qed.

Lemma marker_chars c :
  c ∈ [NL; SP; "-"%char; "("%char; ")"%char; SQUOTE] -> c ∉ SOURCES_MARKER.
Proof.
  intros H.
  repeat (apply elem_of_cons in H as [->|H]; [not_in_literal|]).
  by apply elem_of_nil in H.
Qed.

Lemma contains_marker_cut a c b :
  c ∈ [NL; SP; "-"%char; "("%char; ")"%char; SQUOTE] ->
  PyStr.contains SOURCES_MARKER (a ++ c :: b)
  = PyStr.contains SOURCES_MARKER a || PyStr.contains SOURCES_MARKER b.
Proof.
  intros H. apply contains_cut; [apply marker_not_nil|by apply marker_chars].
Qed.














(** ** The normalizer neither makes nor removes a marker *)



























(** ** The citation block through the normalizer *)










(** ** The citation round trip *)






(** With evidence in hand, [generate_response] composes: the canned
    answer is not reached. *)
Lemma generate_response_composes w user_query context_data web_data s :
  context_data <> [] \/ web_data <> [] ->
  generate_response w user_query context_data web_data s
  = (if is_nil web_data
     then response <~ generate_db_based_response w user_query context_data ;;
          ret (format_response_text response)
     else response <~ generate_web_based_response w user_query web_data
                        context_data ;;
          ret (format_response_text response)) s.
Proof.
  intros H. unfold generate_response.
  destruct web_data as [|d web_data]; destruct context_data as [|e context_data];
    try done; by destruct H.
Qed.



(** ** The empty-evidence terminal state *)

Lemma no_information_marker user_query :
  PyStr.contains SOURCES_MARKER (no_information user_query)
  = PyStr.contains SOURCES_MARKER user_query.
Proof.
  unfold no_information.
  change (txt "I couldn't find any information about '")
    with (txt "I couldn't find any information about " ++ [SQUOTE]).
  change (txt "'. Please try a different query or check your internet connection.")
    with (SQUOTE :: txt ". Please try a different query or check your internet connection.").
  rewrite <- !app_assoc. cbn [app].
  rewrite contains_marker_cut by set_solver.
  rewrite contains_marker_cut by set_solver.
  replace (PyStr.contains SOURCES_MARKER
             (txt "I couldn't find any information about ")) with false
    by by vm_compute.
  replace (PyStr.contains SOURCES_MARKER
             (txt ". Please try a different query or check your internet connection."))
    with false by by vm_compute.
  by rewrite orb_false_r.
Qed.

(** C5 (as amended). When both evidence lists are empty, the composer
    first asks the web source once more (for 5 results); if that yields
    nothing or raises, it returns the canned answer, which is not empty
    and contains the query text, after that one call only: no generation
    and no summarization.  For a query that does not itself contain the
    marker, the canned answer has no marker and the extractor finds no
    citation in it.  With any evidence in hand the composer goes on to a
    web-based or database-based response, so the canned answer is
    returned in this state only. *)
Theorem empty_evidence_terminal w user_query s :
  web_search w user_query 5 = Ok [] \/ web_search w user_query 5 = Raise ->
  (generate_response w user_query [] [] s).1 = Ok (no_information user_query)
  /\ trace (generate_response w user_query [] [] s).2
     = trace s ++ [CallWebSearch user_query 5]
  /\ no_information user_query <> []
  /\ PyStr.contains user_query (no_information user_query) = true
  /\ (PyStr.contains SOURCES_MARKER user_query = false ->
      PyStr.contains SOURCES_MARKER (no_information user_query) = false
      /\ extract_sources (no_information user_query)
         = Ok (CrisisResponse (no_information user_query) None))
  /\ (forall context_data web_data s',
        context_data <> [] \/ web_data <> [] ->
        generate_response w user_query context_data web_data s'
        = (if is_nil web_data
           then response <~ generate_db_based_response w user_query
                              context_data ;;
                ret (format_response_text response)
           else response <~ generate_web_based_response w user_query
                              web_data context_data ;;
                ret (format_response_text response)) s').
Proof.
  intros Hweb.
  split; [|split; [|split; [|split; [|split]]]].
  - unfold generate_response, call_web_search, try_catch, bind, emit, lift.
    simpl. by destruct Hweb as [-> | ->].
  - unfold generate_response, call_web_search, try_catch, bind, emit, lift.
    simpl. by destruct Hweb as [-> | ->].
  - done.
  - apply contains_app.
  - intros Hq.
    assert (Hm : PyStr.contains SOURCES_MARKER (no_information user_query)
                 = false) by by rewrite no_information_marker.
    split; [done|]. by apply extract_sources_spec.
  - intros. by apply generate_response_composes.
Qed.

(** ** The evidence policy of the endpoint *)

Lemma fetch_web_spec w query is_cw s :
  fetch_web w query is_cw s
  = (Ok (web_result w query (if is_cw then 5 else 3),
         collect_web_sources (web_result w query (if is_cw then 5 else 3))),
     {| model_loaded := model_loaded s;
        summarizer_loaded := summarizer_loaded s;
        db := db s;
        trace := trace s ++ [CallWebSearch query (if is_cw then 5 else 3)] |}).
Proof.
  unfold fetch_web, try_catch, call_web_search, bind, emit, lift, ret,
    web_result.
  by destruct (web_search w query (if is_cw then 5 else 3)).
Qed.

(** C4 (as amended). The web source is asked first, for 5 results when
    the query contains "california" and "wildfire" or "fire" (letter case
    ignored) and for 3 otherwise, and what it returns, or nothing when it
    raises, is the web evidence.  The database lookup is skipped exactly
    when the query matches and the web source gave at least 2 items.  In
    every other case the handler checks its own connection and
    reconnects it when it is down, then has the query embedded and makes
    a vector search for 5 results, followed by the text search exactly
    when the vector search returned nothing.  When the reconnection
    raises, nothing more is called, and when the embedding raises, no
    search is made: the database evidence is then empty. *)
Theorem aggregator_policy w query s :
  let cw := is_california_wildfire query in
  let k := if cw then 5 else 3 in
  let web_data := web_result w query k in
  let skip := cw && (2 <=? length web_data) in
  let reached := is_connected w = true \/ exists r, connect w = Ok r in
  (cw = true <->
   PyStr.contains (txt "california") (PyStr.lower query) = true
   /\ (PyStr.contains (txt "wildfire") (PyStr.lower query) = true
       \/ PyStr.contains (txt "fire") (PyStr.lower query) = true))
  /\ exists calls database_results,
       trace (gather w query s).2 = trace s ++ CallWebSearch query k :: calls
       /\ (gather w query s).1
          = Ok ((web_data, collect_web_sources web_data), database_results)
       /\ (skip = true -> calls = [] /\ database_results = [])
       /\ (skip = false -> is_connected w = false -> connect w = Raise ->
           calls = [] /\ database_results = [])
       /\ (skip = false -> reached -> embedding w query = Raise ->
           calls = [CallEmbedding query] /\ database_results = [])
       /\ (forall v,
             skip = false -> reached -> embedding w query = Ok v ->
             let found := search_by_vector (db s) v 5 in
             calls = CallEmbedding query :: CallVectorSearch v 5
                     :: (if is_nil found then [CallTextSearch query 5] else [])
             /\ database_results
                = if is_nil found
                  then search_by_text (embedding w) (db s) query 5
                  else found).
Proof.
  cbv zeta.
  split.
  { unfold is_california_wildfire.
    rewrite andb_true_iff, orb_true_iff. done. }
  unfold gather, bind. rewrite fetch_web_spec. cbn [fst snd].
  set (cw := is_california_wildfire query).
  set (web_data := web_result w query (if cw then 5 else 3)).
  assert (Hskip : negb cw || (length web_data <? 2)
                  = negb (cw && (2 <=? length web_data))).
  { generalize cw (length web_data). intros b n.
    rewrite Nat.ltb_antisym. by destruct b. }
  rewrite Hskip.
  destruct (cw && (2 <=? length web_data)); cbn [negb].
  { exists [], []. unfold ret. cbn [fst snd trace].
    repeat split; intros; congruence. }
  unfold fetch_database, try_catch, call_embedding, search_with_fallback,
    call_search_by_vector, call_search_by_text, bind, emit, lift, ret,
    get_state.
  assert (Hcut : is_connected w = false -> connect w = Raise ->
                 ~ (is_connected w = true \/ exists r, connect w = Ok r)).
  { intros H1 H2 [H|[r H]]; congruence. }
  destruct (is_connected w) eqn:Hic; cbn [negb fst snd];
    [|destruct (connect w) as [r|] eqn:Hco; cbn [fst snd]].
  3: { exists [], []. cbn [fst snd trace].
       repeat split; intros; try congruence; by destruct (Hcut eq_refl eq_refl). }
  all: cbn [fst snd trace model_loaded summarizer_loaded db];
    destruct (embedding w query) as [v|] eqn:He;
    cbn [fst snd trace model_loaded summarizer_loaded db].
  all: try (exists [CallEmbedding query], []; cbn [fst snd trace];
            split; [by rewrite <- app_assoc|];
            repeat split; intros; congruence).
  all: destruct (search_by_vector (db s) v 5) as [|d found] eqn:Hf;
    cbn [is_nil fst snd trace model_loaded summarizer_loaded db];
    eexists _, _;
    (split; [rewrite <- !app_assoc; cbn [app]; reflexivity|]);
    (split; [reflexivity|]);
    (split; [intros; congruence|]);
    (split; [intros; congruence|]);
    (split; [intros; congruence|]);
    intros v' _ _ [= <-]; rewrite Hf; done.
Qed.

(** ** Sentence boundaries *)

(** The pattern does not match at a terminator that is followed by a
    character other than whitespace. *)
Lemma sentence_end_needs_space prev t c rest :
  is_space c = false -> Re.sentence_end_nl prev (t :: c :: rest) = None.
Proof.
  intros Hc. unfold Re.sentence_end_nl, Re.terminator_then.
  destruct (is_terminator t); [|done]. cbn [Re.span].
  by rewrite space_or_nl, Hc.
Qed.

Lemma delimiters_split_fuel n prev s :
  Forall (fun d => exists c w, d = c :: w /\ is_terminator c = true
                               /\ w <> [] /\ blank w)
         (delimiters (Re.split_fuel n Re.sentence_end_nl prev s)).
Proof.
  revert prev s. induction n as [|n IH]; intros prev s; [constructor|].
  cbn [Re.split_fuel].
  destruct (Re.search Re.sentence_end_nl prev s) as [[[b x] r]|] eqn:F;
    [|constructor].
  apply search_sentence_end in F as (_ & _ & Hx); [|apply space_or_nl].
  cbn [delimiters]. constructor; [done|apply IH].
Qed.

(** ** The normalizer never lengthens a text *)

Lemma length_lower s : length (PyStr.lower s) = length s.
Proof. apply length_map. Qed.

Lemma lower_eq_length a b : PyStr.lower a = PyStr.lower b -> length a = length b.
Proof. intros H. by rewrite <- (length_lower a), H, length_lower. Qed.

Lemma length_strip s : length (PyStr.strip s) <= length s.
Proof.
  destruct (strip_decomp s) as (w1 & w2 & _ & _ & E).
  rewrite E at 2. rewrite !length_app. lia.
Qed.

Lemma length_sub_newline n prev s :
  length (Re.sub_fuel n Re.newline_run [SP] prev s) <= length s.
Proof.
  revert prev s. induction n as [|n IH]; intros prev s; [done|].
  cbn [Re.sub_fuel].
  destruct (Re.search Re.newline_run prev s) as [[[b x] r]|] eqn:F; [|done].
  destruct (search_sound _ _ _ _ _ _ newline_run_sound F) as [-> [prev' Hm]].
  apply newline_run_inv in Hm as (_ & _ & Hne).
  rewrite !length_app. specialize (IH (Re.last_char prev (b ++ x)) r).
  destruct x; [done|]. simpl. lia.
Qed.

Lemma length_format_paragraph p : length (format_paragraph p) <= length p.
Proof.
  unfold format_paragraph.
  set (clean := Re.sub Re.newline_run [SP] (PyStr.strip p)).
  assert (Hclean : length clean <= length p).
  { unfold clean, Re.sub. etrans; [apply length_sub_newline|apply length_strip]. }
  destruct (format_paragraph_parts_split (length clean) true None clean)
    as (w & Hw & E).
  fold (Re.split Re.sentence_end clean) in E.
  set (clean' := concat _) in *.
  apply lower_eq_length in E. rewrite length_app in E.
  destruct (negb _ && _);
    [rewrite (lower_eq_length _ _ (lower_upper_first clean'))|]; lia.
Qed.

Lemma length_join_cons sep (p : pystr) rest :
  length (PyStr.join sep (p :: rest))
  <= length p + length sep + length (PyStr.join sep rest)
  /\ length (PyStr.join sep rest) <= length (PyStr.join sep (p :: rest)).
Proof.
  destruct rest as [|q rest]; [simpl; lia|].
  rewrite join_cons by done. rewrite !length_app. lia.
Qed.

Lemma length_format_paragraphs ps :
  length (PyStr.join BLANK (format_paragraphs ps))
  <= length (PyStr.join BLANK ps).
Proof.
  unfold format_paragraphs. induction ps as [|p ps IH]; [done|].
  destruct (decide (PyStr.strip p <> [])) as [Hp|Hp].
  - rewrite filter_cons_True by done. cbn [map].
    pose proof (length_format_paragraph p) as Hfp.
    destruct (filter _ ps) as [|q qs] eqn:Ef.
    + cbn [map]. change (PyStr.join BLANK [format_paragraph p])
        with (format_paragraph p).
      destruct ps as [|p' ps]; [simpl; lia|].
      rewrite join_cons by done. rewrite !length_app. lia.
    + rewrite join_cons by done.
      destruct ps as [|p' ps]; [done|].
      rewrite (join_cons _ p) by done. rewrite !length_app. lia.
  - rewrite filter_cons_False by done.
    destruct (length_join_cons BLANK p ps) as [_ H]. lia.
Qed.

Lemma length_format_body p : length (format_body p) <= length p.
Proof.
  unfold format_body.
  rewrite (lower_eq_length _ _ (lower_fix_proper_nouns _)).
  etrans; [apply length_format_paragraphs|].
  rewrite join_split.
  destruct (format_sentences_split (length p) None p) as (w & Hw & E).
  apply lower_eq_length in E. rewrite length_app in E.
  unfold Re.split. lia.
Qed.

Lemma length_format_response_text text :
  length (format_response_text text) <= length text.
Proof.
  unfold format_response_text.
  destruct (PyStr.is_empty text); [done|].
  destruct (split_header text) as [header content] eqn:Eh.
  destruct (split_sources content) as [processed section] eqn:Es.
  apply split_header_spec in Eh as [-> _].
  apply split_sources_spec in Es as [-> _].
  rewrite !length_app. pose proof (length_format_body processed). lia.
Qed.

(** C6 (as amended). The normalizer recognises the end of a sentence only
    at a terminator followed by at least one whitespace character: the
    pattern does not match at a terminator followed by any other
    character (a capital letter, say), every delimiter of the sentence
    split is a terminator and a non-empty run of whitespace, and no
    character is ever inserted, the normalized text being never longer
    than the input.  In particular "Strikes continue.Officials say..." is
    returned as it is, without a space after the period. *)
Theorem sentence_boundary_needs_whitespace :
  (forall prev t c rest,
     is_space c = false -> Re.sentence_end_nl prev (t :: c :: rest) = None)
  /\ (forall text,
        Forall (fun d => exists c w, d = c :: w /\ is_terminator c = true
                                     /\ w <> [] /\ blank w)
               (delimiters (Re.split Re.sentence_end_nl text)))
  /\ (forall text, length (format_response_text text) <= length text)
  /\ Re.split Re.sentence_end_nl (txt "Strikes continue.Officials say...")
     = [txt "Strikes continue.Officials say..."]
  /\ format_response_text (txt "Strikes continue.Officials say...")
     = txt "Strikes continue.Officials say...".
Proof.
  split; [apply sentence_end_needs_space|].
  split; [intros text; apply delimiters_split_fuel|].
  split; [apply length_format_response_text|].
  split; by vm_compute.
Qed.

(** ** What the responses are made of *)

Lemma returns_ret {A} (a : A) (P : A -> Prop) : P a -> returns (ret a) P.
Proof. intros H s ? [= <-]. exact H. Qed.

Lemma returns_raise {A} (P : A -> Prop) : returns raise P.
Proof. by intros s a. Qed.

Lemma returns_bind {A B} (m : M A) (f : A -> M B) (P : B -> Prop) :
  (forall a, returns (f a) P) -> returns (bind m f) P.
Proof.
  intros Hf s b. unfold bind.
  destruct (m s) as [[a|] s']; [apply Hf|done].
Qed.

Lemma returns_try_catch {A} (m h : M A) (P : A -> Prop) :
  returns m P -> returns h P -> returns (try_catch m h) P.
Proof.
  intros Hm Hh s a. unfold try_catch. specialize (Hm s).
  destruct (m s) as [[r|] s']; [|apply Hh].
  cbn [fst] in *. intros [= <-]. by apply Hm.
Qed.

Lemma returns_if {A} (b : bool) (m1 m2 : M A) (P : A -> Prop) :
  returns m1 P -> returns m2 P -> returns (if b then m1 else m2) P.
Proof. by destruct b. Qed.

(** The generation step gives no text. *)
Lemma generation_gives_nothing {A} (b : bool) prompt (f : pystr -> A) :
  returns
    (if b
     then try_catch
            (response_text <~ call_generate prompt ;;
             ret (Some (f response_text)))
            (ret None)
     else ret None)
    (fun generated => generated = None).
Proof.
  destruct b; [|by apply returns_ret].
  intros s generated. unfold try_catch, bind, call_generate, bind, emit, raise.
  cbn [fst snd]. by intros [= <-].
Qed.

Lemma returns_after {A B} (m : M A) (f : A -> M B) (Q : A -> Prop)
    (P : B -> Prop) :
  returns m Q -> (forall a, Q a -> returns (f a) P) -> returns (bind m f) P.
Proof.
  intros Hm Hf s b. unfold bind. specialize (Hm s).
  destruct (m s) as [[a|] s']; [|done].
  apply Hf. by apply Hm.
Qed.

Lemma wordy_cut a c b :
  wordy a -> is_space c = true -> wordy (a ++ c :: b).
Proof.
  unfold wordy. intros Ha Hc. rewrite tokens_sep by by apply space_not_alnum.
  by destruct (word_tokens a).
Qed.

Lemma wordy_prefix a c b rest :
  wordy a -> is_space c = true -> wordy ((a ++ c :: b) ++ rest).
Proof.
  intros Ha Hc. rewrite <- app_assoc. cbn [app]. by apply wordy_cut.
Qed.

Lemma wordy_information_header user_query rest :
  wordy (information_header user_query ++ rest).
Proof.
  unfold information_header. rewrite <- !app_assoc.
  apply (wordy_prefix (txt "**Information") SP (txt "about ")); by vm_compute.
Qed.

Lemma wordy_append_sources text sources :
  wordy text -> wordy (append_sources text sources).
Proof.
  unfold append_sources. case_bool_decide; [done|].
  unfold wordy, SOURCES_HEADER, BLANK. intros Ht. cbn [app].
  rewrite tokens_sep by done. by destruct (word_tokens text).
Qed.

Lemma wordy_technical_issue user_query : wordy (technical_issue user_query).
Proof.
  unfold technical_issue.
  apply (wordy_prefix (txt "I") SP
           (txt "encountered a technical issue while processing information about '"));
    by vm_compute.
Qed.

Lemma wordy_simple_response user_query context_data :
  wordy (simple_response user_query context_data).
Proof.
  unfold simple_response.
  apply (wordy_prefix (txt "I") SP (txt "found the following information about '"));
    by vm_compute.
Qed.

Lemma wordy_no_information user_query : wordy (no_information user_query).
Proof.
  unfold no_information.
  apply (wordy_prefix (txt "I") SP (txt "couldn't find any information about '"));
    by vm_compute.
Qed.

Lemma wordy_no_information_short user_query :
  wordy (no_information_short user_query).
Proof.
  unfold no_information_short.
  apply (wordy_prefix (txt "I") SP (txt "couldn't find any information about '"));
    by vm_compute.
Qed.

Lemma wordy_search_error user_query : wordy (search_error user_query).
Proof.
  unfold search_error.
  apply (wordy_prefix (txt "I") SP
           (txt "encountered an error while searching for information about '"));
    by vm_compute.
Qed.

Lemma wordy_not_nil t : wordy t -> t <> [].
Proof. by intros H ->. Qed.

Lemma wordy_format t : wordy t -> wordy (format_response_text t).
Proof. unfold wordy. by rewrite tokens_format_response_text. Qed.

Lemma returns_web_fallback w user_query all_content sources :
  returns (web_fallback w user_query all_content sources) wordy.
Proof.
  unfold web_fallback. apply returns_try_catch.
  - apply returns_if.
    + apply returns_bind. intros summary.
      apply returns_ret, wordy_append_sources, wordy_information_header.
    + apply returns_ret, wordy_information_header.
  - apply returns_ret, wordy_information_header.
Qed.

Lemma returns_web_based w user_query web_data context_data :
  returns (generate_web_based_response w user_query web_data context_data)
          wordy.
Proof.
  unfold generate_web_based_response. apply returns_try_catch;
    [|apply returns_ret, wordy_technical_issue].
  apply returns_bind. intros s0. apply returns_bind. intros _.
  apply returns_bind. intros ev. apply returns_bind. intros s1.
  apply returns_bind. intros _. apply returns_bind. intros s2.
  eapply returns_after; [apply generation_gives_nothing|].
  intros generated ->. apply returns_web_fallback.
Qed.

Lemma returns_db_based w user_query context_data :
  returns (generate_db_based_response w user_query context_data) wordy.
Proof.
  unfold generate_db_based_response. apply returns_try_catch;
    [|apply returns_ret, wordy_simple_response].
  apply returns_bind. intros formatted_context.
  apply returns_bind. intros s1. apply returns_bind. intros _.
  apply returns_bind. intros s2.
  eapply returns_after; [apply generation_gives_nothing|].
  intros generated ->.
  apply returns_bind. intros all_text.
  eapply (returns_after _ _ (fun o => forall t, o = Some t -> wordy t)).
  { apply returns_if; [|by apply returns_ret].
    apply returns_bind. intros s3. apply returns_bind. intros _.
    apply returns_bind. intros s4.
    apply returns_if; [|by apply returns_ret].
    apply returns_bind. intros summary.
    apply returns_ret. intros t [= <-]. apply wordy_information_header. }
  intros [response|] Hr.
  - apply returns_ret. by apply Hr.
  - apply returns_bind. intros events.
    apply returns_ret, wordy_information_header.
Qed.

Lemma returns_generate_response w user_query context_data web_data :
  returns (generate_response w user_query context_data web_data) wordy.
Proof.
  unfold generate_response. apply returns_bind. intros opening.
  apply returns_if; [apply returns_ret, wordy_no_information|].
  apply returns_if.
  { eapply returns_after; [apply returns_web_based|].
    intros response Hr. by apply returns_ret, wordy_format. }
  apply returns_if.
  { eapply returns_after; [apply returns_db_based|].
    intros response Hr. by apply returns_ret, wordy_format. }
  apply returns_ret, wordy_no_information_short.
Qed.

Lemma returns_find_and_respond w user_query max_results :
  returns (find_and_respond w user_query max_results) wordy.
Proof.
  unfold find_and_respond. apply returns_try_catch;
    [|apply returns_ret, wordy_search_error].
  apply returns_bind. intros web_data. apply returns_bind. intros v.
  apply returns_bind. intros results. apply returns_generate_response.
Qed.

Lemma returns_llm_response w query :
  returns (llm_response w query)
          (fun answer => la_query answer = query /\ wordy (la_response answer)).
Proof.
  unfold llm_response. apply returns_try_catch;
    [|apply returns_ret; split; [done|by vm_compute]].
  apply returns_bind. intros evidence.
  eapply returns_after.
  { apply returns_if; [apply returns_generate_response|].
    apply (returns_ret _ wordy). by vm_compute. }
  intros response_text Hr. by apply returns_ret.
Qed.

(** ** No exception reaches the caller *)

(** C7. Whatever the collaborators do, [find_and_respond] and the
    handler of the llm-response endpoint return and never raise: the
    first gives a response text that is not empty, the second an answer
    made of the query, a response text that is not empty and a source
    list. *)
Theorem no_exception_propagation w query max_results s :
  (exists response s',
     find_and_respond w query max_results s = (Ok response, s')
     /\ response <> [])
  /\ (exists answer s',
        llm_response w query s = (Ok answer, s')
        /\ la_query answer = query
        /\ la_response answer <> []).
Proof.
  split.
  - destruct (try_catch_total
                (web_data <~ try_catch (call_web_search w query 3) (ret []) ;;
                 query_embedding <~ call_embedding w query ;;
                 results <~ search_with_fallback w query query_embedding
                              max_results ;;
                 generate_response w query results web_data)
                (search_error query) s) as (r & s' & E).
    exists r, s'. split; [exact E|].
    apply wordy_not_nil.
    apply (returns_find_and_respond w query max_results s).
    unfold find_and_respond. by rewrite E.
  - destruct (try_catch_total
                (evidence <~ gather w query ;;
                 response_text <~
                   (if negb (is_nil evidence.1.1) || negb (is_nil evidence.2)
                    then generate_response w query evidence.2 evidence.1.1
                    else ret NOTHING_FOUND) ;;
                 ret (LLMAnswer query response_text evidence.1.2))
                (LLMAnswer query REQUEST_ERROR []) s) as (r & s' & E).
    exists r, s'. split; [exact E|].
    destruct (returns_llm_response w query s r) as [Hq Hw].
    { unfold llm_response. by rewrite E. }
    split; [done|]. by apply wordy_not_nil.
Qed.

(** ** The statements at sample inputs *)


Lemma sample_web_text_fields : Forall text_fields sample_web.
Proof.
  repeat constructor; intros k v Hk Hv;
    repeat (apply elem_of_cons in Hk as [->|Hk];
            [vm_compute in Hv; by simplify_eq|]);
    by apply elem_of_nil in Hk.
Qed.

Lemma sample_db_text_fields : Forall text_fields sample_db.
Proof.
  repeat constructor; intros k v Hk Hv;
    repeat (apply elem_of_cons in Hk as [->|Hk];
            [vm_compute in Hv; by simplify_eq|]);
    by apply elem_of_nil in Hk.
Qed.



(** The context of two web items and four database items. *)
Lemma evidence_priority_witness :
  exists sources,
    gather_evidence sample_web sample_db
    = Ok (txt "w1 text" ++ SP :: BLANK ++ txt "w2 text" ++ SP :: BLANK
          ++ txt "d1 text" ++ SP :: BLANK ++ txt "d2 text" ++ SP :: BLANK
          ++ txt "d3 text" ++ SP :: BLANK, sources).
Proof.
  destruct (evidence_priority sample_web sample_db
              sample_web_text_fields sample_db_text_fields)
    as (sources & E & _).
  exists sources. rewrite E. by vm_compute.
Defined.

(** A query of the special pattern with two web items: no database
    lookup; another query: the lookup, with its vector search. *)
Lemma aggregator_policy_witness :
  trace (gather sample_world (txt "California Wildfire 2020")
           (initial_state sample_store)).2
  = [CallWebSearch (txt "California Wildfire 2020") 5]
  /\ trace (gather sample_world (txt "earthquake in Japan")
              (initial_state indexed_store)).2
     = [CallWebSearch (txt "earthquake in Japan") 3;
        CallEmbedding (txt "earthquake in Japan");
        CallVectorSearch [1%Z; 2%Z] 5].
Proof.
  split.
  - destruct (aggregator_policy sample_world (txt "California Wildfire 2020")
                (initial_state sample_store))
      as (_ & calls & results & E & _ & H & _).
    destruct H as [-> _]; [reflexivity|].
    rewrite E. reflexivity.
  - destruct (aggregator_policy sample_world (txt "earthquake in Japan")
                (initial_state indexed_store))
      as (_ & calls & results & E & _ & _ & _ & _ & H).
    destruct (H [1%Z; 2%Z]) as [-> _];
      [reflexivity|left; reflexivity|reflexivity|].
    rewrite E. reflexivity.
Defined.

(** The database lookup is not skipped and yet no vector search is
    made: the embedding of the query fails, or the connection of the
    handler cannot be made again. *)
Lemma vector_search_not_made :
  is_california_wildfire (txt "quake") = false
  /\ gather unembedded_world (txt "quake") (initial_state sample_store)
     = (Ok ((take 3 sample_web, collect_web_sources (take 3 sample_web)), []),
        {| model_loaded := false; summarizer_loaded := false;
           db := sample_store;
           trace := [CallWebSearch (txt "quake") 3;
                     CallEmbedding (txt "quake")] |})
  /\ gather disconnected_world (txt "quake") (initial_state sample_store)
     = (Ok ((take 3 sample_web, collect_web_sources (take 3 sample_web)), []),
        {| model_loaded := false; summarizer_loaded := false;
           db := sample_store;
           trace := [CallWebSearch (txt "quake") 3] |})
  /\ forall v limit,
       (CallVectorSearch v limit
        ∉ trace (gather unembedded_world (txt "quake")
                   (initial_state sample_store)).2)
       /\ (CallVectorSearch v limit
           ∉ trace (gather disconnected_world (txt "quake")
                      (initial_state sample_store)).2).
Proof.
  split; [by vm_compute|]. split; [reflexivity|]. split; [reflexivity|].
  intros v limit. split; intros H; cbn in H;
    repeat (apply elem_of_cons in H as [H|H]; [discriminate H|]);
    by apply elem_of_nil in H.
Qed.

(** No evidence at all: the canned answer. *)
Lemma empty_evidence_terminal_witness :
  (generate_response silent_world (txt "floods in Atlantis") [] []
     (initial_state sample_store)).1
  = Ok (no_information (txt "floods in Atlantis")).
Proof.
  apply (empty_evidence_terminal silent_world (txt "floods in Atlantis")
           (initial_state sample_store)).
  by left.
Defined.

(** With empty lists the composer asks the web source again and, when it
    now answers, composes a response instead of the canned answer; and
    for a query that holds the marker, the canned answer holds it too and
    the extractor reads a citation out of it. *)
Lemma empty_evidence_not_always_canned :
  (generate_response late_web_world (txt "quake") [] []
     (initial_state sample_store)).1
  = Ok (txt "**Information about quake**" ++ BLANK ++ txt "W1 text")
  /\ (generate_response late_web_world (txt "quake") [] []
        (initial_state sample_store)).1
     <> Ok (no_information (txt "quake"))
  /\ (generate_response silent_world marker_query [] []
        (initial_state sample_store)).1
     = Ok (no_information marker_query)
  /\ PyStr.contains SOURCES_MARKER (no_information marker_query) = true
  /\ exists main title,
       extract_sources (no_information marker_query)
       = Ok (CrisisResponse main (Some [Citation title (txt "Unknown")])).
Proof.
  split; [by vm_compute|]. split; [by vm_compute|].
  split; [by vm_compute|]. split; [by vm_compute|].
  eexists _, _. by vm_compute.
Qed.

(** The normalized example is the input, not the text with a space
    after the period. *)
Lemma sentence_boundary_not_repaired :
  format_response_text (txt "Strikes continue.Officials say...")
  = txt "Strikes continue.Officials say..."
  /\ format_response_text (txt "Strikes continue.Officials say...")
     <> txt "Strikes continue. Officials say...".
Proof. split; by vm_compute. Qed.

(** Without the marker there is no source list at all, and dash lines
    after a second marker give no citation. *)
Lemma source_extractor_drops :
  extract_sources (txt "No sources here.")
  = Ok (CrisisResponse (txt "No sources here.") None)
  /\ cr_sources (CrisisResponse (txt "No sources here.") None) <> Some []
  /\ extract_sources two_markers
     = Ok (CrisisResponse (txt "A") (Some [Citation (txt "x") (txt "y")])).
Proof. repeat split; by vm_compute. Qed.

(** The text search on the sample store. *)
Lemma search_by_text_witness :
  search_by_text (embedding sample_world) indexed_store (txt "quake") 5
  = search_by_vector indexed_store [1%Z; 2%Z] 5.
Proof.
  apply (search_by_text_is_vector_search (embedding sample_world)
           indexed_store (txt "quake") 5 [1%Z; 2%Z]).
  reflexivity.
Defined.

(** The index search finds nothing: the first two documents come back. *)
Lemma search_by_vector_fallback_witness :
  search_by_vector sample_store [1%Z; 2%Z] 2
  = with_string_ids (take 2 sample_db).
Proof.
  destruct (search_by_vector_fallback sample_store [1%Z; 2%Z] 2
              eq_refl (or_introl eq_refl)) as [H _].
  destruct (H sample_db eq_refl eq_refl) as (_ & E & _).
  - unfold sample_db.
    repeat (apply List.Forall_cons; [eexists; vm_compute; reflexivity|]).
    apply List.Forall_nil.
  - apply E. lia.
Defined.

(** Nothing is found and nothing loads: the response is still a text. *)
Lemma no_exception_propagation_witness :
  exists response s',
    find_and_respond silent_world (txt "quake") 5 (initial_state sample_store)
    = (Ok response, s')
    /\ response <> [].
Proof.
  destruct (no_exception_propagation silent_world (txt "quake") 5
              (initial_state sample_store)) as [(r & s' & E & H) _].
  exists r, s'. split; [exact E|exact H].
Defined.

(** * Further properties of the code around the pipeline *)

(** ** Words *)

Lemma words_go_word cur word s :
  Forall (fun c => is_space c = false) word ->
  PyStr.words_go cur (word ++ s) = PyStr.words_go (reverse word ++ cur) s.
Proof.
  intros H. revert cur. induction H as [|c word Hc _ IH]; intros cur; [done|].
  cbn [app PyStr.words_go]. rewrite Hc, IH, reverse_cons, <- app_assoc. done.
Qed.

Lemma words_go_blank w s :
  blank w -> PyStr.words_go [] (w ++ s) = PyStr.words_go [] s.
Proof.
  induction 1 as [|c w Hc _ IH]; [done|].
  cbn [app PyStr.words_go]. by rewrite Hc.
Qed.

Lemma words_blank_l w s : blank w -> PyStr.words (w ++ s) = PyStr.words s.
Proof. apply words_go_blank. Qed.

(** A word, then whitespace, then the rest. *)
Lemma words_word_sep word c s :
  proper_word word -> is_space c = true ->
  PyStr.words (word ++ c :: s) = word :: PyStr.words s.
Proof.
  intros [Hne Hw] Hc. unfold PyStr.words.
  rewrite words_go_word by done. cbn [PyStr.words_go]. rewrite Hc.
  rewrite app_nil_r.
  destruct (reverse word) as [|x r] eqn:E.
  - apply (f_equal reverse) in E. rewrite reverse_involutive in E. done.
  - cbn [PyStr.is_empty]. rewrite <- E, reverse_involutive. done.
Qed.

Lemma words_word word : proper_word word -> PyStr.words word = [word].
Proof.
  intros [Hne Hw]. unfold PyStr.words.
  rewrite <- (app_nil_r word) at 1.
  rewrite words_go_word by done. cbn [PyStr.words_go]. rewrite app_nil_r.
  destruct (reverse word) as [|x r] eqn:E.
  - apply (f_equal reverse) in E. rewrite reverse_involutive in E. done.
  - cbn [PyStr.is_empty]. rewrite <- E, reverse_involutive. done.
Qed.

Lemma words_go_proper cur s :
  Forall (fun c => is_space c = false) cur ->
  Forall proper_word (PyStr.words_go cur s).
Proof.
  revert cur. induction s as [|c s IH]; intros cur Hcur; cbn [PyStr.words_go].
  - destruct cur as [|x cur]; cbn [PyStr.is_empty]; [constructor|].
    repeat constructor.
    + intros E. apply (f_equal reverse) in E.
      rewrite reverse_involutive in E. done.
    + by apply Forall_reverse.
  - destruct (is_space c) eqn:Hc.
    + apply Forall_app. split; [|apply IH; constructor].
      destruct cur as [|x cur]; cbn [PyStr.is_empty]; [constructor|].
      repeat constructor.
      * intros E. apply (f_equal reverse) in E.
        rewrite reverse_involutive in E. done.
      * by apply Forall_reverse.
    + apply IH. by constructor.
Qed.

(** [s.split()] gives words. *)
Lemma words_proper s : Forall proper_word (PyStr.words s).
Proof. apply words_go_proper. constructor. Qed.

Lemma space_SP : is_space SP = true.
Proof. done. Qed.

(** Splitting what was joined with single spaces gives the words back. *)
Lemma words_join ws :
  Forall proper_word ws -> PyStr.words (PyStr.join [SP] ws) = ws.
Proof.
  induction 1 as [|word ws Hw Hws IH]; [done|].
  destruct ws as [|word' ws].
  - cbn [PyStr.join]. by apply words_word.
  - rewrite join_cons by done. cbn [app].
    rewrite words_word_sep by done. by rewrite IH.
Qed.

Lemma words_go_not_nil cur s : cur <> [] -> PyStr.words_go cur s <> [].
Proof.
  revert cur. induction s as [|d s IH]; intros cur Hcur; cbn [PyStr.words_go].
  - by destruct cur.
  - destruct (is_space d).
    + by destruct cur.
    + by apply IH.
Qed.

Lemma words_nonspace_head c s :
  is_space c = false -> PyStr.words (c :: s) <> [].
Proof.
  intros Hc. unfold PyStr.words. cbn [PyStr.words_go]. rewrite Hc.
  by apply words_go_not_nil.
Qed.

Lemma words_go_elem cur s word c :
  word ∈ PyStr.words_go cur s -> c ∈ word -> c ∈ cur \/ c ∈ s.
Proof.
  revert cur. induction s as [|d s IH]; intros cur; cbn [PyStr.words_go].
  - destruct cur as [|x cur]; cbn [PyStr.is_empty]; [by intros ?%elem_of_nil|].
    intros ->%list_elem_of_singleton Hc. left. by apply elem_of_reverse.
  - destruct (is_space d).
    + intros [H|H]%elem_of_app Hc.
      * destruct cur as [|x cur]; cbn [PyStr.is_empty] in H;
          [by apply elem_of_nil in H|].
        apply list_elem_of_singleton in H as ->. left.
        by apply elem_of_reverse.
      * destruct (IH _ H Hc) as [?%elem_of_nil|?]; [done|].
        right. by right.
    + intros H Hc. destruct (IH _ H Hc) as [[->|?]%elem_of_cons|?].
      * right. left.
      * by left.
      * right. by right.
Qed.

(** The characters of the words are characters of the text. *)
Lemma words_elem s word c : word ∈ PyStr.words s -> c ∈ word -> c ∈ s.
Proof.
  intros H Hc. by destruct (words_go_elem _ _ _ _ H Hc) as [?%elem_of_nil|?].
Qed.

Lemma join_elem sep ws c :
  c ∈ PyStr.join sep ws -> c ∈ sep \/ exists word, word ∈ ws /\ c ∈ word.
Proof.
  induction ws as [|word ws IH]; [by intros ?%elem_of_nil|].
  destruct ws as [|word' ws].
  - cbn [PyStr.join]. intros H. right. exists word. split; [left|done].
  - rewrite join_cons by done.
    intros [H|[H|H]%elem_of_app]%elem_of_app.
    + right. exists word. split; [left|done].
    + by left.
    + destruct (IH H) as [?|(x & Hx & Hc)]; [by left|].
      right. exists x. split; [by right|done].
Qed.

Lemma trimmed_join_words ws :
  Forall proper_word ws -> trimmed (PyStr.join [SP] ws).
Proof.
  induction 1 as [|word ws [Hne Hw] Hws IH]; [by split|].
  assert (Ht : trimmed word).
  { split; intros c Hc.
    - destruct word as [|x word]; [done|]. injection Hc as <-.
      by apply Forall_cons in Hw as [? _].
    - apply last_Some in Hc as [l' ->].
      by apply Forall_app in Hw as [_ [? _]%Forall_cons]. }
  destruct ws as [|word' ws]; [done|].
  rewrite join_cons by done.
  apply trimmed_app_l; [done|done|].
  intros c. rewrite last_app.
  destruct IH as [_ IHl].
  destruct (last ([SP] ++ PyStr.join [SP] (word' :: ws))) eqn:E.
  - intros [= <-]. rewrite last_app in E.
    destruct (last (PyStr.join [SP] (word' :: ws))) eqn:F.
    + injection E as <-. by apply IHl.
    + apply last_None in F.
      apply Forall_cons in Hws as [[Hne' _] _].
      destruct ws; cbn [PyStr.join] in F; [done|].
      by destruct word'.
  - apply last_None in E. done.
Qed.

(** ** The cleaning of scraped content *)

Lemma span_rest cls s a b :
  Re.span cls s = (a, b) ->
  match b with c :: _ => cls c = false | [] => True end.
Proof.
  revert a b. induction s as [|c s IH]; intros a b H; simpl in H.
  - by injection H as <- <-.
  - destruct (cls c) eqn:E.
    + destruct (Re.span cls s) as [a' b'] eqn:F.
      injection H as <- <-. by apply (IH a' b').
    + by injection H as <- <-.
Qed.

(** The leftmost whitespace run: the text before it has no whitespace. *)
Lemma search_whitespace prev s :
  Re.search whitespace_pattern prev s
  = let '(a, rest) := Re.span (fun c => negb (is_space c)) s in
    match Re.span is_space rest with
    | ([], _) => None
    | (w, r) => Some (a, w, r)
    end.
Proof.
  revert prev. induction s as [|c s IH]; intros prev; [done|].
  cbn [Re.search]. unfold whitespace_pattern at 1. cbn [Re.span].
  destruct (is_space c) eqn:Hc; cbn [negb].
  - cbn [Re.span]. rewrite Hc. by destruct (Re.span is_space s).
  - rewrite IH. destruct (Re.span (fun c => negb (is_space c)) s) as [a rest].
    by destruct (Re.span is_space rest) as [[|x w] r].
Qed.

Lemma sub_fuel_nil n m repl prev :
  m prev [] = None -> Re.sub_fuel n m repl prev [] = [].
Proof. intros H. destruct n; [done|]. cbn. by rewrite H. Qed.

(** What [\s+ -> ' '] leaves: the words joined by single spaces, with a
    space before when the text began with whitespace and possibly one
    after. *)
Lemma sub_whitespace_shape n prev s :
  length s <= n ->
  exists w2, (w2 = [] \/ w2 = [SP])
    /\ Re.sub_fuel n whitespace_pattern [SP] prev s
       = (match s with
          | c :: _ => if is_space c then [SP] else []
          | [] => []
          end) ++ PyStr.join [SP] (PyStr.words s) ++ w2.
Proof.
  revert prev s. induction n as [|n IH]; intros prev s Hn.
  - destruct s; [|simpl in Hn; lia]. exists []. by split; [left|].
  - cbn [Re.sub_fuel]. rewrite search_whitespace.
    destruct (Re.span (fun c => negb (is_space c)) s) as [a rest] eqn:Ha.
    destruct (span_spec _ _ _ _ Ha) as [-> Hns].
    pose proof (span_rest _ _ _ _ Ha) as Hrest.
    assert (Hns' : Forall (fun c => is_space c = false) a).
    { eapply Forall_impl; [exact Hns|]. intros c Hc. simpl in Hc. by destruct (is_space c). }
    destruct (Re.span is_space rest) as [w r] eqn:Hw.
    destruct (span_spec _ _ _ _ Hw) as [-> Hbl].
    pose proof (span_rest _ _ _ _ Hw) as Hr.
    destruct w as [|x w].
    + (* no whitespace at all *)
      cbn [app] in *. destruct r as [|y r].
      * rewrite app_nil_r. exists []. split; [by left|].
        rewrite app_nil_r. destruct a as [|c a]; [done|].
        rewrite words_word by (split; [done|exact Hns']).
        cbn [PyStr.join]. apply Forall_cons in Hns' as [-> _]. done.
      * simpl in Hrest. rewrite Hr in Hrest. done.
    + (* a run of whitespace, then the rest *)
      assert (Hx : is_space x = true) by by apply Forall_cons in Hbl as [? _].
      assert (Hlen : length r <= n).
      { rewrite !length_app in Hn. simpl in Hn. lia. }
      assert (Hwords : PyStr.words (a ++ (x :: w) ++ r)
                = (if PyStr.is_empty a then [] else [a]) ++ PyStr.words r).
      { destruct a as [|c a].
        - cbn [app PyStr.is_empty].
          change (x :: w ++ r) with ((x :: w) ++ r). by apply words_blank_l.
        - cbn [PyStr.is_empty]. change ((x :: w) ++ r) with (x :: (w ++ r)).
          rewrite words_word_sep by (done || by split).
          f_equal. apply words_blank_l.
          by apply Forall_cons in Hbl as [_ ?]. }
      rewrite Hwords.
      destruct r as [|y r].
      * rewrite sub_fuel_nil by done.
        rewrite app_nil_r. destruct a as [|c a]; cbn [PyStr.is_empty app].
        -- rewrite Hx. exists []. split; [by left|done].
        -- apply Forall_cons in Hns' as [-> _]. exists [SP].
           split; [by right|]. cbn [PyStr.words_go PyStr.words]. done.
      * destruct (IH (Re.last_char prev (a ++ x :: w)) (y :: r) Hlen)
          as (w2 & Hw2 & E).
        rewrite E. rewrite Hr. cbn [app].
        pose proof (words_nonspace_head y r Hr) as Hne.
        destruct a as [|c a]; cbn [PyStr.is_empty app].
        -- rewrite Hx. exists w2. split; [done|]. done.
        -- apply Forall_cons in Hns' as [-> _]. exists w2. split; [done|].
           rewrite join_cons by done. cbn [app].
           by rewrite <- !app_assoc.
Qed.

Lemma search_newlines_none prev s :
  NL ∉ s -> Re.search newlines_pattern prev s = None.
Proof.
  revert prev. induction s as [|c s IH]; intros prev H; [done|].
  cbn [Re.search]. unfold newlines_pattern at 1. cbn [Re.span].
  case_bool_decide as Hc; [subst; exfalso; apply H; left|].
  cbn. rewrite IH; [done|]. intros ?. apply H. by right.
Qed.

Lemma sub_fuel_none n m repl prev s :
  Re.search m prev s = None -> Re.sub_fuel n m repl prev s = s.
Proof. intros H. destruct n; [done|]. cbn. by rewrite H. Qed.

Lemma proper_word_no_nl ws :
  Forall proper_word ws -> NL ∉ PyStr.join [SP] ws.
Proof.
  intros H [Hc|(word & Hw & Hc)]%join_elem.
  - by apply list_elem_of_singleton in Hc.
  - rewrite Forall_forall in H. destruct (H _ Hw) as [_ Hn].
    rewrite Forall_forall in Hn. by specialize (Hn _ Hc).
Qed.

(** The normal form of cleaned content. *)
Lemma clean_content_words text :
  clean_content text
  = PyStr.join [SP] (PyStr.words (Re.sub reference_pattern [] text)).
Proof.
  unfold clean_content. destruct text as [|c text]; [done|].
  cbn [PyStr.is_empty].
  set (t1 := Re.sub reference_pattern [] (c :: text)).
  destruct (sub_whitespace_shape (length t1) None t1 (le_n _))
    as (w2 & Hw2 & E).
  unfold Re.sub at 1. unfold Re.sub at 1. fold (Re.sub whitespace_pattern [SP] t1).
  unfold Re.sub at 2. rewrite E.
  set (pre := match t1 with c :: _ => if is_space c then [SP] else [] | [] => [] end).
  assert (Hpre : pre = [] \/ pre = [SP]).
  { unfold pre. destruct t1 as [|x ?]; [by left|]. destruct (is_space x); auto. }
  pose proof (words_proper t1) as Hp.
  rewrite sub_fuel_none.
  - apply strip_around.
    + by apply trimmed_join_words.
    + destruct Hpre as [->| ->]; by repeat constructor.
    + destruct Hw2 as [->| ->]; by repeat constructor.
  - apply search_newlines_none.
    intros [H|[H|H]%elem_of_app]%elem_of_app.
    + destruct Hpre as [->| ->]; [by apply elem_of_nil in H|].
      by apply list_elem_of_singleton in H.
    + by apply proper_word_no_nl in H.
    + destruct Hw2 as [->| ->]; [by apply elem_of_nil in H|].
      by apply list_elem_of_singleton in H.
Qed.

Lemma search_reference_none prev s :
  "["%char ∉ s -> Re.search reference_pattern prev s = None.
Proof.
  revert prev. induction s as [|c s IH]; intros prev H; [done|].
  cbn [Re.search]. unfold reference_pattern at 1.
  case_bool_decide as Hc; [subst; exfalso; apply H; left|].
  rewrite IH; [done|]. intros ?. apply H. by right.
Qed.

Lemma sub_reference_plain s :
  "["%char ∉ s -> Re.sub reference_pattern [] s = s.
Proof. intros H. apply sub_fuel_none. by apply search_reference_none. Qed.

(** The step [\n{3,}] of the cleaning finds nothing to replace. *)
Lemma sub_newlines_after_whitespace u :
  Re.sub newlines_pattern BLANK (Re.sub whitespace_pattern [SP] u)
  = Re.sub whitespace_pattern [SP] u.
Proof.
  apply sub_fuel_none, search_newlines_none.
  destruct (sub_whitespace_shape (length u) None u (le_n _)) as (w2 & Hw2 & E).
  unfold Re.sub. rewrite E.
  intros [H|[H|H]%elem_of_app]%elem_of_app.
  - destruct u as [|x u]; [by apply elem_of_nil in H|].
    destruct (is_space x); [|by apply elem_of_nil in H].
    by apply list_elem_of_singleton in H.
  - by apply proper_word_no_nl in H; [|apply words_proper].
  - destruct Hw2 as [->| ->]; [by apply elem_of_nil in H|].
    by apply list_elem_of_singleton in H.
Qed.

Lemma join_words_elem s c :
  c ∈ PyStr.join [SP] (PyStr.words s) -> c = SP \/ (c ∈ s /\ is_space c = false).
Proof.
  intros [H|(word & Hw & Hc)]%join_elem.
  - left. by apply list_elem_of_singleton in H.
  - right. split; [by eapply words_elem|].
    pose proof (words_proper s) as Hp. rewrite Forall_forall in Hp.
    destruct (Hp _ Hw) as [_ Hn]. rewrite Forall_forall in Hn. by apply Hn.
Qed.

(** X1. Cleaned content is the words of the text, once its bracketed
    reference numbers are removed, joined by single spaces: no line
    break survives, the only whitespace left is a single space between
    two words, and the last step of the cleaning, which looks for three
    line breaks in a row, never finds any. *)
Theorem clean_content_normal_form text :
  clean_content text
  = PyStr.join [SP] (PyStr.words (Re.sub reference_pattern [] text))
  /\ (forall c, c ∈ clean_content text -> is_space c = true -> c = SP)
  /\ PyStr.words (clean_content text)
     = PyStr.words (Re.sub reference_pattern [] text)
  /\ PyStr.strip (clean_content text) = clean_content text
  /\ forall u,
       Re.sub newlines_pattern BLANK (Re.sub whitespace_pattern [SP] u)
       = Re.sub whitespace_pattern [SP] u.
Proof.
  rewrite clean_content_words. split; [done|].
  split; [|split; [|split]].
  - intros c [->|[_ Hc]]%join_words_elem; [done|]. congruence.
  - apply words_join, words_proper.
  - apply strip_trimmed, trimmed_join_words, words_proper.
  - apply sub_newlines_after_whitespace.
Qed.

(** X2. On a text without an opening bracket the cleaning only touches
    whitespace: it keeps the words in order, and cleaning again changes
    nothing. *)
Theorem clean_content_plain text :
  "["%char ∉ text ->
  clean_content text = PyStr.join [SP] (PyStr.words text)
  /\ PyStr.words (clean_content text) = PyStr.words text
  /\ clean_content (clean_content text) = clean_content text.
Proof.
  intros H.
  assert (E : clean_content text = PyStr.join [SP] (PyStr.words text)).
  { by rewrite clean_content_words, sub_reference_plain. }
  assert (W : PyStr.words (clean_content text) = PyStr.words text).
  { rewrite E. apply words_join, words_proper. }
  split; [done|]. split; [done|].
  rewrite (clean_content_words (clean_content text)).
  rewrite sub_reference_plain.
  - by rewrite W, E.
  - rewrite E. intros [?|[? _]]%join_words_elem; done.
Qed.

(** ** The search terms of the scraper *)

Lemma digit_lower c : is_digit c = true -> char_lower c = c.
Proof. by_cases_on_char c. Qed.

Lemma lower_digit c : is_digit (char_lower c) = is_digit c.
Proof. by_cases_on_char c. Qed.

Lemma lower_is_2 c : char_lower c = "2"%char <-> c = "2"%char.
Proof.
  split; [|by intros ->].
  destruct c as [[] [] [] [] [] [] [] []]; vm_compute; congruence.
Qed.

Lemma lower_is_0 c : char_lower c = "0"%char <-> c = "0"%char.
Proof.
  split; [|by intros ->].
  destruct c as [[] [] [] [] [] [] [] []]; vm_compute; congruence.
Qed.

Lemma year_pattern_inv prev s x r :
  year_pattern prev s = Some (x, r) ->
  s = x ++ r
  /\ exists c d, x = ["2"%char; "0"%char; c; d]
                 /\ is_digit c = true /\ is_digit d = true.
Proof.
  unfold year_pattern. destruct s as [|a [|b [|c [|d s]]]]; try done.
  case_bool_decide as Ha; [|done]. case_bool_decide as Hb; [|done].
  destruct (is_digit c) eqn:Hc; [|done]. destruct (is_digit d) eqn:Hd; [|done].
  cbn. intros [= <- <-]. subst. split; [done|]. by exists c, d.
Qed.

Lemma year_pattern_sound : sound year_pattern.
Proof. intros prev s x r H. by apply year_pattern_inv in H as [? _]. Qed.

Lemma year_pattern_lower prev prev' s :
  year_pattern prev (PyStr.lower s)
  = match year_pattern prev' s with
    | Some (x, r) => Some (x, PyStr.lower r)
    | None => None
    end.
Proof.
  unfold year_pattern. destruct s as [|a [|b [|c [|d s]]]]; try done.
  cbn [PyStr.lower map]. rewrite !lower_digit.
  rewrite (bool_decide_ext _ _ (lower_is_2 a)).
  rewrite (bool_decide_ext _ _ (lower_is_0 b)).
  case_bool_decide as Ha; [|done]. case_bool_decide as Hb; [|done].
  destruct (is_digit c) eqn:Hc; [|done]. destruct (is_digit d) eqn:Hd; [|done].
  cbn. subst. by rewrite !digit_lower.
Qed.

Lemma search_year_lower prev prev' s :
  Re.search year_pattern prev (PyStr.lower s)
  = match Re.search year_pattern prev' s with
    | Some (b, x, r) => Some (PyStr.lower b, x, PyStr.lower r)
    | None => None
    end.
Proof.
  revert prev prev'. induction s as [|c s IH]; intros prev prev'; [done|].
  change (PyStr.lower (c :: s)) with (char_lower c :: PyStr.lower s).
  cbn [Re.search].
  change (char_lower c :: PyStr.lower s) with (PyStr.lower (c :: s)).
  rewrite (year_pattern_lower prev prev').
  destruct (year_pattern prev' (c :: s)) as [[x r]|]; [done|].
  rewrite (IH (Some (char_lower c)) (Some c)).
  by destruct (Re.search year_pattern (Some c) s) as [[[b x] r]|].
Qed.

(** Letter case plays no part in the search for a year. *)
Lemma find_year_lower query : find_year (PyStr.lower query) = find_year query.
Proof.
  unfold find_year. rewrite (search_year_lower None None).
  by destruct (Re.search year_pattern None query) as [[[b x] r]|].
Qed.

Lemma find_year_inv query year :
  find_year query = Some year ->
  (exists c d, year = ["2"%char; "0"%char; c; d]
               /\ is_digit c = true /\ is_digit d = true)
  /\ exists b r, query = b ++ year ++ r.
Proof.
  unfold find_year.
  destruct (Re.search year_pattern None query) as [[[b x] r]|] eqn:E; [|done].
  intros [= <-].
  destruct (search_sound _ _ _ _ _ _ year_pattern_sound E) as [-> [prev' H]].
  apply year_pattern_inv in H as [_ H]. split; [done|]. by exists b, r.
Qed.

Lemma lower_year year :
  (exists c d, year = ["2"%char; "0"%char; c; d]
               /\ is_digit c = true /\ is_digit d = true) ->
  PyStr.lower year = year.
Proof.
  intros (c & d & -> & Hc & Hd). cbn. by rewrite !digit_lower.
Qed.

Lemma endswith_app p a : PyStr.endswith p (a ++ p) = true.
Proof. unfold PyStr.endswith. rewrite reverse_app. apply startswith_app. Qed.

Lemma california_test query :
  mentions_california_fire (PyStr.lower query) = is_california_wildfire query.
Proof. done. Qed.


Lemma lower_literal_app q lit :
  PyStr.lower lit = lit ->
  PyStr.lower (PyStr.lower q ++ lit) = PyStr.lower q ++ lit.
Proof. intros H. by rewrite lower_app, lower_idemp, H. Qed.

Lemma startswith_spaced q lit :
  head lit = Some SP -> PyStr.startswith (q ++ [SP]) (q ++ lit) = true.
Proof.
  destruct lit as [|c lit]; [done|]. intros [= ->].
  change (SP :: lit) with ([SP] ++ lit). rewrite app_assoc.
  apply startswith_app.
Qed.

Lemma endswith_app_l p q lit :
  PyStr.endswith p lit = true -> PyStr.endswith p (q ++ lit) = true.
Proof.
  unfold PyStr.endswith. intros H. apply startswith_inv in H.
  rewrite reverse_app, H, <- app_assoc. apply startswith_app.
Qed.

Ltac terms_leaf :=
  split; [by apply lower_literal_app|];
  split; [by apply startswith_spaced|by apply endswith_app_l].

(** X3. The search terms are always lower-case.  For a query about
    California fires they are a fixed phrase around a year, the first
    year of this century that the query mentions or 2020, and nothing
    else of the query is kept; for every other query they begin with the
    lower-cased query and end with the disaster keywords. *)
Theorem search_terms_shape query :
  PyStr.lower (prepare_search_terms query) = prepare_search_terms query
  /\ if is_california_wildfire query
     then prepare_search_terms query
          = txt "california wildfires "
            ++ default (txt "2020") (find_year query)
            ++ txt " casualties deaths statistics"
     else PyStr.startswith (PyStr.lower query ++ [SP])
            (prepare_search_terms query) = true
          /\ PyStr.endswith (txt " disaster information casualties deaths")
               (prepare_search_terms query) = true.
Proof.
  unfold prepare_search_terms.
  rewrite california_test, find_year_lower.
  destruct (is_california_wildfire query).
  - split; [|done]. rewrite !lower_app. f_equal. f_equal.
    destruct (find_year query) as [year|] eqn:E; [|done].
    apply lower_year. by apply find_year_inv in E as [? _].
  - repeat match goal with
           | |- context [if ?b then _ else _] => destruct b
           end; terms_leaf.
Qed.

(** X4. A year found in a query is four characters, [20] and two digits,
    that stand in the query; the lower-cased query, from which the search
    terms are made, gives the same year as the query itself, from which
    the Cal Fire lookup is made; and the address asked of Cal Fire ends
    in that year. *)
Theorem scraper_year query year :
  find_year query = Some year ->
  (exists c d, year = ["2"%char; "0"%char; c; d]
               /\ is_digit c = true /\ is_digit d = true)
  /\ PyStr.contains year query = true
  /\ find_year (PyStr.lower query) = Some year
  /\ cal_fire_url year
     = txt "https://www.fire.ca.gov/incidents/" ++ year ++ txt "/".
Proof.
  intros H. destruct (find_year_inv _ _ H) as [Hy (b & r & ->)].
  split; [done|]. split; [apply contains_app|].
  split; [by rewrite find_year_lower|].
  destruct Hy as (c & d & -> & _). done.
Qed.

(** ** The scraper's sources *)

Lemma some_items_length o : length (some_items o) <= 1.
Proof.
  destruct o as [d|]; simpl; [|lia]. case_bool_decide; simpl; lia.
Qed.

Lemma search_specific_length sc query results :
  search_specific_disaster sc query = Ok results -> length results <= 1.
Proof.
  unfold search_specific_disaster.
  destruct (mentions_california_fire _); [|intros [= <-]; simpl; lia].
  destruct (find_year query) as [year|]; [|intros [= <-]; simpl; lia].
  destruct (negb _); [|intros [= <-]; simpl; lia].
  destruct (search_cal_fire sc year) as [o|]; [|done].
  intros [= <-]. apply some_items_length.
Qed.

Lemma slice_to_length {A} n (l : list A) :
  (0 <= n)%Z -> (Z.of_nat (length (slice_to n l)) <= n)%Z.
Proof.
  intros H. unfold slice_to.
  destruct (Z.ltb_spec n 0); [lia|]. rewrite length_take. lia.
Qed.

Lemma slice_to_short {A} n (l : list A) :
  (n <= 0)%Z -> length l <= 1 -> slice_to n l = [].
Proof.
  intros H Hl. unfold slice_to. destruct (Z.ltb_spec n 0).
  - replace (length l - Z.to_nat (- n)) with 0 by lia. done.
  - replace (Z.to_nat n) with 0 by lia. done.
Qed.

(** X5. The scraper never raises.  For a cap that is not negative it
    returns at most that many items; for a cap of zero or less it
    returns none; and the Cal Fire source has a part in the answer only
    for a query about California fires that mentions a year. *)
Theorem search_disaster_info_bounds sc query max_results :
  ((0 <= max_results)%Z ->
   (Z.of_nat (length (search_disaster_info sc query max_results))
    <= max_results)%Z)
  /\ ((max_results <= 0)%Z -> search_disaster_info sc query max_results = [])
  /\ (is_california_wildfire query = false \/ find_year query = None ->
      forall sc',
        search_wikipedia sc' = search_wikipedia sc ->
        general_search sc' = general_search sc ->
        search_disaster_info sc' query max_results
        = search_disaster_info sc query max_results).
Proof.
  split; [|split].
  - intros H. unfold search_disaster_info, search_disaster_body.
    destruct (search_specific_disaster sc query) as [sp|]; [|simpl; lia].
    cbn [result_bind].
    destruct (Z.of_nat (length sp) <? max_results)%Z;
      [destruct (search_wikipedia sc _) as [wd|]; [|simpl; lia]|];
      cbn [result_bind];
      (destruct (Z.of_nat (length _) <? max_results)%Z;
       [destruct (general_search sc _ _) as [gr|]; [|simpl; lia]|]);
      cbn [result_bind]; by apply slice_to_length.
  - intros H. unfold search_disaster_info, search_disaster_body.
    destruct (search_specific_disaster sc query) as [sp|] eqn:E; [|done].
    apply search_specific_length in E. cbn [result_bind].
    destruct (Z.ltb_spec (Z.of_nat (length sp)) max_results); [lia|].
    cbn [result_bind].
    destruct (Z.ltb_spec (Z.of_nat (length sp)) max_results); [lia|].
    cbn [result_bind]. by apply slice_to_short.
  - intros H sc' Hw Hg.
    unfold search_disaster_info, search_disaster_body.
    assert (E : search_specific_disaster sc' query
                = search_specific_disaster sc query).
    { unfold search_specific_disaster. rewrite california_test.
      destruct H as [-> | ->]; [done|].
      by destruct (is_california_wildfire query). }
    by rewrite E, Hw, Hg.
Qed.

(** X6. For a query about California fires that mentions a year, an
    item that the Cal Fire source gives for that year is the first item
    of the answer when the other sources do not fail, and it is the whole
    answer, no other source being asked, when one item is wanted. *)
Theorem cal_fire_first sc query year d max_results :
  is_california_wildfire query = true ->
  find_year query = Some year ->
  search_cal_fire sc year = Ok (Some d) ->
  d <> ∅ ->
  (max_results = 1%Z -> search_disaster_info sc query max_results = [d])
  /\ ((1 <= max_results)%Z ->
      (forall terms, search_wikipedia sc terms <> Raise) ->
      (forall terms k, general_search sc terms k <> Raise) ->
      head (search_disaster_info sc query max_results) = Some d).
Proof.
  intros Hq Hy Hc Hd.
  assert (E : search_specific_disaster sc query = Ok [d]).
  { unfold search_specific_disaster. rewrite california_test, Hq, Hy.
    destruct (find_year_inv _ _ Hy) as [(c & e & -> & _) _].
    cbn [PyStr.is_empty negb]. rewrite Hc. cbn.
    by rewrite bool_decide_eq_false_2. }
  unfold search_disaster_info, search_disaster_body. rewrite E.
  cbn [result_bind length]. split.
  - intros ->. done.
  - intros Hm Hw Hg.
    destruct (Z.ltb_spec (Z.of_nat 1) max_results) as [Hlt|Hge].
    + specialize (Hw (prepare_search_terms query)).
      destruct (search_wikipedia sc _) as [wd|]; [|done].
      cbn [result_bind].
      destruct (Z.ltb_spec (Z.of_nat (length ([d] ++ some_items wd)))
                  max_results) as [Hlt'|Hge'].
      * match goal with |- context [general_search sc ?t ?k] =>
          specialize (Hg t k); destruct (general_search sc t k) as [gr|]
        end; [|done].
        cbn [result_bind]. unfold slice_to.
        destruct (Z.ltb_spec max_results 0); [lia|].
        destruct (Z.to_nat max_results) eqn:F; [lia|]. done.
      * cbn [result_bind]. unfold slice_to.
        destruct (Z.ltb_spec max_results 0); [lia|].
        destruct (Z.to_nat max_results) eqn:F; [lia|]. done.
    + cbn [result_bind length].
      destruct (Z.ltb_spec (Z.of_nat 1) max_results); [lia|].
      cbn [result_bind]. unfold slice_to.
      destruct (Z.ltb_spec max_results 0); [lia|].
      destruct (Z.to_nat max_results) eqn:F; [lia|]. done.
Qed.

(** ** Redirects of search results *)

Lemma span_app_stop cls (a b : pystr) :
  Forall (fun c => cls c = true) a ->
  match b with c :: _ => cls c = false | [] => True end ->
  Re.span cls (a ++ b) = (a, b).
Proof.
  intros Ha Hb. induction Ha as [|c a Hc _ IH]; cbn [app].
  - destruct b as [|c b]; [done|]. cbn [Re.span]. by rewrite Hb.
  - cbn [Re.span]. by rewrite Hc, IH.
Qed.

Lemma url_pattern_inv prev s x r :
  url_pattern prev s = Some (x, r) ->
  s = x ++ r
  /\ exists g, x = URL_Q ++ g /\ g <> [] /\ ("&"%char ∉ g).
Proof.
  unfold url_pattern. destruct (PyStr.startswith URL_Q s) eqn:E; [|done].
  apply startswith_inv in E.
  destruct (Re.span _ (drop (length URL_Q) s)) as [g r'] eqn:F.
  destruct (span_spec _ _ _ _ F) as [Hs Hg].
  destruct g as [|c g]; [done|]. intros [= <- <-].
  split; [rewrite Hs in E; exact E|].
  exists (c :: g). split; [done|]. split; [done|].
  intros Hc. rewrite Forall_forall in Hg. specialize (Hg _ Hc).
  by rewrite bool_decide_eq_true_2 in Hg.
Qed.

Lemma url_pattern_sound : sound url_pattern.
Proof. intros prev s x r H. by apply url_pattern_inv in H as [? _]. Qed.

(** X7. The address of a Google result that is a redirect is the text
    that follows [url?q=], up to the next [&]: a redirect to a target
    without [&] gives the target back; and an address taken out of a
    redirect is never empty and never holds an [&]. *)
Theorem google_redirect_unwrapped :
  (forall target rest,
     target <> [] -> ("&"%char ∉ target) ->
     rest = [] \/ head rest = Some "&"%char ->
     google_result_url (txt "/url?q=" ++ target ++ rest) = Some target)
  /\ (forall url address,
        PyStr.startswith (txt "/url?") url = true ->
        google_result_url url = Some address ->
        address <> [] /\ ("&"%char ∉ address)
        /\ PyStr.contains (URL_Q ++ address) url = true).
Proof.
  split.
  - intros target rest Hne Hamp Hrest.
    unfold google_result_url.
    change (txt "/url?q=") with ("/"%char :: URL_Q).
    cbn [app].
    assert (Hs : PyStr.startswith (txt "/url?")
                   ("/"%char :: URL_Q ++ target ++ rest) = true)
      by by vm_compute.
    rewrite Hs. cbn [Re.search].
    assert (Hn : url_pattern None ("/"%char :: URL_Q ++ target ++ rest) = None)
      by by vm_compute.
    rewrite Hn.
    assert (E : url_pattern (Some "/"%char) (URL_Q ++ target ++ rest)
                = Some (URL_Q ++ target, rest)).
    { unfold url_pattern. rewrite startswith_app, drop_app_length.
      rewrite span_app_stop.
      - by destruct target.
      - rewrite Forall_forall. intros c Hc.
        rewrite bool_decide_eq_false_2; [done|]. by intros ->.
      - destruct Hrest as [->|H]; [done|]. destruct rest; [done|].
        by injection H as ->. }
    destruct (URL_Q ++ target ++ rest) as [|c s] eqn:F; [done|].
    cbn [Re.search]. rewrite E. by rewrite drop_app_length.
  - intros url address Hs. unfold google_result_url. rewrite Hs.
    destruct (Re.search url_pattern None url) as [[[b x] r]|] eqn:E; [|done].
    intros [= <-].
    destruct (search_sound _ _ _ _ _ _ url_pattern_sound E) as [-> [prev' H]].
    apply url_pattern_inv in H as [_ (g & -> & Hg & Hamp)].
    change (drop 6 (URL_Q ++ g)) with g. split; [done|]. split; [done|].
    apply contains_app.
Qed.

(** ** Truncation of raw content *)

Lemma proper_word_app word tail :
  proper_word word -> Forall (fun c => is_space c = false) tail ->
  proper_word (word ++ tail).
Proof.
  intros [Hne Hw] Ht. split; [by destruct word|]. by apply Forall_app.
Qed.

(** X8. The raw content kept as the last resort of the web path has at
    most 300 words.  Content of up to 300 words keeps all its words, in
    order, joined by single spaces; of longer content the first 300
    words are kept, the dots being attached to the last of them. *)
Theorem truncated_content_words all_content :
  let ws := PyStr.words all_content in
  length (PyStr.words (truncated_content all_content)) <= 300
  /\ (length ws <= 300 ->
      truncated_content all_content = PyStr.join [SP] ws
      /\ PyStr.words (truncated_content all_content) = ws)
  /\ (300 < length ws ->
      exists kept last_word,
        take 300 ws = kept ++ [last_word]
        /\ PyStr.words (truncated_content all_content)
           = kept ++ [last_word ++ txt "..."]).
Proof.
  intros ws. pose proof (words_proper all_content) as Hp. fold ws in Hp.
  assert (Hshort : length ws <= 300 ->
            truncated_content all_content = PyStr.join [SP] ws
            /\ PyStr.words (truncated_content all_content) = ws).
  { intros Hl. unfold truncated_content. fold ws.
    rewrite take_ge by done.
    destruct (Nat.ltb_spec (length ws) (length ws)); [lia|].
    split; [done|]. by apply words_join. }
  assert (Hlong : 300 < length ws ->
            exists kept last_word,
              take 300 ws = kept ++ [last_word]
              /\ PyStr.words (truncated_content all_content)
                 = kept ++ [last_word ++ txt "..."]).
  { intros Hl. unfold truncated_content. fold ws.
    rewrite length_take.
    destruct (Nat.ltb_spec (300 `min` length ws) (length ws)); [|lia].
    assert (Hk : length (take 300 ws) = 300) by (rewrite length_take; lia).
    assert (exists l a, take 300 ws = l ++ [a]) as (l & a & E).
    { destruct (take 300 ws) as [|a l _] using rev_ind; [done|]. by exists l, a. }
    rewrite E. exists l, a. split; [done|].
    rewrite join_snoc. apply words_join.
    assert (Hp' : Forall proper_word (l ++ [a])).
    { rewrite <- E. by apply Forall_take. }
    apply Forall_app in Hp' as [Hl' [Ha _]%Forall_cons].
    apply Forall_app. split; [done|].
    apply Forall_cons. split; [|constructor].
    apply proper_word_app; [done|]. by repeat constructor. }
  split; [|by split].
  destruct (Nat.le_gt_cases (length ws) 300) as [H|H].
  - destruct (Hshort H) as [_ ->]. done.
  - destruct (Hlong H) as (kept & last_word & E & ->).
    apply (f_equal length) in E. rewrite length_take, length_app in E.
    rewrite length_app. cbn [length] in *. lia.
Qed.

(** ** The thresholds of the web path without a generator *)

Lemma call_summarize_short w text max_length min_length s :
  summarizer_loaded s = true -> t5_loads w = true ->
  length (PyStr.words text) < min_length ->
  (call_summarize w text max_length min_length s).1 = Ok text
  /\ trace (call_summarize w text max_length min_length s).2
     = trace s ++ [CallSummarize text].
Proof.
  intros Hs Ht Hl. unfold call_summarize, bind, get_state, emit, ret.
  rewrite Hs, Ht.
  destruct (Nat.ltb_spec (length (PyStr.words text)) min_length); [done|lia].
Qed.

(** X9. Without a generator the web path depends on the number of words
    of the evidence.  Up to 50 words: the heading and the evidence
    trimmed, and no citation block, whatever the sources.  From 51 to 99
    words, with the summarizer at hand: the heading, the evidence as it
    is and the citation block; the summarization model is asked for
    nothing, the text being below its minimum of 100 words.  Above 50
    words without a summarizer: the heading and the truncated evidence,
    again without citation block. *)
Theorem web_fallback_thresholds w user_query all_content sources s :
  let n := length (PyStr.words all_content) in
  (n <= 50 ->
   web_fallback w user_query all_content sources s
   = (Ok (information_header user_query ++ PyStr.strip all_content), s))
  /\ (50 < n < 100 -> summarizer_loaded s = true -> t5_loads w = true ->
      (web_fallback w user_query all_content sources s).1
      = Ok (append_sources (information_header user_query ++ all_content)
              sources)
      /\ trace (web_fallback w user_query all_content sources s).2
         = trace s ++ [CallSummarize all_content])
  /\ (50 < n -> summarizer_loaded s = false ->
      web_fallback w user_query all_content sources s
      = (Ok (information_header user_query ++ truncated_content all_content),
         s)).
Proof.
  intros n. unfold web_fallback, try_catch. split; [|split].
  - intros Hn. destruct (Nat.ltb_spec 50 n); [lia|].
    fold n. destruct (Nat.ltb_spec 50 n); [lia|]. done.
  - intros Hn Hs Ht. fold n. destruct (Nat.ltb_spec 50 n); [|lia].
    unfold bind.
    destruct (call_summarize_short w all_content 300 100 s Hs Ht) as [E1 E2];
      [fold n; lia|].
    destruct (call_summarize w all_content 300 100 s) as [r s'].
    simpl in E1, E2. subst r. done.
  - intros Hn Hs. fold n. destruct (Nat.ltb_spec 50 n); [|lia].
    unfold call_summarize. unfold bind, get_state. cbv beta iota.
    rewrite Hs. done.
Qed.

(** ** Summaries of events, one by one and in a batch *)

(** Nothing to summarize: every event is returned as it is. *)
Lemma map_result_no_text w i l :
  (collect_texts i l).1 = [] ->
  map_result (summarize_crisis_data w) l = Ok l.
Proof.
  revert i. induction l as [|d l IH]; intros i; [done|].
  cbn [collect_texts map_result]. unfold summarize_crisis_data at 1.
  destruct (truthy_value d "text"); [done|]. intros H.
  cbn. by rewrite (IH (S i)).
Qed.

Lemma map_result_not_loaded w i l :
  t5_loads w = false ->
  (collect_texts i l).1 <> [] ->
  map_result (summarize_crisis_data w) l = Raise.
Proof.
  intros Ht. revert i. induction l as [|d l IH]; intros i; [done|].
  cbn [collect_texts map_result].
  unfold summarize_crisis_data at 1, summarize.
  destruct (truthy_value d "text"); [by rewrite Ht|].
  intros H. cbn. by rewrite (IH (S i)).
Qed.

Lemma summarize_loaded w text max_length min_length :
  t5_loads w = true ->
  summarize w text max_length min_length
  = match text with
    | PyStr s =>
        if length (PyStr.words s) <? min_length then Ok s
        else t5_generate w s max_length min_length
    | _ => Raise
    end.
Proof. intros Ht. unfold summarize. by rewrite Ht. Qed.

(** The second loop writes, at the places the first loop noted, what the
    one-by-one run writes. *)
Lemma assign_summaries_pointwise w l :
  t5_loads w = true ->
  forall pre done,
    match summarize_each w (collect_texts (length pre) l).1 150 40 with
    | Ok ss =>
        exists l',
          map_result (summarize_crisis_data w) l = Ok l'
          /\ assign_summaries (length done) (collect_texts (length pre) l).2
               (done ++ ss) (pre ++ l)
             = Ok (pre ++ l')
    | Raise => map_result (summarize_crisis_data w) l = Raise
    end.
Proof.
  intros Ht. induction l as [|d l IH]; intros pre done.
  - cbn. exists []. by rewrite !app_nil_r.
  - cbn [collect_texts map_result].
    unfold summarize_crisis_data at 1 3.
    specialize (IH (pre ++ [d])) as IH0.
    rewrite length_app, Nat.add_1_r in IH0.
    destruct (truthy_value d "text") as [text|] eqn:Hv.
    + cbn [fst snd summarize_each]. rewrite summarize_loaded by done.
      destruct (match text with
                | PyStr s =>
                    if length (PyStr.words s) <? 40 then Ok s
                    else t5_generate w s 150 40
                | _ => Raise
                end) as [summary|]; [|done].
      cbn [result_bind].
      specialize (IH (pre ++ [<["summary" := PyStr summary]> d])
                    (done ++ [summary])).
      rewrite !length_app, !Nat.add_1_r in IH.
      destruct (summarize_each w (collect_texts (S (length pre)) l).1 150 40)
        as [ss|]; cbn [result_bind]; [|by rewrite IH].
      destruct IH as (l' & -> & IH). cbn [result_bind].
      eexists. split; [done|].
      cbn [assign_summaries].
      rewrite list_lookup_middle by done.
      rewrite (list_lookup_middle done ss summary) by done.
      rewrite insert_app_r_alt by done. rewrite Nat.sub_diag. cbn [insert list_insert].
      rewrite <- !app_assoc in IH. exact IH.
    + cbn [fst snd].
      specialize (IH0 done).
      destruct (summarize_each w (collect_texts (S (length pre)) l).1 150 40)
        as [ss|]; cbn [result_bind]; [|by rewrite IH0].
      destruct IH0 as (l' & -> & IH0). cbn [result_bind].
      eexists. split; [done|].
      rewrite <- !app_assoc in IH0. exact IH0.
Qed.

(** X10. Summarizing a list of events in a batch gives what summarizing
    them one by one gives: the same events with the same summaries at
    the same places, or a failure when one of the runs fails. *)
Theorem summarize_batch_pointwise w crisis_data_list :
  summarize_crisis_data_batch w crisis_data_list
  = map_result (summarize_crisis_data w) crisis_data_list.
Proof.
  unfold summarize_crisis_data_batch.
  destruct (collect_texts 0 crisis_data_list).1 as [|t ts] eqn:E;
    cbn [is_nil negb].
  - symmetry. by apply (map_result_no_text w 0).
  - unfold summarize_batch. destruct (t5_loads w) eqn:Ht; cbn [negb].
    + pose proof (assign_summaries_pointwise w crisis_data_list Ht [] [])
        as H. cbn [length app] in H. rewrite E in H.
      destruct (summarize_each w (t :: ts) 150 40) as [ss|];
        cbn [result_bind]; [|done].
      by destruct H as (l' & -> & ->).
    + cbn [result_bind]. symmetry.
      apply (map_result_not_loaded w 0); [done|]. by rewrite E.
Qed.

(** ** Cleaning of loaded events *)

Lemma has_value_insert (d : dict) k v k' :
  has_value (<[k := v]> d) k'
  = if bool_decide (k = k') then truthy v else has_value d k'.
Proof.
  unfold has_value. case_bool_decide as E.
  - subst. by rewrite lookup_insert_eq.
  - by rewrite lookup_insert_ne.
Qed.

Lemma truthy_value_Some d k v :
  truthy_value d k = Some v -> d !! k = Some v /\ truthy v = true.
Proof.
  unfold truthy_value. destruct (d !! k) as [x|]; [|done].
  destruct (truthy x) eqn:E; [|done]. by intros [= <-].
Qed.

Lemma truthy_value_has d k :
  has_value d k = bool_decide (is_Some (truthy_value d k)).
Proof.
  unfold has_value, truthy_value. destruct (d !! k) as [x|].
  - destruct (truthy x).
    + by rewrite bool_decide_eq_true_2.
    + rewrite bool_decide_eq_false_2; [done|]. by intros [? ?].
  - rewrite bool_decide_eq_false_2; [done|]. by intros [? ?].
Qed.

Lemma clean_event_complete today event :
  complete_event event -> clean_event today event = Some event.
Proof.
  intros (Ht & Hs & Hd). unfold clean_event. rewrite Ht, Hs. cbn [negb].
  by rewrite Hd.
Qed.

Lemma clean_event_spec today event event' :
  today <> [] ->
  clean_event today event = Some event' ->
  complete_event event'
  /\ has_value event "title" = true
  /\ forall k, k <> "summary" -> k <> "date" -> event' !! k = event !! k.
Proof.
  intros Hne. unfold clean_event.
  destruct (has_value event "title") eqn:Ht; [|done]. cbn [negb].
  destruct (has_value event "summary") eqn:Hs; cbn [negb].
  - destruct (has_value event "date") eqn:Hd; cbn [negb]; intros [= <-].
    + done.
    + split; [|split; [done|]].
      * unfold complete_event. rewrite !has_value_insert.
        repeat (case_bool_decide; try done). by destruct today.
      * intros k _ Hk. by rewrite lookup_insert_ne.
  - destruct (truthy_value event "text") as [text|] eqn:Hv; [|done].
    apply truthy_value_Some in Hv as [_ Htext].
    destruct (has_value (<["summary":=text]> event) "date") eqn:Hd;
      cbn [negb]; intros [= <-].
    + split; [|split; [done|]].
      * unfold complete_event. rewrite Hd. rewrite !has_value_insert.
        repeat (case_bool_decide; try done).
      * intros k Hk _. by rewrite lookup_insert_ne.
    + split; [|split; [done|]].
      * unfold complete_event. rewrite !has_value_insert.
        repeat (case_bool_decide; try done). by destruct today.
      * intros k Hk Hk'. by rewrite !lookup_insert_ne.
Qed.

Lemma clean_crisis_data_fixed today crisis_data :
  Forall complete_event crisis_data ->
  clean_crisis_data today crisis_data = crisis_data.
Proof.
  unfold clean_crisis_data.
  induction 1 as [|event l H _ IH]; [done|].
  cbn. rewrite clean_event_complete by done. cbn. by f_equal.
Qed.

Lemma clean_crisis_data_all_complete today crisis_data :
  today <> [] -> Forall complete_event (clean_crisis_data today crisis_data).
Proof.
  intros Hne. unfold clean_crisis_data.
  induction crisis_data as [|event l IH]; [constructor|].
  cbn. destruct (clean_event today event) as [event'|] eqn:E; cbn; [|done].
  constructor; [|done]. by apply (clean_event_spec today event).
Qed.

(** X11. Every event that the cleaning lets through has a title, a
    summary and a date that are present and not empty; it is an event of
    the input, in the input order, changed at most in its summary and
    its date; and an event without title never gets through. *)
Theorem clean_crisis_data_complete today crisis_data :
  today <> [] ->
  Forall complete_event (clean_crisis_data today crisis_data)
  /\ length (clean_crisis_data today crisis_data) <= length crisis_data
  /\ exists kept,
       kept `sublist_of` crisis_data
       /\ Forall (fun event => has_value event "title" = true) kept
       /\ Forall2 (fun event event' =>
                     forall k, k <> "summary" -> k <> "date" ->
                               event' !! k = event !! k)
            kept (clean_crisis_data today crisis_data).
Proof.
  intros Hne. split; [by apply clean_crisis_data_all_complete|].
  unfold clean_crisis_data.
  induction crisis_data as [|event l [IHl (kept & Hsub & Ht & Hk)]].
  - split; [done|]. exists []. by repeat constructor.
  - cbn. destruct (clean_event today event) as [event'|] eqn:E; cbn.
    + apply (clean_event_spec today event) in E as (_ & Htitle & Hkeys);
        [|done].
      split; [lia|]. exists (event :: kept).
      split; [by constructor|]. split; by constructor.
    + split; [lia|]. exists kept. split; [by constructor|]. done.
Qed.

(** X12. Events that already have a title, a summary and a date pass the
    cleaning unchanged, so cleaning what was cleaned, on whatever day,
    changes nothing. *)
Theorem clean_crisis_data_idempotent today today' crisis_data :
  today <> [] ->
  (Forall complete_event crisis_data ->
   clean_crisis_data today crisis_data = crisis_data)
  /\ clean_crisis_data today' (clean_crisis_data today crisis_data)
     = clean_crisis_data today crisis_data.
Proof.
  intros Hne. split; [apply clean_crisis_data_fixed|].
  by apply clean_crisis_data_fixed, clean_crisis_data_all_complete.
Qed.

(** ** Listing of stored events *)

Lemma get_all_crisis_events_ok db docs limit skip :
  connected db = true -> collection db = Some docs -> cursor_ok db = true ->
  Forall (fun d : dict => is_Some (d !! "_id")) docs ->
  get_all_crisis_events db limit skip
  = with_string_ids (limit_docs limit (drop skip docs)).
Proof.
  intros Hc Hd Hok Hid. unfold get_all_crisis_events, is_db_available.
  rewrite Hc, Hd. rewrite bool_decide_eq_true_2 by done. cbn [andb negb].
  unfold find_skip_limit. rewrite Hd, Hok. cbn [result_bind].
  rewrite stringify_ids_ok; [done|].
  apply limit_docs_sublist. by apply Forall_drop.
Qed.

(** X13. On a reachable store whose documents have identifiers, the
    listing returns the documents after the first [skip], cut to [limit]
    (all of them for a limit of 0), with their identifiers as text: at
    most [limit] of them, and two pages in a row make up the page of
    twice the size. *)
Theorem get_all_crisis_events_pages db docs limit skip :
  connected db = true -> collection db = Some docs -> cursor_ok db = true ->
  Forall (fun d : dict => is_Some (d !! "_id")) docs ->
  get_all_crisis_events db limit skip
  = with_string_ids (limit_docs limit (drop skip docs))
  /\ get_all_crisis_events db 0 0 = with_string_ids docs
  /\ (0 < limit ->
      length (get_all_crisis_events db limit skip) <= limit
      /\ get_all_crisis_events db limit skip
         ++ get_all_crisis_events db limit (skip + limit)
         = get_all_crisis_events db (2 * limit) skip).
Proof.
  intros Hc Hd Hok Hid.
  pose proof (get_all_crisis_events_ok db docs) as E.
  split; [by apply E|]. split; [by rewrite E|].
  intros Hl. rewrite !E by done. unfold limit_docs, with_string_ids.
  destruct (Nat.eqb_spec limit 0); [lia|].
  destruct (Nat.eqb_spec (2 * limit) 0); [lia|].
  split.
  - rewrite length_map, length_take. lia.
  - rewrite <- map_app. f_equal.
    rewrite <- drop_drop.
    replace (2 * limit) with (limit + limit) by lia.
    by rewrite take_take_drop.
Qed.

(** X14. When the index search finds nothing or fails, the vector search
    returns the first page of the plain listing. *)
Theorem search_by_vector_is_listing db v limit :
  knn db (resize_vector v) limit = Ok []
  \/ knn db (resize_vector v) limit = Raise ->
  search_by_vector db v limit = get_all_crisis_events db limit 0.
Proof.
  intros H. unfold search_by_vector, get_all_crisis_events.
  destruct (is_db_available db); [|done]. cbn [negb].
  unfold vector_search_body. rewrite vector_or_find_fallback by done.
  unfold find_limit, find_skip_limit. by destruct (collection db).
Qed.

(** ** The dimension of query vectors *)

Lemma resize_vector_length v : length (resize_vector v) = VECTOR_DIMENSION.
Proof.
  unfold resize_vector. case_bool_decide as H.
  - destruct (Nat.ltb_spec VECTOR_DIMENSION (length v)).
    + rewrite length_take. lia.
    + rewrite length_app, length_replicate. lia.
  - done.
Qed.

Lemma resize_vector_fixed v :
  length v = VECTOR_DIMENSION -> resize_vector v = v.
Proof.
  intros H. unfold resize_vector. by rewrite bool_decide_eq_false_2 by auto.
Qed.

(** X15. The vector given to the index always has the dimension of the
    index: a longer query vector is cut, a shorter one is filled with
    zeros, its own entries staying in front; a vector of the right
    dimension is left alone; and resizing before the search changes
    nothing of its result. *)
Theorem resize_vector_dimension v :
  length (resize_vector v) = VECTOR_DIMENSION
  /\ take (length v) (resize_vector v) = take VECTOR_DIMENSION v
  /\ (length v = VECTOR_DIMENSION -> resize_vector v = v)
  /\ (length v < VECTOR_DIMENSION ->
      drop (length v) (resize_vector v)
      = replicate (VECTOR_DIMENSION - length v) 0%Z)
  /\ forall db limit,
       search_by_vector db (resize_vector v) limit
       = search_by_vector db v limit.
Proof.
  split; [apply resize_vector_length|].
  split; [|split; [apply resize_vector_fixed|split]].
  - unfold resize_vector. case_bool_decide as H.
    + destruct (Nat.ltb_spec VECTOR_DIMENSION (length v)).
      * rewrite take_take. f_equal. lia.
      * rewrite take_app_length. by rewrite take_ge.
    + rewrite <- H. done.
  - intros H. unfold resize_vector.
    rewrite bool_decide_eq_true_2 by lia.
    destruct (Nat.ltb_spec VECTOR_DIMENSION (length v)); [lia|].
    by rewrite drop_app_length.
  - intros db limit. unfold search_by_vector, vector_search_body.
    by rewrite (resize_vector_fixed (resize_vector v))
      by apply resize_vector_length.
Qed.

(** ** The search endpoints *)

Lemma search_by_text_embedded w db query limit v :
  embedding w query = Ok v ->
  search_by_text (embedding w) db query limit = search_by_vector db v limit.
Proof.
  intros E. unfold search_by_text. rewrite E. cbn [result_bind].
  unfold search_by_vector. by destruct (is_db_available db).
Qed.

Lemma search_by_text_failed w db query limit :
  embedding w query = Raise ->
  search_by_text (embedding w) db query limit = [].
Proof.
  intros E. unfold search_by_text. rewrite E.
  by destruct (is_db_available db).
Qed.

(** X16. The text-search endpoint always answers, with the query and
    with a count that is the number of its results.  When the embedding
    of the query is produced it answers what the vector-search endpoint
    answers; when the embedding fails the vector-search endpoint fails
    while the text-search endpoint answers with no results. *)
Theorem text_search_never_fails w query limit s :
  (exists r,
     (text_search w query limit s).1 = Ok r
     /\ sr_query r = query /\ sr_count r = length (sr_results r))
  /\ (forall v,
        embedding w query = Ok v ->
        (text_search w query limit s).1 = (search w query limit s).1)
  /\ (embedding w query = Raise ->
      (search w query limit s).1 = Raise
      /\ (text_search w query limit s).1 = Ok (SearchResponse [] 0 query)).
Proof.
  split; [|split].
  - eexists. by split.
  - intros v E. unfold text_search, search, try_catch, bind,
      call_search_by_text, call_search_by_vector, call_embedding, bind, emit,
      get_state, lift, ret.
    cbn. rewrite E. cbn. by rewrite (search_by_text_embedded w _ _ _ v).
  - intros E. unfold text_search, search, try_catch, bind,
      call_search_by_text, call_search_by_vector, call_embedding, bind, emit,
      get_state, lift, ret, raise.
    cbn. rewrite E. cbn. by rewrite search_by_text_failed.
Qed.

(** ** What a response costs *)

Ltac trace_leaf :=
  cbn [trace snd fst model_loaded summarizer_loaded db];
  first
    [ exists [], [], []; split; [by rewrite ?app_nil_r|];
      apply sublist_nil_l
    | eexists [CallGenerate _], _, []; split;
      [rewrite <- ?app_assoc; reflexivity|];
      apply sublist_skip, sublist_cons, sublist_nil
    | eexists [CallSummarize _], [], _; split;
      [rewrite <- ?app_assoc; reflexivity|];
      apply sublist_cons, sublist_skip, sublist_nil
    | eexists [_; _], _, _; split;
      [rewrite <- ?app_assoc; reflexivity|];
      apply sublist_skip, sublist_skip, sublist_nil ].

Lemma web_based_cost w user_query web_data context_data s :
  exists evs prompt text,
    trace (generate_web_based_response w user_query web_data context_data s).2
    = trace s ++ evs
    /\ evs `sublist_of` [CallGenerate prompt; CallSummarize text].
Proof.
  unfold generate_web_based_response, web_fallback, call_generate,
    call_summarize, load_summarizer, load_model, try_catch, bind, get_state,
    set_summarizer_loaded, set_model_loaded, emit, lift, ret, raise.
  destruct s as [ml sl d tr]. cbn [model_loaded summarizer_loaded db trace].
  destruct sl; destruct (summarizer_loads w);
    destruct (gather_evidence web_data context_data)
      as [[all_content sources]|];
    destruct ml; destruct (llm_loads w);
    cbn [negb fst snd model_loaded summarizer_loaded db trace];
    try trace_leaf.
  all: repeat match goal with
       | |- context [?a <? ?b] => destruct (a <? b)
       | |- context [t5_loads ?w0] => destruct (t5_loads w0)
       | |- context [t5_generate ?w0 ?a ?b ?c] =>
           destruct (t5_generate w0 a b c)
       end;
    cbn [negb fst snd model_loaded summarizer_loaded db trace];
    try trace_leaf.
Qed.

Lemma db_based_cost w user_query context_data s :
  exists evs prompt text,
    trace (generate_db_based_response w user_query context_data s).2
    = trace s ++ evs
    /\ evs `sublist_of` [CallGenerate prompt; CallSummarize text].
Proof.
  unfold generate_db_based_response, call_generate,
    call_summarize, load_summarizer, load_model, try_catch, bind, get_state,
    set_summarizer_loaded, set_model_loaded, emit, lift, ret, raise.
  destruct s as [ml sl d tr]. cbn [model_loaded summarizer_loaded db trace].
  destruct (format_context context_data) as [formatted_context|];
    destruct ml; destruct (llm_loads w);
    cbn [negb fst snd model_loaded summarizer_loaded db trace];
    try trace_leaf.
  all: repeat match goal with
       | |- context [for_each ?f ?l ?a] => destruct (for_each f l a)
       end;
    cbn [negb fst snd model_loaded summarizer_loaded db trace];
    try trace_leaf.
  all: repeat match goal with
       | |- context [negb (PyStr.is_empty ?a) && (?b <? ?c)] =>
           destruct (negb (PyStr.is_empty a) && (b <? c))
       end;
    cbn [negb fst snd model_loaded summarizer_loaded db trace];
    try trace_leaf.
  all: destruct sl; destruct (summarizer_loads w);
    cbn [negb fst snd model_loaded summarizer_loaded db trace];
    try trace_leaf.
  all: repeat match goal with
       | |- context [?a <? ?b] => destruct (a <? b)
       | |- context [t5_loads ?w0] => destruct (t5_loads w0)
       | |- context [t5_generate ?w0 ?a ?b ?c] =>
           destruct (t5_generate w0 a b c)
       | |- context [structured_events ?i ?l] =>
           destruct (structured_events i l)
       end;
    cbn [negb fst snd model_loaded summarizer_loaded db trace];
    try trace_leaf.
Qed.

Lemma trace_then_ret {A B} (m : M A) (f : A -> B) s :
  trace ((x <~ m ;; ret (f x)) s).2 = trace (m s).2.
Proof. unfold bind, ret. by destruct (m s) as [[a|] s']. Qed.

(** X17. A response costs at most one call of the generator and one of
    the summarizer, the second after the first; the web source is asked
    once more, first of all and for five results, only when there is no
    evidence at all; and nothing else is called: neither the embedding
    model nor the store. *)
Theorem response_cost w user_query context_data web_data s :
  exists evs prompt text,
    trace (generate_response w user_query context_data web_data s).2
    = trace s ++ evs
    /\ evs `sublist_of` [CallWebSearch user_query 5;
                         CallGenerate prompt; CallSummarize text]
    /\ (context_data <> [] \/ web_data <> [] ->
        CallWebSearch user_query 5 ∉ evs).
Proof.
  assert (Hskip : forall evs prompt text,
            evs `sublist_of` [CallGenerate prompt; CallSummarize text] ->
            CallWebSearch user_query 5 ∉ evs).
  { intros evs prompt text Hs Hin.
    apply (elem_of_sublist _ _ _ Hin) in Hs. clear Hin. rename Hs into Hin.
    repeat (apply elem_of_cons in Hin as [?|Hin]; [done|]).
    by apply elem_of_nil in Hin. }
  destruct context_data as [|ev context_data], web_data as [|data web_data].
  - unfold generate_response. cbn [is_nil andb].
    unfold bind at 1. unfold bind at 1.
    unfold try_catch, call_web_search, bind, emit, lift, ret.
    cbn [fst snd]. set (s1 := {| trace := trace s ++ _ |}).
    assert (Hs1 : trace s1 = trace s ++ [CallWebSearch user_query 5]) by done.
    destruct (web_search w user_query 5) as [[|data web_data]|];
      cbn [is_nil andb orb fst snd negb length Nat.eqb Nat.ltb Nat.leb].
    + unfold ret. cbn [snd]. rewrite Hs1.
      exists [CallWebSearch user_query 5], [], [].
      split; [done|]. split; [by apply sublist_skip, sublist_nil_l|].
      by intros [?|?].
    + destruct (web_based_cost w user_query (data :: web_data) [] s1)
        as (evs & prompt & text & E & Hs).
      exists (CallWebSearch user_query 5 :: evs), prompt, text.
      split; [|split; [by apply sublist_skip|by intros [?|?]]].
      destruct (generate_web_based_response w user_query (data :: web_data)
                  [] s1) as [[a|] s'];
        cbn [snd] in *; by rewrite E, Hs1, <- app_assoc.
    + unfold ret. cbn [snd]. rewrite Hs1.
      exists [CallWebSearch user_query 5], [], [].
      split; [done|]. split; [by apply sublist_skip, sublist_nil_l|].
      by intros [?|?].
  - rewrite generate_response_composes by (right; done). cbn [is_nil].
    rewrite (trace_then_ret _ format_response_text).
    destruct (web_based_cost w user_query (data :: web_data) [] s)
      as (evs & prompt & text & -> & Hs).
    exists evs, prompt, text. split; [done|].
    split; [by apply sublist_cons|]. intros _. by eapply Hskip.
  - rewrite generate_response_composes by (left; done). cbn [is_nil].
    rewrite (trace_then_ret _ format_response_text).
    destruct (db_based_cost w user_query (ev :: context_data) s)
      as (evs & prompt & text & -> & Hs).
    exists evs, prompt, text. split; [done|].
    split; [by apply sublist_cons|]. intros _. by eapply Hskip.
  - rewrite generate_response_composes by (left; done). cbn [is_nil].
    rewrite (trace_then_ret _ format_response_text).
    destruct (web_based_cost w user_query (data :: web_data)
                (ev :: context_data) s)
      as (evs & prompt & text & -> & Hs).
    exists evs, prompt, text. split; [done|].
    split; [by apply sublist_cons|]. intros _. by eapply Hskip.
Qed.

(** ** A failing embedding model *)

(** X18. When the embedding of the query fails, [find_and_respond]
    answers with its error text after the web search and the embedding
    call, whatever the web search found, and composes nothing; the
    evidence step of the llm-response endpoint goes on with the web
    evidence and no database results. *)
Theorem embedding_failure w query max_results s :
  embedding w query = Raise ->
  find_and_respond w query max_results s
  = (Ok (search_error query),
     {| model_loaded := model_loaded s;
        summarizer_loaded := summarizer_loaded s;
        db := db s;
        trace := trace s ++ [CallWebSearch query 3; CallEmbedding query] |})
  /\ let k := if is_california_wildfire query then 5 else 3 in
     let web_data := web_result w query k in
     (gather w query s).1 = Ok ((web_data, collect_web_sources web_data), []).
Proof.
  intros E. split.
  - unfold find_and_respond, try_catch, call_web_search, call_embedding, bind,
      emit, lift, ret. cbn [fst snd].
    destruct (web_search w query 3) as [web_data|];
      cbn [trace model_loaded summarizer_loaded db]; rewrite E;
      by rewrite <- app_assoc.
  - cbv zeta. unfold gather, fetch_web, fetch_database, web_result, try_catch,
      call_web_search, call_embedding, bind, emit, lift, ret, get_state.
    cbn [fst snd].
    destruct (web_search w query _) as [web_data|]; cbn [fst snd].
    + destruct (negb (is_california_wildfire query) || (length web_data <? 2));
        [|done].
      destruct (is_connected w); cbn [negb].
      * cbn [fst snd]. by rewrite E.
      * destruct (connect w); cbn [fst snd]; [by rewrite E|done].
    + destruct (negb (is_california_wildfire query) || (length [] <? 2));
        [|done].
      destruct (is_connected w); cbn [negb].
      * cbn [fst snd]. by rewrite E.
      * destruct (connect w); cbn [fst snd]; [by rewrite E|done].
Qed.

(** ** The crisis-query endpoint *)

(** X19. The crisis-query endpoint never answers with an error: for
    every query it returns what the extractor reads in the text of
    [find_and_respond], and it gives a source list exactly when that
    text holds the marker. *)
Theorem crisis_query_never_fails w query max_results s :
  exists text answer s',
    find_and_respond w query max_results s = (Ok text, s')
    /\ crisis_query w query max_results s = (Ok answer, s')
    /\ extract_sources text = Ok answer
    /\ (cr_sources answer = None
        <-> PyStr.contains SOURCES_MARKER text = false).
Proof.
  destruct (try_catch_total
              (web_data <~ try_catch (call_web_search w query 3) (ret []) ;;
               query_embedding <~ call_embedding w query ;;
               results <~ search_with_fallback w query query_embedding
                            max_results ;;
               generate_response w query results web_data)
              (search_error query) s) as (text & s' & E).
  fold (find_and_respond w query max_results) in E.
  destruct (extract_sources_spec text) as [Hno Hyes].
  assert (exists answer,
            extract_sources text = Ok answer
            /\ (cr_sources answer = None
                <-> PyStr.contains SOURCES_MARKER text = false))
    as (answer & Ha & Hs).
  { destruct (PyStr.contains SOURCES_MARKER text) eqn:Hc.
    - destruct (Hyes eq_refl) as (before & tail & _ & _ & ->).
      eexists. split; [done|]. done.
    - rewrite (Hno eq_refl). eexists. split; [done|]. done. }
  exists text, answer, s'. split; [done|]. split; [|by split].
  unfold crisis_query, try_catch, bind, lift. by rewrite E, Ha.
Qed.

(** ** The evidence steps of [find_and_respond] *)

Lemma then_ret_total {A B} (m : M A) (f : A -> B) s :
  (exists a s', m s = (Ok a, s')) ->
  exists b s', (x <~ m ;; ret (f x)) s = (Ok b, s').
Proof. intros (a & s' & E). unfold bind, ret. rewrite E. by eexists _, _. Qed.

(** The composer returns a text, whatever its collaborators do. *)
Lemma generate_response_total w user_query context_data web_data s :
  exists text s',
    generate_response w user_query context_data web_data s = (Ok text, s').
Proof.
  destruct context_data as [|ev context_data], web_data as [|data web_data].
  - unfold generate_response. cbn [is_nil andb].
    unfold bind at 1. unfold bind at 1.
    destruct (try_catch_total (call_web_search w user_query 5) [] s)
      as (web & s1 & ->).
    unfold ret at 1. cbn [fst snd is_nil andb].
    destruct web as [|data web];
      cbn [is_nil andb orb fst snd negb length Nat.eqb Nat.ltb Nat.leb].
    + by eexists _, _.
    + apply then_ret_total. apply try_catch_total.
  - rewrite generate_response_composes by (right; done). cbn [is_nil].
    apply then_ret_total. apply try_catch_total.
  - rewrite generate_response_composes by (left; done). cbn [is_nil].
    apply then_ret_total. apply try_catch_total.
  - rewrite generate_response_composes by (left; done). cbn [is_nil].
    apply then_ret_total. apply try_catch_total.
Qed.

(** X20. With the embedding of the query produced, [find_and_respond]
    asks the web source for three results, whatever the query, embeds the
    query and searches the store whatever the web source found, with the
    text search exactly when the vector search returned nothing, and then
    answers what the composer answers on that evidence: the special case
    of the llm-response endpoint has no part in it. *)
Theorem find_and_respond_policy w query max_results s v :
  embedding w query = Ok v ->
  let web_data := web_result w query 3 in
  let found := search_by_vector (db s) v max_results in
  let results :=
    if is_nil found
    then search_by_text (embedding w) (db s) query max_results
    else found in
  let calls :=
    [CallWebSearch query 3; CallEmbedding query;
     CallVectorSearch v max_results]
    ++ (if is_nil found then [CallTextSearch query max_results] else []) in
  find_and_respond w query max_results s
  = generate_response w query results web_data
      {| model_loaded := model_loaded s;
         summarizer_loaded := summarizer_loaded s;
         db := db s;
         trace := trace s ++ calls |}.
Proof.
  intros E. cbv zeta.
  set (s1 := {| trace := trace s ++ _ |}).
  destruct (generate_response_total w query
              (if is_nil (search_by_vector (db s) v max_results)
               then search_by_text (embedding w) (db s) query max_results
               else search_by_vector (db s) v max_results)
              (web_result w query 3) s1) as (text & s' & Hg).
  rewrite Hg. unfold find_and_respond, try_catch.
  unfold bind at 1. unfold try_catch, call_web_search. unfold bind at 1.
  unfold emit, lift. cbn [fst snd].
  assert (Hbody : forall web_data tr,
    web_data = web_result w query 3 ->
    tr = trace s ++ [CallWebSearch query 3] ->
    (query_embedding <~ call_embedding w query ;;
     results <~ search_with_fallback w query query_embedding max_results ;;
     generate_response w query results web_data)
      {| model_loaded := model_loaded s;
         summarizer_loaded := summarizer_loaded s;
         db := db s; trace := tr |}
    = (Ok text, s')).
  { intros web_data tr -> ->.
    unfold call_embedding, search_with_fallback, call_search_by_vector,
      call_search_by_text, bind, emit, lift, get_state, ret.
    cbn [fst snd db trace model_loaded summarizer_loaded]. rewrite E.
    cbn [fst snd db trace model_loaded summarizer_loaded].
    rewrite <- Hg. unfold s1.
    destruct (search_by_vector (db s) v max_results) as [|d found];
      cbn [is_nil fst snd db trace model_loaded summarizer_loaded app];
      by rewrite <- !app_assoc. }
  unfold web_result in Hbody.
  destruct (web_search w query 3) as [web_data|]; cbn [fst snd].
  - by rewrite (Hbody web_data _ eq_refl eq_refl).
  - unfold ret at 1. by rewrite (Hbody [] _ eq_refl eq_refl).
Qed.

(** ** The answer of the llm-response endpoint *)



Lemma find_and_respond_policy_witness :
  trace (find_and_respond sample_world fire_query 5
           (initial_state sample_store)).2
  = trace (generate_response sample_world fire_query
             (search_by_vector sample_store [1%Z; 2%Z] 5)
             (web_result sample_world fire_query 3)
             {| model_loaded := false; summarizer_loaded := false;
                db := sample_store;
                trace := [CallWebSearch fire_query 3; CallEmbedding fire_query;
                          CallVectorSearch [1%Z; 2%Z] 5] |}).2.
Proof.
  rewrite (find_and_respond_policy sample_world fire_query 5
             (initial_state sample_store) [1%Z; 2%Z] eq_refl).
  reflexivity.
Defined.

(** ** The context of the database path *)

Lemma join_values_ok sep values :
  Forall (fun v => exists s, v = PyStr s) values ->
  exists out, join_values sep values = Ok out.
Proof.
  induction 1 as [|v values [s ->] _ [out IH]]; [by eexists|].
  cbn [join_values]. destruct values as [|v' values]; [by eexists|].
  rewrite IH. by eexists.
Qed.

Lemma join_values_raise sep values v :
  v ∈ values -> (forall s, v <> PyStr s) -> join_values sep values = Raise.
Proof.
  intros Hin Hv. induction values as [|x values IH];
    [by apply elem_of_nil in Hin|].
  apply elem_of_cons in Hin as [<-|Hin].
  - destruct v as [|s|hex]; [by destruct values| |by destruct values].
    by destruct (Hv s).
  - cbn [join_values]. destruct x as [|s|hex]; [done| |done].
    destruct values as [|y values]; [by apply elem_of_nil in Hin|].
    by rewrite (IH Hin).
Qed.

Lemma present_values_elem (d : dict) keys v :
  v ∈ present_values d keys
  <-> exists k, k ∈ keys /\ d !! k = Some v /\ truthy v = true.
Proof.
  unfold present_values. rewrite list_elem_of_omap. split.
  - intros (k & Hk & H). exists k. split; [done|].
    unfold has_value in H. destruct (d !! k) as [x|] eqn:E; [|done].
    destruct (truthy x) eqn:T; [|done]. by injection H as ->.
  - intros (k & Hk & E & T). exists k. split; [done|].
    unfold has_value. by rewrite E, T.
Qed.

Lemma format_context_item_raise i ev :
  odd_location ev -> format_context_item i ev = Raise.
Proof.
  intros (k & v & Hk & E & T & Hv). unfold format_context_item.
  assert (Hin : v ∈ present_values ev ["country"; "location"]).
  { apply present_values_elem. by exists k. }
  rewrite bool_decide_eq_false_2 by (intros H; rewrite H in Hin;
                                      by apply elem_of_nil in Hin).
  rewrite (join_values_raise _ _ v Hin); [done|].
  intros s ->. by apply Hv.
Qed.

Lemma format_context_item_ok i ev :
  ~ odd_location ev -> exists item, format_context_item i ev = Ok item.
Proof.
  intros Hn. unfold format_context_item.
  case_bool_decide as Hl; [cbn [result_bind]; eexists; reflexivity|].
  destruct (join_values_ok (txt ", ")
              (present_values ev ["country"; "location"])) as [out ->];
    [|cbn [result_bind]; eexists; reflexivity].
  rewrite Forall_forall. intros v (k & Hk & E & T)%present_values_elem.
  destruct v as [|s|hex]; [done|by exists s|].
  exfalso. apply Hn. exists k, (PyOid hex).
  split; [done|]. split; [done|]. split; [done|]. intros H. exact H.
Qed.

Lemma format_context_items_raise i context_data :
  Exists odd_location context_data ->
  format_context_items i context_data = Raise.
Proof.
  intros H. revert i. induction H as [ev l H|ev l _ IH]; intros i;
    cbn [format_context_items].
  - by rewrite format_context_item_raise.
  - rewrite IH. by destruct (format_context_item i ev).
Qed.

Lemma format_context_items_ok i context_data :
  Forall (fun ev => ~ odd_location ev) context_data ->
  exists items, format_context_items i context_data = Ok items.
Proof.
  intros H. revert i. induction H as [|ev l H _ IH]; intros i;
    cbn [format_context_items]; [by eexists|].
  destruct (format_context_item_ok i ev H) as [item ->].
  destruct (IH (S i)) as [items ->]. cbn [result_bind]. eexists; reflexivity.
Qed.

(** X22. The context of the database path cannot be written when an
    event has a country or a location that is not text: the database
    path then answers with the numbered list of titles, without asking
    the generator or the summarizer for anything.  When every country
    and location is text the context is written. *)
Theorem db_context_needs_text_location w user_query context_data s :
  (Exists odd_location context_data ->
   format_context context_data = Raise
   /\ generate_db_based_response w user_query context_data s
      = (Ok (simple_response user_query context_data), s))
  /\ (Forall (fun ev => ~ odd_location ev) context_data ->
      exists formatted_context,
        format_context context_data = Ok formatted_context).
Proof.
  split.
  - intros H.
    assert (E : format_context context_data = Raise).
    { unfold format_context. by rewrite format_context_items_raise. }
    split; [done|].
    unfold generate_db_based_response, try_catch. unfold bind at 1.
    unfold lift. by rewrite E.
  - intros H. unfold format_context.
    destruct (format_context_items_ok 1 context_data H) as [items ->].
    cbn [result_bind]. eexists; reflexivity.
Qed.

Lemma db_context_needs_text_location_witness :
  generate_db_based_response sample_world (txt "etna") [located_record]
    (initial_state sample_store)
  = (Ok (txt "I found the following information about 'etna':" ++ BLANK
         ++ txt "1. Etna" ++ [NL]),
     initial_state sample_store).
Proof.
  destruct (db_context_needs_text_location sample_world (txt "etna")
              [located_record] (initial_state sample_store)) as [H _].
  destruct H as [_ ->].
  - apply Exists_cons_hd. exists "location", (PyOid (txt "65c1")).
    split; [apply elem_of_cons; right; apply elem_of_cons; by left|].
    split; [reflexivity|]. split; [reflexivity|]. intros H. exact H.
  - reflexivity.
Defined.

(** ** The further statements at sample inputs *)

Lemma clean_content_normal_form_witness :
  PyStr.words (clean_content scraped_text)
  = [txt "Fires"; txt "burned"; txt "in"; txt "2018."].
Proof.
  destruct (clean_content_normal_form scraped_text) as (_ & _ & -> & _).
  reflexivity.
Defined.

Lemma clean_content_plain_witness :
  clean_content (txt " two  words ") = txt "two words".
Proof.
  destruct (clean_content_plain (txt " two  words ")) as (-> & _).
  - not_in_literal.
  - reflexivity.
Defined.

Lemma scraper_year_witness :
  cal_fire_url (txt "2018") = txt "https://www.fire.ca.gov/incidents/2018/".
Proof.
  destruct (scraper_year fire_query (txt "2018") eq_refl) as (_ & _ & _ & ->).
  reflexivity.
Defined.

Lemma search_disaster_info_bounds_witness :
  (Z.of_nat (length (search_disaster_info sample_scraper fire_query 2)) <= 2)%Z.
Proof.
  destruct (search_disaster_info_bounds sample_scraper fire_query 2) as [H _].
  apply H. lia.
Defined.

Lemma web_item_not_empty title source content :
  web_item title source content <> ∅.
Proof.
  intros H. apply (f_equal (fun d : dict => d !! "title")) in H.
  unfold web_item in H. by rewrite lookup_insert_eq, lookup_empty in H.
Qed.

Lemma cal_fire_first_witness :
  search_disaster_info sample_scraper fire_query 1
  = [web_item "California Wildfires" "Cal Fire" "c1 text"].
Proof.
  destruct (cal_fire_first sample_scraper fire_query (txt "2018")
              (web_item "California Wildfires" "Cal Fire" "c1 text") 1
              eq_refl eq_refl eq_refl (web_item_not_empty _ _ _)) as [H _].
  apply H. reflexivity.
Defined.

Lemma google_redirect_unwrapped_witness :
  google_result_url (txt "/url?q=https://example.org/a&sa=U")
  = Some (txt "https://example.org/a").
Proof.
  destruct google_redirect_unwrapped as [H _].
  apply (H (txt "https://example.org/a") (txt "&sa=U")).
  - discriminate.
  - not_in_literal.
  - right. reflexivity.
Defined.

Lemma truncated_content_words_witness :
  truncated_content (txt "a  few words") = txt "a few words".
Proof.
  destruct (truncated_content_words (txt "a  few words")) as (_ & H & _).
  destruct H as [-> _].
  - vm_compute. lia.
  - reflexivity.
Defined.

Lemma web_fallback_thresholds_witness :
  (web_fallback silent_world (txt "floods") (txt " short evidence ")
     [txt "- Quake report (Wikipedia)"] (initial_state sample_store)).1
  = Ok (txt "**Information about floods**" ++ BLANK ++ txt "short evidence").
Proof.
  destruct (web_fallback_thresholds silent_world (txt "floods")
              (txt " short evidence ") [txt "- Quake report (Wikipedia)"]
              (initial_state sample_store)) as [H _].
  rewrite H.
  - reflexivity.
  - vm_compute. lia.
Defined.

Lemma today_not_empty : txt "2024-05-01" <> [].
Proof. discriminate. Qed.

Lemma clean_crisis_data_complete_witness :
  Forall complete_event (clean_crisis_data (txt "2024-05-01") raw_events)
  /\ length (clean_crisis_data (txt "2024-05-01") raw_events) = 2.
Proof.
  split.
  - apply (clean_crisis_data_complete (txt "2024-05-01") raw_events).
    discriminate.
  - reflexivity.
Defined.

Lemma clean_crisis_data_idempotent_witness :
  clean_crisis_data (txt "2025-01-01")
    (clean_crisis_data (txt "2024-05-01") raw_events)
  = clean_crisis_data (txt "2024-05-01") raw_events.
Proof.
  apply (clean_crisis_data_idempotent (txt "2024-05-01") (txt "2025-01-01")
           raw_events).
  discriminate.
Defined.

Lemma sample_db_ids : Forall (fun d : dict => is_Some (d !! "_id")) sample_db.
Proof.
  unfold sample_db.
  repeat (apply List.Forall_cons; [eexists; vm_compute; reflexivity|]).
  apply List.Forall_nil.
Qed.

Lemma get_all_crisis_events_pages_witness :
  get_all_crisis_events sample_store 2 0 ++ get_all_crisis_events sample_store 2 2
  = get_all_crisis_events sample_store 4 0.
Proof.
  destruct (get_all_crisis_events_pages sample_store sample_db 2 0
              eq_refl eq_refl eq_refl sample_db_ids) as (_ & _ & H).
  apply H. lia.
Defined.

Lemma search_by_vector_is_listing_witness :
  search_by_vector sample_store [1%Z; 2%Z] 2
  = get_all_crisis_events sample_store 2 0.
Proof.
  apply (search_by_vector_is_listing sample_store [1%Z; 2%Z] 2).
  left. reflexivity.
Defined.

Lemma resize_vector_dimension_witness :
  drop 2 (resize_vector [1%Z; 2%Z]) = replicate 382 0%Z.
Proof.
  destruct (resize_vector_dimension [1%Z; 2%Z]) as (_ & _ & _ & H & _).
  apply H. vm_compute. lia.
Defined.

Lemma text_search_never_fails_witness :
  (text_search unembedded_world (txt "quake") 5
     (initial_state sample_store)).1
  = Ok (SearchResponse [] 0 (txt "quake")).
Proof.
  destruct (text_search_never_fails unembedded_world (txt "quake") 5
              (initial_state sample_store)) as (_ & _ & H).
  apply H. reflexivity.
Defined.

Lemma response_cost_witness :
  exists evs prompt text,
    trace (generate_response sample_world (txt "quake") sample_db sample_web
             (initial_state sample_store)).2
    = [] ++ evs
    /\ evs `sublist_of` [CallWebSearch (txt "quake") 5;
                         CallGenerate prompt; CallSummarize text]
    /\ CallWebSearch (txt "quake") 5 ∉ evs.
Proof.
  destruct (response_cost sample_world (txt "quake") sample_db sample_web
              (initial_state sample_store))
    as (evs & prompt & text & E & Hs & Hn).
  exists evs, prompt, text. split; [exact E|]. split; [exact Hs|].
  apply Hn. left. discriminate.
Defined.

Lemma embedding_failure_witness :
  (find_and_respond unembedded_world (txt "quake") 5
     (initial_state sample_store)).1
  = Ok (search_error (txt "quake")).
Proof.
  destruct (embedding_failure unembedded_world (txt "quake") 5
              (initial_state sample_store) eq_refl) as [-> _].
  reflexivity.
Defined.

(** ** The answers of the database path *)

Lemma add_db_text_spec all_text ev :
  text_fields ev ->
  add_db_text all_text ev
  = Ok (all_text ++ default [] (context_piece <$> db_content ev)).
Proof.
  intros H. unfold add_db_text, db_content.
  assert (Ht : forall v, ev !! "text" = Some v -> is_text v).
  { intros v. apply H. set_solver. }
  assert (Hs : forall v, ev !! "summary" = Some v -> is_text v).
  { intros v. apply H. set_solver. }
  pose proof (nonempty_text_value ev "text" Ht) as E1.
  pose proof (nonempty_text_value ev "summary" Hs) as E2.
  destruct (has_value ev "text").
  - destruct (str_plus ev "text" (SP :: BLANK)) as [piece|]; [|done].
    simpl in *. injection E1 as E1.
    destruct (nonempty_text (ev !! "text")) as [t|]; [|done].
    by injection E1 as ->.
  - injection E1 as E1. destruct (nonempty_text (ev !! "text")); [done|].
    destruct (has_value ev "summary").
    + destruct (str_plus ev "summary" (SP :: BLANK)) as [piece|]; [|done].
      simpl in *. by injection E2 as <-.
    + injection E2 as <-. simpl. by rewrite app_nil_r.
Qed.

Lemma for_each_db_text context_data all_text :
  Forall text_fields context_data ->
  for_each add_db_text context_data all_text
  = Ok (all_text ++ concat (map context_piece (omap db_content context_data))).
Proof.
  intros H. revert all_text.
  induction H as [|ev l Hev _ IH]; intros all_text.
  - simpl. by rewrite app_nil_r.
  - cbn [for_each]. rewrite add_db_text_spec by done. cbn [result_bind].
    rewrite IH. f_equal. simpl.
    destruct (db_content ev); simpl; [|by rewrite app_nil_r].
    by rewrite <- app_assoc.
Qed.

Lemma structured_event_ok i ev :
  text_fields ev -> exists item, structured_event i ev = Ok item.
Proof.
  intros H. unfold structured_event.
  destruct (has_value ev "summary"); [cbn [result_bind]; eexists; reflexivity|].
  destruct (has_value ev "text") eqn:Ht;
    [|cbn [result_bind]; eexists; reflexivity].
  unfold has_value in Ht.
  destruct (ev !! "text") as [v|] eqn:E; [|done].
  destruct v as [|text|hex]; [done| |].
  - cbn [result_bind]. eexists; reflexivity.
  - exfalso. apply (H "text" (PyOid hex)); [set_solver|done].
Qed.

Lemma structured_events_ok i events :
  Forall text_fields events -> exists out, structured_events i events = Ok out.
Proof.
  intros H. revert i. induction H as [|ev l Hev _ IH]; intros i;
    cbn [structured_events]; [eexists; reflexivity|].
  destruct (structured_event_ok i ev Hev) as [item ->].
  destruct (IH (S i)) as [items ->]. cbn [result_bind]. eexists; reflexivity.
Qed.

Lemma format_context_ok context_data :
  Forall (fun ev => ~ odd_location ev) context_data ->
  exists formatted_context, format_context context_data = Ok formatted_context.
Proof.
  intros H. unfold format_context.
  destruct (format_context_items_ok 1 context_data H) as [items ->].
  cbn [result_bind]. eexists; reflexivity.
Qed.

(** The answer of the database path whose context is written: the
    generation block giving no text, it is the heading and the summary
    of the text of all events when that text has more than 30 words and
    the summarizer is loaded or loads, and the heading and the
    description of the first three events otherwise; the numbered titles
    when the summarizer or the description raises. *)
Lemma db_response_ladder w user_query context_data s formatted_context
    all_text :
  format_context context_data = Ok formatted_context ->
  for_each add_db_text context_data [] = Ok all_text ->
  (generate_db_based_response w user_query context_data s).1
  = if negb (PyStr.is_empty all_text)
       && (30 <? length (PyStr.words all_text))
       && (summarizer_loaded s || summarizer_loads w)
    then match summarize w (PyStr all_text) 300 100 with
         | Ok summary => Ok (information_header user_query ++ summary)
         | Raise => Ok (simple_response user_query context_data)
         end
    else match structured_events 1 (take 3 context_data) with
         | Ok events => Ok (information_header user_query ++ events)
         | Raise => Ok (simple_response user_query context_data)
         end.
Proof.
  intros Hf Ha.
  unfold generate_db_based_response, call_generate, call_summarize, summarize,
    load_summarizer, load_model, try_catch, bind, get_state,
    set_summarizer_loaded, set_model_loaded, emit, lift, ret, raise.
  rewrite Hf, Ha. destruct s as [ml sl d tr].
  cbn [model_loaded summarizer_loaded db trace].
  destruct ml; destruct (llm_loads w);
    cbn [negb fst snd model_loaded summarizer_loaded db trace];
    destruct (negb (PyStr.is_empty all_text)
              && (30 <? length (PyStr.words all_text)));
    cbn [andb negb fst snd model_loaded summarizer_loaded db trace];
    try (by destruct (structured_events 1 (take 3 context_data)));
    destruct sl; destruct (summarizer_loads w);
    cbn [orb negb fst snd model_loaded summarizer_loaded db trace];
    try (by destruct (structured_events 1 (take 3 context_data)));
    destruct (t5_loads w);
    cbn [negb fst snd model_loaded summarizer_loaded db trace]; try done;
    destruct (length (PyStr.words all_text) <? 100);
    cbn [fst snd]; try done;
    by destruct (t5_generate w all_text 300 100).
Qed.

(** X23. The generation block never giving a text, the database path
    answers from the text and the description of its events.  For
    evidence whose fields are text, it builds its text from every event,
    not from the first three.  From 31 to 99 words, with a summarizer
    that is loaded or loads, it answers with the heading and that text as
    it is; up to 30 words, or without a summarizer, it answers with the
    heading and the description of the first three events. *)
Theorem db_fallback_text w user_query context_data s :
  Forall text_fields context_data ->
  Forall (fun ev => ~ odd_location ev) context_data ->
  let all_text :=
    concat (map context_piece (omap db_content context_data)) in
  let n := length (PyStr.words all_text) in
  for_each add_db_text context_data [] = Ok all_text
  /\ (30 < n < 100 ->
      summarizer_loaded s = true \/ summarizer_loads w = true ->
      t5_loads w = true ->
      (generate_db_based_response w user_query context_data s).1
      = Ok (information_header user_query ++ all_text))
  /\ (n <= 30 \/ (summarizer_loaded s = false /\ summarizer_loads w = false) ->
      exists events,
        structured_events 1 (take 3 context_data) = Ok events
        /\ (generate_db_based_response w user_query context_data s).1
           = Ok (information_header user_query ++ events)).
Proof.
  intros Htext Hloc all_text n.
  assert (Ha : for_each add_db_text context_data [] = Ok all_text).
  { by rewrite for_each_db_text. }
  split; [done|].
  destruct (format_context_ok context_data Hloc)
    as [formatted_context Hf].
  rewrite (db_response_ladder w user_query context_data s formatted_context
             all_text Hf Ha).
  fold n. split.
  - intros Hn Hs Ht.
    destruct (Nat.ltb_spec 30 n); [|lia].
    assert (Hne : PyStr.is_empty all_text = false).
    { destruct all_text; [|done]. simpl in n. lia. }
    rewrite Hne. cbn [negb andb].
    assert (Hl : summarizer_loaded s || summarizer_loads w = true).
    { destruct Hs as [-> | ->]; [done|apply orb_true_r]. }
    rewrite Hl. unfold summarize. rewrite Ht. cbn [negb]. fold n.
    by destruct (Nat.ltb_spec n 100); [|lia].
  - intros Hn.
    destruct (structured_events_ok 1 (take 3 context_data)) as [events He];
      [by apply Forall_take|].
    exists events. split; [done|]. rewrite He.
    destruct Hn as [Hn|[-> ->]].
    + destruct (Nat.ltb_spec 30 n); [lia|]. by rewrite andb_false_r.
    + by rewrite andb_false_r.
Qed.

Lemma sample_db_locations : Forall (fun ev => ~ odd_location ev) sample_db.
Proof.
  unfold sample_db.
  repeat (apply List.Forall_cons;
          [intros (k & v & Hk & E & _);
           repeat (apply elem_of_cons in Hk as [->|Hk];
                   [vm_compute in E; discriminate E|]);
           by apply elem_of_nil in Hk|]).
  apply List.Forall_nil.
Qed.

(** Four short records and a generator that loads: the text of the four,
    and the description of the first three as the answer. *)
Lemma db_fallback_text_witness :
  for_each add_db_text sample_db []
  = Ok (concat (map context_piece
                  [txt "d1 text"; txt "d2 text"; txt "d3 text"; txt "d4 text"]))
  /\ exists events,
       structured_events 1 (take 3 sample_db) = Ok events
       /\ (generate_db_based_response sample_world (txt "quake") sample_db
             (initial_state sample_store)).1
          = Ok (information_header (txt "quake") ++ events).
Proof.
  destruct (db_fallback_text sample_world (txt "quake") sample_db
              (initial_state sample_store) sample_db_text_fields
              sample_db_locations) as (H1 & _ & H3).
  split; [exact H1|]. apply H3. left. vm_compute. lia.
Defined.
